(** * Scan-path planning core of [auto_generated_scene_and_survey_V2.py]

    A shallow embedding of the geometry and path-planning methods of
    [HeliosSceneGenerator]: [extract_floor_plan], [optimize_scan_path],
    [_generate_grid_scan_path] with its three sweep strategies, and
    [_generate_traditional_scan_path] with its nested
    [nearest_neighbor_path]; of the fan triangulation of
    [AdvancedOBJTriangulator]; and of [format_file_size].

    Modelling conventions.
    - Two arithmetics.  The first development computes with exact
      rationals ([Q]) and keeps a Euclidean distance [np.sqrt(r)] as the
      symbolic root of its radicand: it carries the properties that do not
      depend on rounding (which points are tested and kept, permutations,
      the case analysis of the offset, the errors of indexing and
      sampling) and those stated of ideal arithmetic (path lengths,
      distinct stands).  The module [Binary64] computes with IEEE 754
      binary64 numbers as the interpreter does, with [np.arange] raising
      as NumPy does: it carries the properties that depend on the rounding
      (number and position of the scan lines, the adapted step, the ground
      faces, the greedy order).
    - Shapely and SciPy are outside the repository: they appear as the
      interfaces [Shapely] and [SciPy], whose operations the planner calls.
    - Exceptions are explicit: a computation [Returns] a value or [Raises];
      [OutOfFuel] marks a [while] loop cut short by its fuel, which the
      loops of the planner are shown never to be.
    - [self.log] only writes to the GUI and is left out. *)

From Stdlib Require Import List Arith ZArith QArith Qround Qabs.
From Stdlib Require Import Lia Lqa Bool Permutation Sorted.
From Stdlib Require Import Reals Qreals Lra.
From Stdlib Require String DecimalString.
From Stdlib Require Floats Uint63.
Import ListNotations.

Open Scope Q_scope.

(** ** Outcomes of Python computations *)

Inductive exn : Set :=
  ValueError | IndexError | ZeroDivisionError | OverflowError | LibraryError.

Inductive outcome (A : Type) : Type :=
| Returns (a : A)
| Raises (e : exn)
| OutOfFuel.

Arguments Returns {A} a.
Arguments Raises {A} e.
Arguments OutOfFuel {A}.

Definition bind {A B : Type} (m : outcome A) (k : A -> outcome B) : outcome B :=
  match m with
  | Returns a => k a
  | Raises e => Raises e
  | OutOfFuel => OutOfFuel
  end.

Notation "x <- m ;; k" := (bind m (fun x => k))
  (at level 61, m at next level, right associativity).
Notation "' p <- m ;; k" := (bind m (fun x => match x with p => k end))
  (at level 61, p pattern, m at next level, right associativity).

(** A call into an external library: [None] when the library raises. *)
Definition library_call {A : Type} (r : option A) : outcome A :=
  match r with
  | Some a => Returns a
  | None => Raises LibraryError
  end.

(** [try: m except Exception: h] *)
Definition try_except {A : Type} (m : outcome A) (h : outcome A) : outcome A :=
  match m with
  | Raises _ => h
  | other => other
  end.

(** ** Python built-ins used by the planner *)

Definition point : Type := Q * Q.

Definition Qltb (a b : Q) : bool := negb (Qle_bool b a).

Module Py.

(** [min(l)]: the running minimum is replaced only by a strictly smaller
    item, so the first of several equal minima is kept. *)
Fixpoint min_from {A : Type} (ltb : A -> A -> bool) (cur : A) (l : list A) : A :=
  match l with
  | [] => cur
  | x :: l' => min_from ltb (if ltb x cur then x else cur) l'
  end.

Definition min {A : Type} (ltb : A -> A -> bool) (l : list A) : outcome A :=
  match l with
  | [] => Raises ValueError
  | x :: l' => Returns (min_from ltb x l')
  end.

(** [min(l, key=key)] *)
Definition min_key {A K : Type} (ltb : K -> K -> bool) (key : A -> K)
  (l : list A) : outcome A :=
  min (fun a b => ltb (key a) (key b)) l.

(** [max(l)] and [max(l, key=key)]: replaced only by a strictly greater item. *)
Definition max {A : Type} (ltb : A -> A -> bool) (l : list A) : outcome A :=
  min (fun a b => ltb b a) l.

Definition max_key {A K : Type} (ltb : K -> K -> bool) (key : A -> K)
  (l : list A) : outcome A :=
  max (fun a b => ltb (key a) (key b)) l.

(** [l.index(v)] *)
Fixpoint index {A : Type} (eqb : A -> A -> bool) (l : list A) (v : A) : outcome nat :=
  match l with
  | [] => Raises ValueError
  | x :: l' => if eqb x v then Returns 0%nat
               else i <- index eqb l' v ;; Returns (S i)
  end.

(** [l.pop(i)] for [i >= 0]: the item and the list without it. *)
Fixpoint pop {A : Type} (l : list A) (i : nat) : outcome (A * list A) :=
  match l, i with
  | [], _ => Raises IndexError
  | x :: l', O => Returns (x, l')
  | x :: l', S i' => '(y, r) <- pop l' i' ;; Returns (y, x :: r)
  end.

(** [l[-1]] *)
Definition last_item {A : Type} (l : list A) : outcome A :=
  match rev l with
  | [] => Raises IndexError
  | x :: _ => Returns x
  end.

(** [l[i]] for [i >= 0] *)
Definition getitem {A : Type} (l : list A) (i : nat) : outcome A :=
  match nth_error l i with
  | Some x => Returns x
  | None => Raises IndexError
  end.

(** [l[:-1]] *)
Definition but_last {A : Type} (l : list A) : list A := removelast l.

Fixpoint enumerate_from {A : Type} (i : nat) (l : list A) : list (nat * A) :=
  match l with
  | [] => []
  | x :: l' => (i, x) :: enumerate_from (S i) l'
  end.

Definition enumerate {A : Type} (l : list A) : list (nat * A) := enumerate_from 0 l.

(** [[f(x) for x in l]] where [f] may raise. *)
Fixpoint comprehension {A B : Type} (f : A -> outcome B) (l : list A) : outcome (list B) :=
  match l with
  | [] => Returns []
  | x :: l' => y <- f x ;; ys <- comprehension f l' ;; Returns (y :: ys)
  end.

End Py.

(** ** NumPy *)

Module np.

(** [np.arange(start, stop, step)] for a positive [step]:
    [ceil((stop - start) / step)] values [start + i * step]. *)
Definition arange (start stop step : Q) : list Q :=
  map (fun i : nat => start + inject_Z (Z.of_nat i) * step)
      (seq 0 (Z.to_nat (Qceiling ((stop - start) / step)))).

(** The value of [np.sqrt(radicand)], kept exact. *)
Record distance : Set := sqrt { radicand : Q }.

Definition dist_ltb (d1 d2 : distance) : bool := Qltb (radicand d1) (radicand d2).
Definition dist_eqb (d1 d2 : distance) : bool := Qeq_bool (radicand d1) (radicand d2).

Definition dist_value (d : distance) : R := R_sqrt.sqrt (Q2R (radicand d)).

(** [np.array(p) - np.array(q)] and [np.linalg.norm(v)] on 2-vectors. *)
Definition sub (p q : point) : point := (fst p - fst q, snd p - snd q).
Definition linalg_norm (v : point) : distance := sqrt (fst v * fst v + snd v * snd v).

(** [a[i]] on an array with a Python integer: negative indices count from
    the end, anything outside [-n, n) raises. *)
Definition getitem {A : Type} (a : list A) (i : Z) : outcome A :=
  let n := Z.of_nat (length a) in
  if (0 <=? i)%Z && (i <? n)%Z then Py.getitem a (Z.to_nat i)
  else if (- n <=? i)%Z && (i <? 0)%Z then Py.getitem a (Z.to_nat (n + i))
  else Raises IndexError.

(** [np.mean(l)]; [None] stands for the [nan] of an empty list. *)
Definition mean (l : list Q) : option Q :=
  match l with
  | [] => None
  | _ => Some (fold_right Qplus 0 l / inject_Z (Z.of_nat (length l)))
  end.

Fixpoint insert_sorted (x : Q) (l : list Q) : list Q :=
  match l with
  | [] => [x]
  | y :: l' => if Qle_bool x y then x :: l else y :: insert_sorted x l'
  end.

Definition sort (l : list Q) : list Q := fold_right insert_sorted [] l.

(** [np.percentile(a, q)] with the default linear interpolation: the value
    at virtual index [(n - 1) * q / 100] of the sorted data. *)
Definition percentile (a : list Q) (q : Q) : outcome Q :=
  let n := length a in
  let s := sort a in
  let virtual_index := inject_Z (Z.of_nat (n - 1)) * (q / 100) in
  let lo := Z.to_nat (Qfloor virtual_index) in
  let hi := Nat.min (S lo) (n - 1) in
  let gamma := virtual_index - inject_Z (Z.of_nat lo) in
  a_lo <- Py.getitem s lo ;;
  a_hi <- Py.getitem s hi ;;
  Returns (a_lo + (a_hi - a_lo) * gamma).

End np.

(** ** The [random] module

    The generator is a supplied source: [rng call n] is the value of the
    [call]-th draw of an index below [n] (reduced modulo [n]). *)

Module random.

Definition source : Type := nat -> nat -> nat.

Fixpoint draw {A : Type} (rng : source) (call : nat) (pool : list A) (k : nat) : list A :=
  match k with
  | O => []
  | S k' =>
      match Py.pop pool (rng call (length pool) mod length pool) with
      | Returns (x, rest) => x :: draw rng (S call) rest k'
      | _ => []
      end
  end.

(** [random.sample(population, k)]: [k] items chosen without replacement;
    [ValueError] when [k] is negative or larger than the population. *)
Definition sample {A : Type} (rng : source) (population : list A) (k : Z)
  : outcome (list A) :=
  if (k <? 0)%Z || (Z.of_nat (length population) <? k)%Z then Raises ValueError
  else Returns (draw rng 0 population (Z.to_nat k)).

End random.

(** ** External geometry capabilities *)

(** What the planner asks of Shapely.  [geoms g] is [Some pieces] when
    [hasattr(g, 'geoms')]; [buffer g d] is [None] when the call raises. *)
Class Shapely : Type := {
  geom : Type;
  Polygon : list point -> geom;
  buffer : geom -> Q -> option geom;
  is_valid : geom -> bool;
  is_empty : geom -> bool;
  geoms : geom -> option (list geom);
  area : geom -> Q;
  centroid : geom -> point;
  bounds : geom -> Q * Q * Q * Q;
  contains : geom -> point -> bool
}.

(** The module flag [HAS_SCIPY] and [ConvexHull(points).vertices], [None]
    when the hull computation raises. *)
Class SciPy : Type := {
  HAS_SCIPY : bool;
  ConvexHull_vertices : list point -> option (list nat)
}.

(** ** Floor-plan extraction *)

Definition vertex : Type := Q * Q * Q.

Definition vx (v : vertex) : Q := fst (fst v).
Definition vy (v : vertex) : Q := snd (fst v).
Definition vz (v : vertex) : Q := snd v.

(** [abs(face_z_avg - ground_height) < height_threshold]; false on [nan]. *)
Definition near_ground (face_z_avg : option Q) (ground_height height_threshold : Q) : bool :=
  match face_z_avg with
  | Some avg => Qltb (Qabs (avg - ground_height)) height_threshold
  | None => false
  end.

(** The loop over [faces] (lines 1368-1372). *)
Fixpoint collect_ground_vertices (vertices : list vertex) (ground_height height_threshold : Q)
  (faces : list (list Z)) (ground_vertices : list vertex) : outcome (list vertex) :=
  match faces with
  | [] => Returns ground_vertices
  | face :: faces' =>
      face_vertices <- Py.comprehension (np.getitem vertices) face ;;
      let face_z_avg := np.mean (map vz face_vertices) in
      if near_ground face_z_avg ground_height height_threshold
      then collect_ground_vertices vertices ground_height height_threshold faces'
             (ground_vertices ++ face_vertices)
      else collect_ground_vertices vertices ground_height height_threshold faces'
             ground_vertices
  end.

(** Lines 1389-1391: the bounding rectangle of the projected points. *)
Definition bounding_rectangle (xy_coords : list point) : outcome (list point) :=
  pminx <- Py.min_key Qltb fst xy_coords ;;
  pminy <- Py.min_key Qltb snd xy_coords ;;
  pmaxx <- Py.max_key Qltb fst xy_coords ;;
  pmaxy <- Py.max_key Qltb snd xy_coords ;;
  let min_x := fst pminx in
  let min_y := snd pminy in
  let max_x := fst pmaxx in
  let max_y := snd pmaxy in
  Returns [(min_x, min_y); (max_x, min_y); (max_x, max_y); (min_x, max_y); (min_x, min_y)].

(** Lines 1381-1384, the body of the [try]. *)
Definition hull_boundary `{SciPy} (xy_coords : list point) : outcome (list point) :=
  hull <- library_call (ConvexHull_vertices xy_coords) ;;
  boundary_points <- Py.comprehension (Py.getitem xy_coords) hull ;;
  first <- Py.getitem boundary_points 0 ;;
  Returns (boundary_points ++ [first]).

(** Lines 1374-1377: all vertices when no face qualified, projected to 2D. *)
Definition ground_xy (vertices ground_vertices : list vertex) : list point :=
  let ground_vertices :=
    match ground_vertices with [] => vertices | _ :: _ => ground_vertices end in
  map (fun v => (vx v, vy v)) ground_vertices.

Definition extract_floor_plan `{SciPy} (vertices : list vertex) (faces : list (list Z))
  (height_threshold : Q) : outcome (list point) :=
  let z_values := map vz vertices in
  ground_height <- np.percentile z_values 5 ;;
  ground_vertices <-
    collect_ground_vertices vertices ground_height height_threshold faces [] ;;
  let xy_coords := ground_xy vertices ground_vertices in
  if HAS_SCIPY && (3 <=? length xy_coords)%nat
  then try_except (hull_boundary xy_coords) (bounding_rectangle xy_coords)
  else bounding_rectangle xy_coords.

(** ** The active scanning region

    Lines 1443-1466 and 1608-1629 are the same block in both planners: it
    either makes the planner return the centroid of the house polygon at
    once, or fixes [scan_polygon]. *)

Inductive region `{Shapely} : Type :=
| CentroidOnly (c : point)
| ScanPolygon (scan_polygon : geom).

(** Lines 1453-1456: the piece of largest area. *)
Definition largest_piece `{Shapely} (inner_polygon : geom) : outcome geom :=
  match geoms inner_polygon with
  | Some pieces =>
      let areas := map area pieces in
      largest <- Py.max Qltb areas ;;
      max_area_idx <- Py.index Qeq_bool areas largest ;;
      Py.getitem pieces max_area_idx
  | None => Returns inner_polygon
  end.

Definition scan_region `{Shapely} (house_polygon : geom) (boundary_distance : Q)
  : outcome region :=
  if Qltb 0 boundary_distance then
    try_except
      (inner_polygon <- library_call (buffer house_polygon (- boundary_distance)) ;;
       if negb (is_valid inner_polygon) || is_empty inner_polygon
       then Returns (CentroidOnly (centroid house_polygon))
       else
         inner_polygon <- largest_piece inner_polygon ;;
         Returns (ScanPolygon inner_polygon))
      (Returns (ScanPolygon house_polygon))
  else Returns (ScanPolygon house_polygon).

(** ** Sweep strategies of the grid mode *)

Definition inside `{Shapely} (scan_polygon : geom) (l : list point) : list point :=
  filter (contains scan_polygon) l.

(** Lines 1518-1522: the in-region fine samples of the scan line at height [y]. *)
Definition x_span `{Shapely} (scan_polygon : geom) (min_x max_x step y : Q) : list Q :=
  let x_test_points := np.arange min_x (max_x + step / 20) (step / 20) in
  filter (fun x => contains scan_polygon (x, y)) x_test_points.

(** One pass of the loop body of [_generate_horizontal_scan] (lines 1518-1535). *)
Definition horizontal_line `{Shapely} (scan_polygon : geom) (min_x max_x step : Q)
  (i : nat) (y : Q) : outcome (list point) :=
  let x_points := x_span scan_polygon min_x max_x step y in
  match x_points with
  | [] => Returns []
  | _ :: _ =>
      x_start <- Py.min Qltb x_points ;;
      x_end <- Py.max Qltb x_points ;;
      let x_scan_points := np.arange x_start (x_end + step / 2) step in
      let x_scan_points := if Nat.eqb (i mod 2) 1 then rev x_scan_points else x_scan_points in
      Returns (inside scan_polygon (map (fun x => (x, y)) x_scan_points))
  end.

Fixpoint scan_lines (line : nat -> Q -> outcome (list point)) (positions : list (nat * Q))
  (scan_path : list point) : outcome (list point) :=
  match positions with
  | [] => Returns scan_path
  | (i, c) :: positions' =>
      pts <- line i c ;;
      scan_lines line positions' (scan_path ++ pts)
  end.

Definition _generate_horizontal_scan `{Shapely} (scan_polygon : geom)
  (min_x max_x min_y max_y step : Q) : outcome (list point) :=
  let y_positions := np.arange (min_y + step / 2) max_y step in
  scan_lines (horizontal_line scan_polygon min_x max_x step) (Py.enumerate y_positions) [].

(** Lines 1547-1551: the in-region fine samples of the scan column at [x]. *)
Definition y_span `{Shapely} (scan_polygon : geom) (min_y max_y step x : Q) : list Q :=
  let y_test_points := np.arange min_y (max_y + step / 20) (step / 20) in
  filter (fun y => contains scan_polygon (x, y)) y_test_points.

(** One pass of the loop body of [_generate_vertical_scan] (lines 1547-1564). *)
Definition vertical_line `{Shapely} (scan_polygon : geom) (min_y max_y step : Q)
  (i : nat) (x : Q) : outcome (list point) :=
  let y_points := y_span scan_polygon min_y max_y step x in
  match y_points with
  | [] => Returns []
  | _ :: _ =>
      y_start <- Py.min Qltb y_points ;;
      y_end <- Py.max Qltb y_points ;;
      let y_scan_points := np.arange y_start (y_end + step / 2) step in
      let y_scan_points := if Nat.eqb (i mod 2) 1 then rev y_scan_points else y_scan_points in
      Returns (inside scan_polygon (map (fun y => (x, y)) y_scan_points))
  end.

Definition _generate_vertical_scan `{Shapely} (scan_polygon : geom)
  (min_x max_x min_y max_y step : Q) : outcome (list point) :=
  let x_positions := np.arange (min_x + step / 2) max_x step in
  scan_lines (vertical_line scan_polygon min_y max_y step) (Py.enumerate x_positions) [].

(** The [while unvisited] loop of [_generate_grid_points] (lines 1592-1597). *)
Fixpoint grid_nearest_loop (fuel : nat) (current : point) (unvisited scan_path : list point)
  : outcome (list point) :=
  match unvisited with
  | [] => Returns scan_path
  | _ :: _ =>
      match fuel with
      | O => OutOfFuel
      | S fuel' =>
          let distances :=
            map (fun p => np.sqrt ((fst current - fst p) ^ 2 + (snd current - snd p) ^ 2))
                unvisited in
          nearest <- Py.min np.dist_ltb distances ;;
          nearest_idx <- Py.index np.dist_eqb distances nearest ;;
          ' (current', unvisited') <- Py.pop unvisited nearest_idx ;;
          grid_nearest_loop fuel' current' unvisited' (scan_path ++ [current'])
      end
  end.

Definition grid_candidates `{Shapely} (scan_polygon : geom) (x_positions y_positions : list Q)
  : list point :=
  flat_map (fun x =>
    flat_map (fun y => if contains scan_polygon (x, y) then [(x, y)] else []) y_positions)
    x_positions.

(** Lines 1583-1597: the nearest-neighbour connection of the retained points. *)
Definition connect_grid_points (grid_points : list point) : outcome (list point) :=
  match grid_points with
  | [] => Returns []
  | _ :: _ =>
      let unvisited := grid_points in
      ' (current, unvisited) <- Py.pop unvisited 0 ;;
      grid_nearest_loop (length unvisited) current unvisited [current]
  end.

Definition _generate_grid_points `{Shapely} (scan_polygon : geom)
  (min_x max_x min_y max_y step : Q) : outcome (list point) :=
  let x_positions := np.arange (min_x + step / 2) max_x step in
  let y_positions := np.arange (min_y + step / 2) max_y step in
  let grid_points := grid_candidates scan_polygon x_positions y_positions in
  connect_grid_points grid_points.

(** ** The grid planner *)

Inductive direction : Set := horizontal | vertical | both | grid.

(** The two GUI variables the planner reads from [self]. *)
Record HeliosSceneGenerator : Set := {
  grid_scan_mode : bool;
  scan_direction : direction
}.

(** Lines 1468-1509: the sweep over the fixed [scan_polygon]. *)
Definition grid_scan_over `{Shapely} (self : HeliosSceneGenerator) (scan_polygon : geom)
  (step : Q) : outcome (list point) :=
  let '(min_x, min_y, max_x, max_y) := bounds scan_polygon in
  scan_path <-
    match scan_direction self with
    | horizontal =>
        _generate_horizontal_scan scan_polygon min_x max_x min_y max_y step
    | vertical =>
        _generate_vertical_scan scan_polygon min_x max_x min_y max_y step
    | both =>
        horizontal_path <-
          _generate_horizontal_scan scan_polygon min_x max_x min_y max_y step ;;
        vertical_path <-
          _generate_vertical_scan scan_polygon min_x max_x min_y max_y step ;;
        Returns (horizontal_path ++ vertical_path)
    | grid =>
        _generate_grid_points scan_polygon min_x max_x min_y max_y step
    end ;;
  match scan_path with
  | [] => Returns [centroid scan_polygon]
  | _ :: _ => Returns scan_path
  end.

Definition _generate_grid_scan_path `{Shapely} (self : HeliosSceneGenerator)
  (boundary_points : list point) (step z_height boundary_distance : Q)
  : outcome (list point) :=
  let boundary_coords := Py.but_last boundary_points in
  let house_polygon := Polygon boundary_coords in
  r <- scan_region house_polygon boundary_distance ;;
  match r with
  | CentroidOnly c => Returns [c]
  | ScanPolygon scan_polygon => grid_scan_over self scan_polygon step
  end.

(** ** The traditional planner *)

(** The sampling of one attempt (lines 1638-1646). *)
Definition sample_grid `{Shapely} (scan_polygon : geom) (min_x max_x min_y max_y current_step : Q)
  : list point :=
  let x_range := np.arange (min_x + current_step / 2) (max_x - current_step / 2) current_step in
  let y_range := np.arange (min_y + current_step / 2) (max_y - current_step / 2) current_step in
  grid_candidates scan_polygon x_range y_range.

(** [for attempt in range(10)] (lines 1637-1652) with [attempts] passes left:
    the points of the last pass and the step after the loop. *)
Fixpoint adapt_step `{Shapely} (scan_polygon : geom) (min_x max_x min_y max_y : Q)
  (target_points : Z) (attempts : nat) (current_step : Q) (valid_points : list point)
  : list point * Q :=
  match attempts with
  | O => (valid_points, current_step)
  | S attempts' =>
      let valid_points := sample_grid scan_polygon min_x max_x min_y max_y current_step in
      if (Z.of_nat (length valid_points) <=? target_points)%Z
      then (valid_points, current_step)
      else adapt_step scan_polygon min_x max_x min_y max_y target_points attempts'
             (current_step * (12 # 10)) valid_points
  end.

(** The [while unvisited] loop of [nearest_neighbor_path] (lines 1670-1674). *)
Fixpoint nearest_neighbor_loop (fuel : nat) (unvisited path : list point)
  : outcome (list point) :=
  match unvisited with
  | [] => Returns path
  | _ :: _ =>
      match fuel with
      | O => OutOfFuel
      | S fuel' =>
          current <- Py.last_item path ;;
          nearest_idx <-
            Py.min_key np.dist_ltb
              (fun i => np.linalg_norm (np.sub current (nth i unvisited current)))
              (seq 0 (length unvisited)) ;;
          ' (next, unvisited') <- Py.pop unvisited nearest_idx ;;
          nearest_neighbor_loop fuel' unvisited' (path ++ [next])
      end
  end.

Definition nearest_neighbor_path (points : list point) : outcome (list point) :=
  if (length points <=? 1)%nat then Returns points
  else
    let unvisited := points in
    ' (first, unvisited) <- Py.pop unvisited 0 ;;
    nearest_neighbor_loop (length unvisited) unvisited [first].

(** Lines 1631-1687: the adaptive sampling over the fixed [scan_polygon]. *)
Definition traditional_scan_over `{Shapely} (rng : random.source) (scan_polygon : geom)
  (step : Q) (max_points : Z) : outcome (list point) :=
  let '(min_x, min_y, max_x, max_y) := bounds scan_polygon in
  let target_points := max_points in
  let '(valid_points, current_step) :=
    adapt_step scan_polygon min_x max_x min_y max_y target_points 10 step [] in
  let valid_points :=
    match valid_points with
    | [] => [centroid scan_polygon]
    | _ :: _ => valid_points
    end in
  valid_points <-
    (if (target_points <? Z.of_nat (length valid_points))%Z
     then random.sample rng valid_points target_points
     else Returns valid_points) ;;
  nearest_neighbor_path valid_points.

Definition _generate_traditional_scan_path `{Shapely} (rng : random.source)
  (boundary_points : list point) (step z_height : Q) (max_points : Z)
  (boundary_distance : Q) : outcome (list point) :=
  let boundary_coords := Py.but_last boundary_points in
  let house_polygon := Polygon boundary_coords in
  r <- scan_region house_polygon boundary_distance ;;
  match r with
  | CentroidOnly c => Returns [c]
  | ScanPolygon scan_polygon => traditional_scan_over rng scan_polygon step max_points
  end.

Definition optimize_scan_path `{Shapely} (self : HeliosSceneGenerator) (rng : random.source)
  (boundary_points : list point) (step z_height : Q) (max_points : Z)
  (boundary_distance : Q) : outcome (list point) :=
  if grid_scan_mode self
  then _generate_grid_scan_path self boundary_points step z_height boundary_distance
  else _generate_traditional_scan_path rng boundary_points step z_height max_points
         boundary_distance.

(** ** Path length *)

Definition euclid (p q : point) : np.distance :=
  np.sqrt ((fst p - fst q) * (fst p - fst q) + (snd p - snd q) * (snd p - snd q)).

Fixpoint path_length (path : list point) : R :=
  match path with
  | p :: (q :: _) as rest => (np.dist_value (euclid p q) + path_length rest)%R
  | _ => 0%R
  end.

(** ** A geometry of axis-parallel rectangles

    A computable instance of the Shapely interface: a geometry is a list
    of open rectangles
    [(min_x, min_y, max_x, max_y)] with disjoint interiors, and the inward
    offset shrinks every rectangle on its own, dropping those that vanish.
    It is used to run the planner on rectangular footprints. *)

Module Rectangles.

Definition rect : Type := Q * Q * Q * Q.

Definition rect_bounds (coords : list point) : list rect :=
  match Py.min_key Qltb fst coords, Py.min_key Qltb snd coords,
        Py.max_key Qltb fst coords, Py.max_key Qltb snd coords with
  | Returns a, Returns b, Returns c, Returns d => [(fst a, snd b, fst c, snd d)]
  | _, _, _, _ => []
  end.

Definition grow (d : Q) (r : rect) : rect :=
  let '(x0, y0, x1, y1) := r in (x0 - d, y0 - d, x1 + d, y1 + d).

Definition nonempty (r : rect) : bool :=
  let '(x0, y0, x1, y1) := r in Qltb x0 x1 && Qltb y0 y1.

Definition rect_area (r : rect) : Q :=
  let '(x0, y0, x1, y1) := r in (x1 - x0) * (y1 - y0).

Definition rect_contains (r : rect) (p : point) : bool :=
  let '(x0, y0, x1, y1) := r in
  Qltb x0 (fst p) && Qltb (fst p) x1 && Qltb y0 (snd p) && Qltb (snd p) y1.

Definition hull (g : list rect) : rect :=
  match g with
  | [] => (0, 0, 0, 0)
  | r :: g' =>
      fold_left (fun acc r' =>
        let '(x0, y0, x1, y1) := acc in
        let '(a0, b0, a1, b1) := r' in
        (if Qltb a0 x0 then a0 else x0, if Qltb b0 y0 then b0 else y0,
         if Qltb x1 a1 then a1 else x1, if Qltb y1 b1 then b1 else y1)) g' r
  end.

Definition centre (g : list rect) : point :=
  let '(x0, y0, x1, y1) := hull g in ((x0 + x1) / 2, (y0 + y1) / 2).

(** The instance in which [Polygon] reads a boundary as the rectangles
    [polygon] assigns to it. *)
Definition shapely_of (polygon : list point -> list rect) : Shapely := {|
  geom := list rect;
  Polygon := polygon;
  buffer := fun g d => Some (filter nonempty (map (grow d) g));
  is_valid := fun _ => true;
  is_empty := fun g => match g with [] => true | _ :: _ => false end;
  geoms := fun g => match g with
                    | _ :: _ :: _ => Some (map (fun r => [r]) g)
                    | _ => None
                    end;
  area := fun g => fold_right Qplus 0 (map rect_area g);
  centroid := centre;
  bounds := hull;
  contains := fun g p => existsb (fun r => rect_contains r p) g
|}.

(** Rectangular footprints: the polygon is the bounding rectangle of its
    vertices. *)
Definition shapely : Shapely := shapely_of rect_bounds.

End Rectangles.

(** The footprint of the scenarios. *)
Definition square_footprint : list point :=
  [(0, 0); (10, 0); (10, 10); (0, 10); (0, 0)].

(** Four collinear stands on which the greedy order takes a detour. *)
Definition detour_points : list point := [(0, 0); (-3, 0); (2, 0); (6, 0)].
Definition detour_tour : list point := [(0, 0); (2, 0); (6, 0); (-3, 0)].

(** Three collinear stands, listed with the farther one first. *)
Definition short_walk : list point := [(0, 0); (3, 0); (1, 0)].

Definition same_point (p q : point) : Prop := fst p == fst q /\ snd p == snd q.

(** Two rooms of 4 x 4 and 6 x 4 joined by a corridor of width 1. *)
Definition two_rooms_footprint : list point :=
  [(0, 0); (4, 0); (4, 3 # 2); (6, 3 # 2); (6, 0); (12, 0); (12, 4); (6, 4);
   (6, 5 # 2); (4, 5 # 2); (4, 4); (0, 4); (0, 0)].

Definition two_rooms : Shapely :=
  Rectangles.shapely_of
    (fun _ => [(0, 0, 4, 4); (4, 3 # 2, 6, 5 # 2); (6, 0, 12, 4)]).

Definition horizontal_grid : HeliosSceneGenerator :=
  {| grid_scan_mode := true; scan_direction := horizontal |}.

Definition no_choice : random.source := fun _ _ => 0%nat.

(** The rooms shrunk by 1; the corridor vanishes. *)
Definition two_rooms_offset : geom (Shapely := two_rooms) :=
  [(1, 1, 3, 3); (7, 1, 11, 3)].
Definition two_rooms_pieces : list (geom (Shapely := two_rooms)) :=
  [[(1, 1, 3, 3)]; [(7, 1, 11, 3)]].

(** The step of attempt [i] (counted from 0): [step] multiplied [i] times by 1.2. *)
Fixpoint nth_step (step : Q) (i : nat) : Q :=
  match i with
  | O => step
  | S i' => nth_step (step * (12 # 10)) i'
  end.

(** The in-region points of attempt [i] of the traditional planner. *)
Definition attempt_points `{Shapely} (scan_polygon : geom) (step : Q) (i : nat)
  : list point :=
  let '(min_x, min_y, max_x, max_y) := bounds scan_polygon in
  sample_grid scan_polygon min_x max_x min_y max_y (nth_step step i).

(** ** Vocabulary for the floor-plan properties *)

(** [i] is an index numpy accepts on an array of [n] rows. *)
Definition valid_index (n : nat) (i : Z) : Prop :=
  (- Z.of_nat n <= i < Z.of_nat n)%Z.

(** The vertices a face refers to. *)
Definition face_vertices (vertices : list vertex) (face : list Z) : list vertex :=
  flat_map (fun i => match np.getitem vertices i with
                     | Returns v => [v]
                     | _ => []
                     end) face.

(** The face's mean height lies strictly within the threshold of the ground. *)
Definition face_near_ground (vertices : list vertex) (ground_height height_threshold : Q)
  (face : list Z) : bool :=
  near_ground (np.mean (map vz (face_vertices vertices face))) ground_height
    height_threshold.

(** SciPy present, with a hull routine that rejects every input. *)
Definition scipy_rejecting : SciPy :=
  {| HAS_SCIPY := true; ConvexHull_vertices := fun _ => None |}.

(** A flat unit square split into two triangles. *)
Definition unit_floor_mesh : list vertex * list (list Z) :=
  ([(0, 0, 0); (1, 0, 0); (1, 1, 0); (0, 1, 0)], [[0; 1; 2]; [0; 2; 3]]%Z).

(** ** Vocabulary for further properties of the planner *)

(** What one scan column of the vertical sweep looks like: [column] is the
    part of the path emitted for the column of index [i] at abscissa [x]. *)
Definition serpentine_column `{Shapely} (scan_polygon : geom) (min_y max_y step : Q)
  (i : nat) (x : Q) (column : list point) : Prop :=
  Forall (fun p => fst p = x /\ contains scan_polygon p = true) column /\
  (column <> [] ->
   exists y_start y_end,
     In y_start (y_span scan_polygon min_y max_y step x) /\
     In y_end (y_span scan_polygon min_y max_y step x) /\
     Forall (fun y => y_start <= y <= y_end) (y_span scan_polygon min_y max_y step x) /\
     Forall (fun p => exists k : nat,
                 snd p = y_start + inject_Z (Z.of_nat k) * step /\
                 snd p < y_end + step / 2) column) /\
  ((i mod 2 = 0)%nat -> StronglySorted Qlt (map snd column)) /\
  ((i mod 2 = 1)%nat -> StronglySorted (fun a b => b < a) (map snd column)).

Definition vertical_grid : HeliosSceneGenerator :=
  {| grid_scan_mode := true; scan_direction := vertical |}.

Definition both_grid : HeliosSceneGenerator :=
  {| grid_scan_mode := true; scan_direction := both |}.

Definition traditional_mode : HeliosSceneGenerator :=
  {| grid_scan_mode := false; scan_direction := horizontal |}.

(** A room of 1 x 1. *)
Definition small_room : Rectangles.rect := (0, 0, 1, 1).

(** A mesh whose only face refers to a vertex that does not exist. *)
Definition dangling_face_mesh : list vertex * list (list Z) :=
  ([(0, 0, 0)], [[5%Z]]).

(** ** [AdvancedOBJTriangulator]: fan triangulation of the faces *)

Module AdvancedOBJTriangulator.

(** One corner of a face: the dict built by [_parse_face], with the keys
    ['vertex'], ['texcoord'] and ['normal'] that are present. *)
Record vertex_data : Set := {
  vertex : option Z;
  texcoord : option Z;
  normal : option Z
}.

(** A face: the dict with the keys ['vertices'] and ['material']. *)
Record face : Set := {
  vertices : list vertex_data;
  material : String.string
}.

Definition triangulate_face_fan (f : face) : outcome (list face) :=
  let vs := vertices f in
  let mat := material f in
  if (length vs <=? 3)%nat then Returns [f]
  else
    v0 <- Py.getitem vs 0 ;;
    Py.comprehension
      (fun i =>
         vi <- Py.getitem vs i ;;
         vi1 <- Py.getitem vs (i + 1) ;;
         Returns {| vertices := [v0; vi; vi1]; material := mat |})
      (seq 1 (length vs - 1 - 1)).

(** The loop of [triangulate_all_faces] (lines 164-171). *)
Fixpoint triangulate_loop (faces triangulated_faces : list face) : outcome (list face) :=
  match faces with
  | [] => Returns triangulated_faces
  | f :: faces' =>
      if (length (vertices f) <=? 3)%nat
      then triangulate_loop faces' (triangulated_faces ++ [f])
      else
        triangles <- triangulate_face_fan f ;;
        triangulate_loop faces' (triangulated_faces ++ triangles)
  end.

(** [triangulate_all_faces]: the new value of [self.faces] and the returned
    pair [(original_count, len(triangulated_faces))]. *)
Definition triangulate_all_faces (self_faces : list face)
  : outcome (list face * (nat * nat)) :=
  triangulated_faces <- triangulate_loop self_faces [] ;;
  let original_count := length self_faces in
  Returns (triangulated_faces, (original_count, length triangulated_faces)).

(** The number of faces a face turns into. *)
Definition triangle_count (f : face) : nat := Nat.max 1 (length (vertices f) - 2).

(** The faces a face turns into, in closed form. *)
Definition fan_triangles (f : face) : list face :=
  if (length (vertices f) <=? 3)%nat then [f]
  else
    let d := {| vertex := None; texcoord := None; normal := None |} in
    map (fun i => {| vertices := [nth 0 (vertices f) d; nth i (vertices f) d;
                                  nth (i + 1) (vertices f) d];
                     material := material f |})
        (seq 1 (length (vertices f) - 2)).

(** [vd] is a corner of a face of material [m] in [faces]. *)
Definition has_corner (faces : list face) (m : String.string) (vd : vertex_data) : Prop :=
  exists f, In f faces /\ material f = m /\ In vd (vertices f).

Definition corner (v : Z) : vertex_data :=
  {| vertex := Some v; texcoord := None; normal := None |}.

(** A pentagon and a triangle. *)
Definition sample_faces : list face :=
  [ {| vertices := [corner 1; corner 2; corner 3; corner 4; corner 5];
       material := String.EmptyString |};
    {| vertices := [corner 1; corner 5; corner 6]; material := String.EmptyString |} ].

End AdvancedOBJTriangulator.

(** ** [format_file_size]

    The argument is a byte count (a Python [int]).  A float is given by
    its exact value, a rational.  The first [size_bytes /= 1024] divides
    an [int] and is rounded: the quotient of two ints is the binary64
    nearest to it, so the numerator is rounded to 53 significant bits; the
    later ones divide a float of at least 1024 by a power of two and are
    exact.  A number too large for a float raises [OverflowError]. *)

Module FileSize.

Import String.
Local Open Scope string_scope.

(** The nearest integer, ties to the even one. *)
Definition round_half_even (q : Q) : Z :=
  let f := Qfloor q in
  let r := q - inject_Z f in
  if Qltb r (1 # 2) then f
  else if Qltb (1 # 2) r then (f + 1)%Z
  else if Z.even f then f else (f + 1)%Z.

(** [a / 2^shift] rounded to the nearest integer, ties to the even one,
    for [a >= 0] and [shift >= 1]. *)
Definition round_shift (a shift : Z) : Z :=
  let q := (a / 2 ^ shift)%Z in
  let r := (a mod 2 ^ shift)%Z in
  let half := (2 ^ (shift - 1))%Z in
  if (r <? half)%Z then q
  else if (half <? r)%Z then (q + 1)%Z
  else if Z.even q then q else (q + 1)%Z.

(** The integer of at most 53 significant bits nearest to [n], ties to
    even: the value of the binary64 nearest to [n], range aside. *)
Definition nearest_binary64 (n : Z) : Z :=
  let bits := (Z.log2 (Z.abs n) + 1)%Z in
  if (bits <=? 53)%Z then n
  else
    let shift := (bits - 53)%Z in
    (Z.sgn n * (round_shift (Z.abs n) shift * 2 ^ shift))%Z.

(** A Python number: an [int], or a [float] given by its exact value. *)
Inductive number : Set :=
| int (n : Z)
| float (x : Q).

(** [float(n)] *)
Definition float_of_int (n : Z) : outcome Q :=
  let x := nearest_binary64 n in
  if (2 ^ 1024 <=? Z.abs x)%Z then Raises OverflowError else Returns (inject_Z x).

(** [size_bytes >= 1024] *)
Definition ge_1024 (size_bytes : number) : bool :=
  match size_bytes with
  | int n => (1024 <=? n)%Z
  | float x => Qle_bool 1024 x
  end.

(** [size_bytes / 1024] where the loop computes it, that is for
    [size_bytes >= 1024]. *)
Definition divide_by_1024 (size_bytes : number) : outcome number :=
  match size_bytes with
  | int n =>
      let x := nearest_binary64 n in
      if (2 ^ 1034 <=? Z.abs x)%Z then Raises OverflowError
      else Returns (float (inject_Z x / 1024))
  | float x => Returns (float (x / 1024))
  end.

Definition digits (n : Z) : string :=
  DecimalString.NilZero.string_of_uint (N.to_uint (Z.to_N n)).

(** The text of [x] with one decimal: sign, integer part, point, one digit. *)
Definition fixed_1 (x : Q) : string :=
  let t := Z.abs (round_half_even (x * 10)) in
  (if Qltb x 0 then "-" else "") ++ digits (t / 10) ++ "." ++ digits (t mod 10).

(** [f"{size_bytes:.1f}"]: an [int] is converted to a float first. *)
Definition format_1f (size_bytes : number) : outcome string :=
  match size_bytes with
  | int n => x <- float_of_int n ;; Returns (fixed_1 x)
  | float x => Returns (fixed_1 x)
  end.

Definition size_names : list string := ["B"; "KB"; "MB"; "GB"].

(** The [while] loop (lines 2142-2144), with [units_left] the number of
    names after [size_names[i]]: the scaled size and the index reached. *)
Fixpoint scale (units_left : nat) (size_bytes : number) (i : nat)
  : outcome (number * nat) :=
  match units_left with
  | O => Returns (size_bytes, i)
  | S units_left' =>
      if ge_1024 size_bytes
      then size_bytes <- divide_by_1024 size_bytes ;;
           scale units_left' size_bytes (i + 1)
      else Returns (size_bytes, i)
  end.

Definition format_file_size (size_bytes : Z) : outcome string :=
  if (size_bytes =? 0)%Z then Returns "0 B"
  else
    ' (size_bytes, i) <- scale (List.length size_names - 1) (int size_bytes) 0 ;;
    text <- format_1f size_bytes ;;
    name <- Py.getitem size_names i ;;
    Returns (text ++ " " ++ name).

(** The text for a value already known to be displayed in unit [name]. *)
Definition shown (value : Q) (name : string) : string :=
  fixed_1 value ++ " " ++ name.

End FileSize.

(** No stand occurs twice in [path], also not with its coordinates written
    as other fractions of the same value. *)
Definition distinct_stands (path : list point) : Prop :=
  ForallOrdPairs (fun p q => ~ same_point p q) path.

Definition gridpoint_grid : HeliosSceneGenerator :=
  {| grid_scan_mode := true; scan_direction := grid |}.

(** * The planner in binary64 arithmetic

    The same methods with the numbers the interpreter computes with:
    Python floats and NumPy [float64] scalars are IEEE 754 binary64
    values, every operation rounds to nearest-even, and a comparison with
    [nan] is false.  It serves the properties that depend on the rounding
    or on the exceptions of [np.arange].

    - [np.arange] follows NumPy's C routine ([_calc_length],
      [_arange_safe_ceil_to_intp], [DOUBLE_fill], the latter without a
      fused multiply-add).  Memory is unbounded: an array is never too
      long to be allocated.
    - The NumPy routines whose rounding is internal to the library
      ([x ** 2], [np.linalg.norm], [np.mean], [np.percentile]) form the
      interface [NumPy]; [np.sqrt] is the correctly rounded root.
    - [Polygon(...)] may raise. *)

Module Binary64.

Import Floats.
Local Open Scope float_scope.
#[local] Set Warnings "-inexact-float".

Definition point : Type := float * float.

(** The two kinds of binary64 operand.  They share every operation except
    a division by zero: Python's [float] raises, NumPy's [float64] gives
    [inf] or [nan]. *)
Inductive scalar : Set := python_float | numpy_float64.

Definition true_divide (kind : scalar) (a b : float) : outcome float :=
  match kind with
  | python_float => if b =? 0 then Raises ZeroDivisionError else Returns (a / b)
  | numpy_float64 => Returns (a / b)
  end.

Module np.

(** [ceil] of the finite number [(-1)^negative * m * 2^e]. *)
Definition ceil (negative : bool) (m : positive) (e : Z) : Z :=
  let v := if negative then Z.neg m else Z.pos m in
  if (0 <=? e)%Z then (v * 2 ^ e)%Z else (- ((- v) / 2 ^ (- e)))%Z.

(** [_arange_safe_ceil_to_intp]: [ValueError] on [nan], [OverflowError]
    outside the range of [npy_intp] (the bound 2^63 itself, whose
    conversion C leaves undefined, counted as outside). *)
Definition _arange_safe_ceil_to_intp (value : float) : outcome Z :=
  match Prim2SF value with
  | S754_nan => Raises ValueError
  | S754_infinity _ => Raises OverflowError
  | S754_zero _ => Returns 0%Z
  | S754_finite negative m e =>
      let ivalue := ceil negative m e in
      if ((- 2 ^ 63 <=? ivalue) && (ivalue <? 2 ^ 63))%Z then Returns ivalue
      else Raises OverflowError
  end.

(** [_calc_length]: the number of items, computed as
    [ceil((stop - start) / step)] in binary64. *)
Definition _calc_length (kind : scalar) (start stop step : float) : outcome Z :=
  let next := stop - start in
  let next_is_nonzero := negb (next =? 0) in
  val <- true_divide kind next step ;;
  let val_is_zero := val =? 0 in
  if val_is_zero && next_is_nonzero
  then Returns (if get_sign val then 0%Z else 1%Z)
  else _arange_safe_ceil_to_intp val.

(** Item [i] of the array: [start], then [next = start + step], then
    [start + i * delta] with [delta = next - start] ([DOUBLE_fill]). *)
Definition item (start next : float) (i : nat) : float :=
  match i with
  | 0%nat => start
  | 1%nat => next
  | _ => start + of_uint63 (Uint63.of_Z (Z.of_nat i)) * (next - start)
  end.

(** [np.arange(start, stop, step)]; [kind] is the kind of [stop - start]. *)
Definition arange (kind : scalar) (start stop step : float) : outcome (list float) :=
  length <- _calc_length kind start stop step ;;
  if (length <=? 0)%Z then Returns []
  else Returns (map (item start (start + step)) (seq 0 (Z.to_nat length))).

Definition sqrt (x : float) : float := PrimFloat.sqrt x.

End np.

(** ** External capabilities *)

(** NumPy routines that round inside the library: [x ** 2] on a scalar,
    [np.linalg.norm] of a 2-vector, [np.mean] of a list ([nan] on the empty
    list) and [np.percentile] of a non-empty array. *)
Class NumPy : Type := {
  power2 : float -> float;
  linalg_norm : point -> float;
  mean : list float -> float;
  percentile : list float -> float -> float
}.

(** What the planner asks of Shapely.  [Polygon coords] and [buffer g d]
    are [None] when the call raises; [geoms g] is [Some pieces] when
    [hasattr(g, 'geoms')]. *)
Class Shapely : Type := {
  geom : Type;
  Polygon : list point -> option geom;
  buffer : geom -> float -> option geom;
  is_valid : geom -> bool;
  is_empty : geom -> bool;
  geoms : geom -> option (list geom);
  area : geom -> float;
  centroid : geom -> point;
  bounds : geom -> float * float * float * float;
  contains : geom -> point -> bool
}.

(** The module flag [HAS_SCIPY] and [ConvexHull(points).vertices], [None]
    when the hull computation raises. *)
Class SciPy : Type := {
  HAS_SCIPY : bool;
  ConvexHull_vertices : list point -> option (list nat)
}.

(** ** Floor-plan extraction *)

Definition vertex : Type := float * float * float.

Definition vx (v : vertex) : float := fst (fst v).
Definition vy (v : vertex) : float := snd (fst v).
Definition vz (v : vertex) : float := snd v.

(** [abs(face_z_avg - ground_height) < height_threshold] *)
Definition near_ground (face_z_avg ground_height height_threshold : float) : bool :=
  abs (face_z_avg - ground_height) <? height_threshold.

(** The loop over [faces] (lines 1368-1372). *)
Fixpoint collect_ground_vertices `{NumPy} (vertices : list vertex)
  (ground_height height_threshold : float) (faces : list (list Z))
  (ground_vertices : list vertex) : outcome (list vertex) :=
  match faces with
  | [] => Returns ground_vertices
  | face :: faces' =>
      face_vertices <- Py.comprehension (np.getitem vertices) face ;;
      let face_z_avg := mean (map vz face_vertices) in
      if near_ground face_z_avg ground_height height_threshold
      then collect_ground_vertices vertices ground_height height_threshold faces'
             (ground_vertices ++ face_vertices)
      else collect_ground_vertices vertices ground_height height_threshold faces'
             ground_vertices
  end.

(** Lines 1389-1391: the bounding rectangle of the projected points. *)
Definition bounding_rectangle (xy_coords : list point) : outcome (list point) :=
  pminx <- Py.min_key ltb fst xy_coords ;;
  pminy <- Py.min_key ltb snd xy_coords ;;
  pmaxx <- Py.max_key ltb fst xy_coords ;;
  pmaxy <- Py.max_key ltb snd xy_coords ;;
  let min_x := fst pminx in
  let min_y := snd pminy in
  let max_x := fst pmaxx in
  let max_y := snd pmaxy in
  Returns [(min_x, min_y); (max_x, min_y); (max_x, max_y); (min_x, max_y); (min_x, min_y)].

(** Lines 1381-1384, the body of the [try]. *)
Definition hull_boundary `{SciPy} (xy_coords : list point) : outcome (list point) :=
  hull <- library_call (ConvexHull_vertices xy_coords) ;;
  boundary_points <- Py.comprehension (Py.getitem xy_coords) hull ;;
  first <- Py.getitem boundary_points 0 ;;
  Returns (boundary_points ++ [first]).

(** Lines 1374-1377: all vertices when no face qualified, projected to 2D. *)
Definition ground_xy (vertices ground_vertices : list vertex) : list point :=
  let ground_vertices :=
    match ground_vertices with [] => vertices | _ :: _ => ground_vertices end in
  map (fun v => (vx v, vy v)) ground_vertices.

(** [vertices] is the array of shape (n, 3) built by [parse_obj_bbox];
    the slice [vertices[:, 2]] needs two dimensions, which the array of no
    vertex lacks. *)
Definition extract_floor_plan `{NumPy} `{SciPy} (vertices : list vertex)
  (faces : list (list Z)) (height_threshold : float) : outcome (list point) :=
  z_values <- match vertices with
              | [] => Raises IndexError
              | _ :: _ => Returns (map vz vertices)
              end ;;
  let ground_height := percentile z_values 5 in
  ground_vertices <-
    collect_ground_vertices vertices ground_height height_threshold faces [] ;;
  let xy_coords := ground_xy vertices ground_vertices in
  if HAS_SCIPY && (3 <=? length xy_coords)%nat
  then try_except (hull_boundary xy_coords) (bounding_rectangle xy_coords)
  else bounding_rectangle xy_coords.

(** ** The active scanning region (lines 1443-1466 and 1608-1629) *)

Inductive region `{Shapely} : Type :=
| CentroidOnly (c : point)
| ScanPolygon (scan_polygon : geom).

(** [item == value] as [list.index] tests it: an item that is the very
    object sought matches also when it is [nan]; [max] hands back an item
    of the list, and that item is [nan] only if it is the first one. *)
Definition index_eq (item value : float) : bool :=
  (item =? value) || (is_nan item && is_nan value).

(** Lines 1453-1456: the piece of largest area. *)
Definition largest_piece `{Shapely} (inner_polygon : geom) : outcome geom :=
  match geoms inner_polygon with
  | Some pieces =>
      let areas := map area pieces in
      largest <- Py.max ltb areas ;;
      max_area_idx <- Py.index index_eq areas largest ;;
      Py.getitem pieces max_area_idx
  | None => Returns inner_polygon
  end.

Definition scan_region `{Shapely} (house_polygon : geom) (boundary_distance : float)
  : outcome region :=
  if 0 <? boundary_distance then
    try_except
      (inner_polygon <- library_call (buffer house_polygon (- boundary_distance)) ;;
       if negb (is_valid inner_polygon) || is_empty inner_polygon
       then Returns (CentroidOnly (centroid house_polygon))
       else
         inner_polygon <- largest_piece inner_polygon ;;
         Returns (ScanPolygon inner_polygon))
      (Returns (ScanPolygon house_polygon))
  else Returns (ScanPolygon house_polygon).

(** ** Sweep strategies of the grid mode *)

(** One pass of the loop body of a sweep (lines 1518-1535 of the horizontal
    sweep, 1547-1564 of the vertical one): [lo] and [hi] bound the scan
    line, [place c] is the point of the line at coordinate [c].  The fine
    samples are made from Python floats, the stands from the [float64]
    ends of the span. *)
Definition scan_line `{Shapely} (scan_polygon : geom) (place : float -> point)
  (lo hi step : float) (i : nat) : outcome (list point) :=
  test_points <- np.arange python_float lo (hi + step / 20) (step / 20) ;;
  let points := filter (fun c => contains scan_polygon (place c)) test_points in
  match points with
  | [] => Returns []
  | _ :: _ =>
      c_start <- Py.min ltb points ;;
      c_end <- Py.max ltb points ;;
      scan_points <- np.arange numpy_float64 c_start (c_end + step / 2) step ;;
      let scan_points := if (i mod 2 =? 1)%nat then rev scan_points else scan_points in
      Returns (filter (contains scan_polygon) (map place scan_points))
  end.

Definition horizontal_line `{Shapely} (scan_polygon : geom) (min_x max_x step : float)
  (i : nat) (y : float) : outcome (list point) :=
  scan_line scan_polygon (fun x => (x, y)) min_x max_x step i.

Definition vertical_line `{Shapely} (scan_polygon : geom) (min_y max_y step : float)
  (i : nat) (x : float) : outcome (list point) :=
  scan_line scan_polygon (fun y => (x, y)) min_y max_y step i.

Fixpoint scan_lines (line : nat -> float -> outcome (list point))
  (positions : list (nat * float)) (scan_path : list point) : outcome (list point) :=
  match positions with
  | [] => Returns scan_path
  | (i, c) :: positions' =>
      pts <- line i c ;;
      scan_lines line positions' (scan_path ++ pts)
  end.

Definition _generate_horizontal_scan `{Shapely} (scan_polygon : geom)
  (min_x max_x min_y max_y step : float) : outcome (list point) :=
  y_positions <- np.arange python_float (min_y + step / 2) max_y step ;;
  scan_lines (horizontal_line scan_polygon min_x max_x step) (Py.enumerate y_positions) [].

Definition _generate_vertical_scan `{Shapely} (scan_polygon : geom)
  (min_x max_x min_y max_y step : float) : outcome (list point) :=
  x_positions <- np.arange python_float (min_x + step / 2) max_x step ;;
  scan_lines (vertical_line scan_polygon min_y max_y step) (Py.enumerate x_positions) [].

(** The [while unvisited] loop of [_generate_grid_points] (lines 1592-1597). *)
Fixpoint grid_nearest_loop `{NumPy} (fuel : nat) (current : point)
  (unvisited scan_path : list point) : outcome (list point) :=
  match unvisited with
  | [] => Returns scan_path
  | _ :: _ =>
      match fuel with
      | O => OutOfFuel
      | S fuel' =>
          let distances :=
            map (fun p => np.sqrt (power2 (fst current - fst p)
                                   + power2 (snd current - snd p)))
                unvisited in
          nearest <- Py.min ltb distances ;;
          nearest_idx <- Py.index index_eq distances nearest ;;
          ' (current', unvisited') <- Py.pop unvisited nearest_idx ;;
          grid_nearest_loop fuel' current' unvisited' (scan_path ++ [current'])
      end
  end.

Definition grid_candidates `{Shapely} (scan_polygon : geom)
  (x_positions y_positions : list float) : list point :=
  flat_map (fun x =>
    flat_map (fun y => if contains scan_polygon (x, y) then [(x, y)] else []) y_positions)
    x_positions.

(** Lines 1583-1597: the nearest-neighbour connection of the retained points. *)
Definition connect_grid_points `{NumPy} (grid_points : list point) : outcome (list point) :=
  match grid_points with
  | [] => Returns []
  | _ :: _ =>
      let unvisited := grid_points in
      ' (current, unvisited) <- Py.pop unvisited 0 ;;
      grid_nearest_loop (length unvisited) current unvisited [current]
  end.

Definition _generate_grid_points `{NumPy} `{Shapely} (scan_polygon : geom)
  (min_x max_x min_y max_y step : float) : outcome (list point) :=
  x_positions <- np.arange python_float (min_x + step / 2) max_x step ;;
  y_positions <- np.arange python_float (min_y + step / 2) max_y step ;;
  let grid_points := grid_candidates scan_polygon x_positions y_positions in
  connect_grid_points grid_points.

(** ** The grid planner *)

(** Lines 1468-1509: the sweep over the fixed [scan_polygon]. *)
Definition grid_scan_over `{NumPy} `{Shapely} (self : HeliosSceneGenerator)
  (scan_polygon : geom) (step : float) : outcome (list point) :=
  let '(min_x, min_y, max_x, max_y) := bounds scan_polygon in
  scan_path <-
    match scan_direction self with
    | horizontal =>
        _generate_horizontal_scan scan_polygon min_x max_x min_y max_y step
    | vertical =>
        _generate_vertical_scan scan_polygon min_x max_x min_y max_y step
    | both =>
        horizontal_path <-
          _generate_horizontal_scan scan_polygon min_x max_x min_y max_y step ;;
        vertical_path <-
          _generate_vertical_scan scan_polygon min_x max_x min_y max_y step ;;
        Returns (horizontal_path ++ vertical_path)
    | grid =>
        _generate_grid_points scan_polygon min_x max_x min_y max_y step
    end ;;
  match scan_path with
  | [] => Returns [centroid scan_polygon]
  | _ :: _ => Returns scan_path
  end.

Definition _generate_grid_scan_path `{NumPy} `{Shapely} (self : HeliosSceneGenerator)
  (boundary_points : list point) (step z_height boundary_distance : float)
  : outcome (list point) :=
  let boundary_coords := Py.but_last boundary_points in
  house_polygon <- library_call (Polygon boundary_coords) ;;
  r <- scan_region house_polygon boundary_distance ;;
  match r with
  | CentroidOnly c => Returns [c]
  | ScanPolygon scan_polygon => grid_scan_over self scan_polygon step
  end.

(** ** The traditional planner *)

(** The sampling of one attempt (lines 1638-1646). *)
Definition sample_grid `{Shapely} (scan_polygon : geom)
  (min_x max_x min_y max_y current_step : float) : outcome (list point) :=
  x_range <- np.arange python_float (min_x + current_step / 2) (max_x - current_step / 2)
               current_step ;;
  y_range <- np.arange python_float (min_y + current_step / 2) (max_y - current_step / 2)
               current_step ;;
  Returns (grid_candidates scan_polygon x_range y_range).

(** [for attempt in range(10)] (lines 1637-1652) with [attempts] passes left:
    the points of the last pass and the step after the loop. *)
Fixpoint adapt_step `{Shapely} (scan_polygon : geom) (min_x max_x min_y max_y : float)
  (target_points : Z) (attempts : nat) (current_step : float) (valid_points : list point)
  : outcome (list point * float) :=
  match attempts with
  | O => Returns (valid_points, current_step)
  | S attempts' =>
      valid_points <- sample_grid scan_polygon min_x max_x min_y max_y current_step ;;
      if (Z.of_nat (length valid_points) <=? target_points)%Z
      then Returns (valid_points, current_step)
      else adapt_step scan_polygon min_x max_x min_y max_y target_points attempts'
             (current_step * 1.2) valid_points
  end.

(** The [while unvisited] loop of [nearest_neighbor_path] (lines 1670-1674). *)
Fixpoint nearest_neighbor_loop `{NumPy} (fuel : nat) (unvisited path : list point)
  : outcome (list point) :=
  match unvisited with
  | [] => Returns path
  | _ :: _ =>
      match fuel with
      | O => OutOfFuel
      | S fuel' =>
          current <- Py.last_item path ;;
          nearest_idx <-
            Py.min_key ltb
              (fun i => let p := nth i unvisited current in
                        linalg_norm (fst current - fst p, snd current - snd p))
              (seq 0 (length unvisited)) ;;
          ' (next, unvisited') <- Py.pop unvisited nearest_idx ;;
          nearest_neighbor_loop fuel' unvisited' (path ++ [next])
      end
  end.

Definition nearest_neighbor_path `{NumPy} (points : list point) : outcome (list point) :=
  if (length points <=? 1)%nat then Returns points
  else
    let unvisited := points in
    ' (first, unvisited) <- Py.pop unvisited 0 ;;
    nearest_neighbor_loop (length unvisited) unvisited [first].

(** Lines 1631-1687: the adaptive sampling over the fixed [scan_polygon]. *)
Definition traditional_scan_over `{NumPy} `{Shapely} (rng : random.source)
  (scan_polygon : geom) (step : float) (max_points : Z) : outcome (list point) :=
  let '(min_x, min_y, max_x, max_y) := bounds scan_polygon in
  let target_points := max_points in
  ' (valid_points, current_step) <-
    adapt_step scan_polygon min_x max_x min_y max_y target_points 10 step [] ;;
  let valid_points :=
    match valid_points with
    | [] => [centroid scan_polygon]
    | _ :: _ => valid_points
    end in
  valid_points <-
    (if (target_points <? Z.of_nat (length valid_points))%Z
     then random.sample rng valid_points target_points
     else Returns valid_points) ;;
  nearest_neighbor_path valid_points.

Definition _generate_traditional_scan_path `{NumPy} `{Shapely} (rng : random.source)
  (boundary_points : list point) (step z_height : float) (max_points : Z)
  (boundary_distance : float) : outcome (list point) :=
  let boundary_coords := Py.but_last boundary_points in
  house_polygon <- library_call (Polygon boundary_coords) ;;
  r <- scan_region house_polygon boundary_distance ;;
  match r with
  | CentroidOnly c => Returns [c]
  | ScanPolygon scan_polygon => traditional_scan_over rng scan_polygon step max_points
  end.

Definition optimize_scan_path `{NumPy} `{Shapely} (self : HeliosSceneGenerator)
  (rng : random.source) (boundary_points : list point) (step z_height : float)
  (max_points : Z) (boundary_distance : float) : outcome (list point) :=
  if grid_scan_mode self
  then _generate_grid_scan_path self boundary_points step z_height boundary_distance
  else _generate_traditional_scan_path rng boundary_points step z_height max_points
         boundary_distance.

(** ** A geometry of axis-parallel rectangles

    A computable instance of the Shapely interface, used to run the
    planner on rectangular footprints: a geometry is a list of open
    rectangles [(min_x, min_y, max_x, max_y)], the inward offset shrinks
    every rectangle on its own and drops those that vanish, and a ring of
    one or two coordinates is refused. *)

Module Rectangles.

Definition rect : Type := float * float * float * float.

Definition rect_bounds (coords : list point) : list rect :=
  match Py.min_key ltb fst coords, Py.min_key ltb snd coords,
        Py.max_key ltb fst coords, Py.max_key ltb snd coords with
  | Returns a, Returns b, Returns c, Returns d => [(fst a, snd b, fst c, snd d)]
  | _, _, _, _ => []
  end.

Definition grow (d : float) (r : rect) : rect :=
  let '(x0, y0, x1, y1) := r in (x0 - d, y0 - d, x1 + d, y1 + d).

Definition nonempty (r : rect) : bool :=
  let '(x0, y0, x1, y1) := r in (x0 <? x1) && (y0 <? y1).

Definition rect_area (r : rect) : float :=
  let '(x0, y0, x1, y1) := r in (x1 - x0) * (y1 - y0).

Definition rect_contains (r : rect) (p : point) : bool :=
  let '(x0, y0, x1, y1) := r in
  (x0 <? fst p) && (fst p <? x1) && (y0 <? snd p) && (snd p <? y1).

Definition hull (g : list rect) : rect :=
  match g with
  | [] => (nan, nan, nan, nan)
  | r :: g' =>
      fold_left (fun acc r' =>
        let '(x0, y0, x1, y1) := acc in
        let '(a0, b0, a1, b1) := r' in
        (if a0 <? x0 then a0 else x0, if b0 <? y0 then b0 else y0,
         if x1 <? a1 then a1 else x1, if y1 <? b1 then b1 else y1)) g' r
  end.

Definition centre (g : list rect) : point :=
  let '(x0, y0, x1, y1) := hull g in ((x0 + x1) / 2, (y0 + y1) / 2).

Definition ring (coords : list point) : option (list rect) :=
  match coords with
  | [_] | [_; _] => None
  | _ => Some (rect_bounds coords)
  end.

(** The instance in which [Polygon] reads a boundary through [polygon]. *)
Definition shapely_of (polygon : list point -> option (list rect)) : Shapely := {|
  geom := list rect;
  Polygon := polygon;
  buffer := fun g d => Some (filter nonempty (map (grow d) g));
  is_valid := fun _ => true;
  is_empty := fun g => match g with [] => true | _ :: _ => false end;
  geoms := fun g => match g with
                    | _ :: _ :: _ => Some (map (fun r => [r]) g)
                    | _ => None
                    end;
  area := fun g => fold_right add 0 (map rect_area g);
  centroid := centre;
  bounds := hull;
  contains := fun g p => existsb (fun r => rect_contains r p) g
|}.

(** Rectangular footprints: the polygon is the bounding rectangle of its
    ring. *)
Definition shapely : Shapely := shapely_of ring.

End Rectangles.

(** Straightforward stand-ins for the NumPy routines, used to run
    examples: the square by one multiplication, the norm as the root of
    the sum of squares, the mean by summing from the left, the percentile
    by linear interpolation between the two nearest ranks. *)
Module Plain.

Definition of_nat (n : nat) : float := of_uint63 (Uint63.of_Z (Z.of_nat n)).

Fixpoint insert_sorted (x : float) (l : list float) : list float :=
  match l with
  | [] => [x]
  | y :: l' => if x <=? y then x :: l else y :: insert_sorted x l'
  end.

Definition sort (l : list float) : list float := fold_right insert_sorted [] l.

Definition floor (x : float) : Z :=
  match Prim2SF x with
  | S754_finite negative m e => (- np.ceil (negb negative) m e)%Z
  | _ => 0%Z
  end.

Definition interpolate (a : list float) (q : float) : float :=
  let n := length a in
  let s := sort a in
  let virtual_index := of_nat (n - 1) * (q / 100) in
  let lo := Z.to_nat (floor virtual_index) in
  let hi := Nat.min (S lo) (n - 1) in
  let gamma := virtual_index - of_nat lo in
  let a_lo := nth lo s nan in
  let a_hi := nth hi s nan in
  a_lo + (a_hi - a_lo) * gamma.

Definition numpy : NumPy := {|
  power2 := fun x => x * x;
  linalg_norm := fun v => np.sqrt (fst v * fst v + snd v * snd v);
  mean := fun l => fold_left add l 0 / of_nat (length l);
  percentile := interpolate
|}.

End Plain.

(** The footprint of the scenarios. *)
Definition square_footprint : list point :=
  [(0, 0); (10, 0); (10, 10); (0, 10); (0, 0)].

(** The square footprint shrunk by 1. *)
Definition shrunk_square : Rectangles.rect := (1, 1, 9, 9).

(** ** Vocabulary for the properties of the sweeps *)

(** [line] is what a sweep emits on its scan line of index [i]: the fine
    samples of the line that lie in the region span from [c_start] to
    [c_end]; the stands are [np.arange(c_start, c_end + step/2, step)],
    taken in this order when [i] is even and in the reverse order when [i]
    is odd, and [line] holds exactly those of them that lie in the
    region. *)
Definition serpentine_line `{Shapely} (scan_polygon : geom) (place : float -> point)
  (lo hi step : float) (i : nat) (line : list point) : Prop :=
  exists test_points,
    np.arange python_float lo (hi + step / 20) (step / 20) = Returns test_points /\
    let span := filter (fun c => contains scan_polygon (place c)) test_points in
    (span = [] -> line = []) /\
    (span <> [] ->
     exists c_start c_end stands,
       Py.min ltb span = Returns c_start /\
       Py.max ltb span = Returns c_end /\
       In c_start span /\ In c_end span /\
       Forall (fun c => (c <? c_start) = false /\ (c_end <? c) = false) span /\
       np.arange numpy_float64 c_start (c_end + step / 2) step = Returns stands /\
       let kept := filter (fun c => contains scan_polygon (place c))
                     (if (i mod 2 =? 1)%nat then rev stands else stands) in
       line = map place kept /\
       (StronglySorted (fun a b => (a <? b) = true) stands ->
        if (i mod 2 =? 1)%nat then StronglySorted (fun a b => (b <? a) = true) kept
        else StronglySorted (fun a b => (a <? b) = true) kept)).

(** The sweep of the square scenario: step 2 on the open square
    (1,9) x (1,9). *)
Definition square_sweep : list point :=
  [(1.1, 2); (3.1, 2); (5.1, 2); (7.1, 2);
   (7.1, 4); (5.1, 4); (3.1, 4); (1.1, 4);
   (1.1, 6); (3.1, 6); (5.1, 6); (7.1, 6);
   (7.1, 8); (5.1, 8); (3.1, 8); (1.1, 8)].

(** The same region swept in columns. *)
Definition square_columns : list point :=
  [(2, 1.1); (2, 3.1); (2, 5.1); (2, 7.1);
   (4, 7.1); (4, 5.1); (4, 3.1); (4, 1.1);
   (6, 1.1); (6, 3.1); (6, 5.1); (6, 7.1);
   (8, 7.1); (8, 5.1); (8, 3.1); (8, 1.1)].

(** ** Vocabulary for the properties of the planners *)

(** What [np.arange] can raise. *)
Definition arange_error (e : exn) : Prop :=
  e = ZeroDivisionError \/ e = ValueError \/ e = OverflowError.

(** The step of attempt [i] (counted from 0): [step] multiplied [i] times
    by 1.2. *)
Fixpoint nth_step (step : float) (i : nat) : float :=
  match i with
  | O => step
  | S i' => nth_step (step * 1.2) i'
  end.

(** The sampling of attempt [i] of the traditional planner. *)
Definition attempt_points `{Shapely} (scan_polygon : geom) (step : float) (i : nat)
  : outcome (list point) :=
  let '(min_x, min_y, max_x, max_y) := bounds scan_polygon in
  sample_grid scan_polygon min_x max_x min_y max_y (nth_step step i).

Definition square_region : geom (Shapely := Rectangles.shapely) := [(0, 0, 10, 10)].

(** A room of 4 x 6. *)
Definition room_footprint : list point :=
  [(0, 0); (4, 0); (4, 6); (0, 6); (0, 0)].

Definition room_region : geom (Shapely := Rectangles.shapely) := [(0, 0, 4, 6)].

(** ** Vocabulary for the floor-plan properties *)

(** The vertices a face refers to. *)
Definition face_vertices (vertices : list vertex) (face : list Z) : list vertex :=
  flat_map (fun i => match np.getitem vertices i with
                     | Returns v => [v]
                     | _ => []
                     end) face.

(** The face's mean height lies strictly within the threshold of the ground. *)
Definition face_near_ground `{NumPy} (vertices : list vertex)
  (ground_height height_threshold : float) (face : list Z) : bool :=
  abs (mean (map vz (face_vertices vertices face)) - ground_height) <? height_threshold.

(** The projected ground vertices of a mesh (lines 1364-1377). *)
Definition ground_points `{NumPy} (vertices : list vertex) (faces : list (list Z))
  (height_threshold : float) : list point :=
  let ground_height := percentile (map vz vertices) 5 in
  ground_xy vertices
    (flat_map (face_vertices vertices)
       (filter (face_near_ground vertices ground_height height_threshold) faces)).

(** The hull branch of [extract_floor_plan] is taken and yields [corners]:
    SciPy is present, there are at least 3 points, and [ConvexHull] reports
    indices that all refer to a point, at least one of them. *)
Definition hull_corners `{SciPy} (xy_coords corners : list point) : Prop :=
  HAS_SCIPY = true /\ (3 <= length xy_coords)%nat /\ corners <> [] /\
  exists hull,
    ConvexHull_vertices xy_coords = Some hull /\
    Forall2 (fun i p => nth_error xy_coords i = Some p) hull corners.

(** [p == q] on two coordinate pairs. *)
Definition point_eqb (p q : point) : bool :=
  (fst p =? fst q) && (snd p =? snd q).

(** No two of the points compare equal. *)
Definition pairwise_distinct (l : list point) : Prop :=
  ForallOrdPairs (fun p q => point_eqb p q = false /\ point_eqb q p = false) l.

(** The number of distinct points of a polygon. *)
Fixpoint distinct_points (l : list point) : nat :=
  match l with
  | [] => 0
  | p :: l' => if existsb (point_eqb p) l' then distinct_points l'
               else S (distinct_points l')
  end.

(** [r] is the smallest axis-parallel rectangle around the points: each
    side passes through one of them and none lies beyond a side. *)
Definition tight_rectangle (xy_coords : list point) (min_x min_y max_x max_y : float)
  : Prop :=
  In min_x (map fst xy_coords) /\ In max_x (map fst xy_coords) /\
  In min_y (map snd xy_coords) /\ In max_y (map snd xy_coords) /\
  Forall (fun p => (fst p <? min_x) = false /\ (max_x <? fst p) = false /\
                   (snd p <? min_y) = false /\ (max_y <? snd p) = false) xy_coords.

(** SciPy present, with a hull routine that rejects every input. *)
Definition scipy_rejecting : SciPy :=
  {| HAS_SCIPY := true; ConvexHull_vertices := fun _ => None |}.

(** SciPy answering for the six ground points of [unit_floor_mesh]: the
    corners of the square are the points 0, 1, 2 and 5. *)
Definition scipy_unit_floor : SciPy :=
  {| HAS_SCIPY := true; ConvexHull_vertices := fun _ => Some [0; 1; 2; 5]%nat |}.

(** A mesh of one vertex and no face. *)
Definition single_vertex_mesh : list vertex * list (list Z) :=
  ([(0, 0, 0)], []).

(** A flat unit square split into two triangles. *)
Definition unit_floor_mesh : list vertex * list (list Z) :=
  ([(0, 0, 0); (1, 0, 0); (1, 1, 0); (0, 1, 0)], [[0; 1; 2]; [0; 2; 3]]%Z).

(** ** Vocabulary for the greedy order *)

(** The distance from [c] to [p] as [_generate_grid_points] computes it
    (line 1594) and as [nearest_neighbor_path] does (line 1673). *)
Definition sqrt_distance `{NumPy} (c p : point) : float :=
  np.sqrt (power2 (fst c - fst p) + power2 (snd c - snd p)).

Definition norm_distance `{NumPy} (c p : point) : float :=
  linalg_norm (fst c - fst p, snd c - snd p).

(** Every stand of [chain] is, among the stands not yet visited, one to
    which no other is strictly nearer in the computed distance [dist] from
    the stand before it; [current] is the stand before the first. *)
Fixpoint greedy_chain (dist : point -> point -> float) (current : point)
  (chain : list point) : Prop :=
  match chain with
  | [] => True
  | next :: rest =>
      Forall (fun c => (dist current c <? dist current next) = false) chain /\
      greedy_chain dist next rest
  end.

(** Three stands of which the last two lie at distances from the first
    that differ by less than binary64 resolves: 1 + 2^-52 and 1 both have
    the computed root 1. *)
Definition near_tie : list point :=
  [(0, 0); (1, 0x1p-26); (1, 0)].

End Binary64.

(** * Properties *)

(** ** Built-ins *)

Lemma Qltb_lt (a b : Q) : Qltb a b = true <-> a < b.
Proof.
  unfold Qltb. rewrite negb_true_iff, <- not_true_iff_false, Qle_bool_iff.
  split; [apply Qnot_le_lt | apply Qlt_not_le].
Qed.

Lemma Qltb_ge (a b : Q) : Qltb a b = false <-> b <= a.
Proof.
  unfold Qltb. rewrite negb_false_iff. apply Qle_bool_iff.
Qed.

Lemma pop_spec {A : Type} (l : list A) :
  forall i y r, Py.pop l i = Returns (y, r) ->
    Permutation l (y :: r) /\ length l = S (length r).
Proof.
  induction l as [|x l IH]; intros [|i] y r H; simpl in H; try discriminate.
  - injection H as <- <-. split; reflexivity.
  - destruct (Py.pop l i) as [[y' r']| |] eqn:E; simpl in H; try discriminate.
    injection H as <- <-. destruct (IH _ _ _ E) as [P L]. split.
    + rewrite P. apply perm_swap.
    + simpl. now rewrite L.
Qed.

Lemma pop_total {A : Type} (l : list A) :
  forall i, (i < length l)%nat -> exists y r, Py.pop l i = Returns (y, r).
Proof.
  induction l as [|x l IH]; intros [|i] H; simpl in *; try lia.
  - now exists x, l.
  - destruct (IH i) as (y & r & E); [lia|]. rewrite E. simpl. now exists y, (x :: r).
Qed.

Lemma min_from_in {A : Type} (ltb : A -> A -> bool) (l : list A) :
  forall cur, In (Py.min_from ltb cur l) (cur :: l).
Proof.
  induction l as [|x l IH]; intro cur; simpl.
  - now left.
  - destruct (IH (if ltb x cur then x else cur)) as [E|I].
    + destruct (ltb x cur); rewrite <- E; auto.
    + auto.
Qed.

Lemma min_in {A : Type} (ltb : A -> A -> bool) (l : list A) (m : A) :
  Py.min ltb l = Returns m -> In m l.
Proof.
  destruct l as [|x l]; simpl; [discriminate|].
  intros [= <-]. apply min_from_in.
Qed.

Lemma min_total {A : Type} (ltb : A -> A -> bool) (l : list A) :
  l <> [] -> exists m, Py.min ltb l = Returns m.
Proof.
  destruct l; [congruence|]. intros _. simpl. eauto.
Qed.

Lemma index_total {A : Type} (eqb : A -> A -> bool) (l : list A) (v : A) :
  (forall x, eqb x x = true) -> In v l ->
  exists i, Py.index eqb l v = Returns i /\ (i < length l)%nat.
Proof.
  intros Hrefl. induction l as [|x l IH]; simpl; [tauto|].
  intros [->|I].
  - rewrite Hrefl. exists 0%nat. split; [reflexivity|lia].
  - destruct (eqb x v).
    + exists 0%nat. split; [reflexivity|lia].
    + destruct (IH I) as (i & E & L). rewrite E. simpl. exists (S i). split; [reflexivity|lia].
Qed.

Lemma dist_eqb_refl (d : np.distance) : np.dist_eqb d d = true.
Proof. unfold np.dist_eqb. apply Qeq_bool_iff. reflexivity. Qed.

Lemma last_item_app {A : Type} (l : list A) (x : A) : Py.last_item (l ++ [x]) = Returns x.
Proof. unfold Py.last_item. now rewrite rev_app_distr. Qed.

(** ** Greedy nearest-neighbour ordering *)

Lemma grid_nearest_loop_perm :
  forall fuel current unvisited scan_path,
    (length unvisited <= fuel)%nat ->
    exists out, grid_nearest_loop fuel current unvisited scan_path = Returns out
                /\ Permutation (scan_path ++ unvisited) out.
Proof.
  induction fuel as [|fuel IH]; intros current unvisited scan_path Hlen.
  - destruct unvisited; simpl in Hlen; [|lia].
    exists scan_path. simpl. now rewrite app_nil_r.
  - destruct unvisited as [|u us].
    + exists scan_path. simpl. now rewrite app_nil_r.
    + cbn [grid_nearest_loop].
      match goal with |- context [Py.min _ ?d] => set (distances := d) end.
      destruct (min_total np.dist_ltb distances) as (m & Em); [discriminate|].
      rewrite Em. cbn [bind].
      destruct (index_total np.dist_eqb distances m dist_eqb_refl (min_in _ _ _ Em))
        as (i & Ei & Li).
      rewrite Ei. cbn [bind].
      unfold distances in Li. rewrite length_map in Li.
      destruct (pop_total (u :: us) i Li) as (c & rest & Ep).
      rewrite Ep. cbn [bind].
      destruct (pop_spec _ _ _ _ Ep) as [P L].
      destruct (IH c rest (scan_path ++ [c])) as (out & Eo & Po).
      { simpl in Hlen, L. lia. }
      exists out. split; [exact Eo|].
      rewrite <- Po, P, <- app_assoc. reflexivity.
Qed.

Lemma nearest_neighbor_loop_perm :
  forall fuel unvisited path,
    (length unvisited <= fuel)%nat -> path <> [] ->
    exists out, nearest_neighbor_loop fuel unvisited path = Returns out
                /\ Permutation (path ++ unvisited) out.
Proof.
  induction fuel as [|fuel IH]; intros unvisited path Hlen Hne.
  - destruct unvisited; simpl in Hlen; [|lia].
    exists path. simpl. now rewrite app_nil_r.
  - destruct unvisited as [|u us].
    + exists path. simpl. now rewrite app_nil_r.
    + cbn [nearest_neighbor_loop].
      destruct (exists_last Hne) as (path' & current & ->).
      rewrite last_item_app. cbn [bind].
      match goal with |- context [Py.min_key _ ?k _] => set (key := k) end.
      unfold Py.min_key.
      destruct (min_total (fun a b => np.dist_ltb (key a) (key b)) (seq 0 (length (u :: us))))
        as (i & Ei); [discriminate|].
      rewrite Ei. cbn [bind].
      apply min_in, in_seq in Ei.
      destruct (pop_total (u :: us) i) as (c & rest & Ep); [lia|].
      rewrite Ep. cbn [bind].
      destruct (pop_spec _ _ _ _ Ep) as [P L].
      destruct (IH rest ((path' ++ [current]) ++ [c])) as (out & Eo & Po).
      { simpl in Hlen, L. lia. }
      { intro E. apply app_eq_nil in E. destruct E; discriminate. }
      exists out. split; [exact Eo|].
      rewrite <- Po, P, <- !app_assoc. reflexivity.
Qed.

Lemma connect_grid_points_perm (grid_points : list point) :
  exists path, connect_grid_points grid_points = Returns path
               /\ Permutation grid_points path.
Proof.
  destruct grid_points as [|p ps].
  - exists []. split; reflexivity.
  - unfold connect_grid_points. cbn [Py.pop bind].
    destruct (grid_nearest_loop_perm (length ps) p ps [p]) as (out & E & P); [lia|].
    exists out. split; [exact E | exact P].
Qed.

Lemma nearest_neighbor_path_perm (points : list point) :
  exists path, nearest_neighbor_path points = Returns path
               /\ Permutation points path.
Proof.
  unfold nearest_neighbor_path.
  destruct (length points <=? 1)%nat eqn:E.
  - exists points. split; reflexivity.
  - destruct points as [|p ps]; [discriminate|]. cbn [Py.pop bind].
    destruct (nearest_neighbor_loop_perm (length ps) ps [p]) as (out & Eo & P);
      [lia|discriminate|].
    exists out. split; [exact Eo | exact P].
Qed.

(** C4. The greedy nearest-neighbour ordering, in the form nested in the
    traditional planner ([nearest_neighbor_path]) and in the form inlined in
    [_generate_grid_points], returns normally on every list of points, and
    its result is a permutation of that list. *)
Theorem nearest_neighbor_is_permutation (points : list point) :
  (exists path, nearest_neighbor_path points = Returns path
                /\ Permutation points path) /\
  (exists path, connect_grid_points points = Returns path
                /\ Permutation points path).
Proof.
  split; [apply nearest_neighbor_path_perm | apply connect_grid_points_perm].
Qed.

(** ** Path lengths *)

Lemma sqrt_Q2R_square (q r : Q) :
  0 <= r -> q == r * r -> R_sqrt.sqrt (Q2R q) = Q2R r.
Proof.
  intros Hr E. rewrite (Qeq_eqR _ _ E), Q2R_mult.
  apply sqrt_square. apply Qle_Rle in Hr. now rewrite RMicromega.Q2R_0 in Hr.
Qed.

Lemma dist_value_sym (p q : point) :
  np.dist_value (euclid p q) = np.dist_value (euclid q p).
Proof.
  unfold np.dist_value, euclid. cbn [np.radicand].
  f_equal. apply Qeq_eqR. ring.
Qed.

Lemma dist_ltb_value (d1 d2 : np.distance) :
  np.dist_ltb d1 d2 = true -> (np.dist_value d1 <= np.dist_value d2)%R.
Proof.
  unfold np.dist_ltb, np.dist_value. rewrite Qltb_lt. intro H.
  apply sqrt_le_1_alt, Qle_Rle, Qlt_le_weak, H.
Qed.

Lemma nearest_neighbor_path_two (a b : point) :
  nearest_neighbor_path [a; b] = Returns [a; b].
Proof. reflexivity. Qed.

Lemma nearest_neighbor_path_three (a b c : point) :
  nearest_neighbor_path [a; b; c] =
  Returns (if np.dist_ltb (euclid a c) (euclid a b) then [a; c; b] else [a; b; c]).
Proof.
  unfold nearest_neighbor_path. cbn [length Nat.leb Py.pop bind].
  cbn [nearest_neighbor_loop]. cbn [app Py.last_item rev bind length seq].
  unfold Py.min_key. cbn [Py.min Py.min_from bind nth].
  change (np.linalg_norm (np.sub a c)) with (euclid a c).
  change (np.linalg_norm (np.sub a b)) with (euclid a b).
  destruct (np.dist_ltb (euclid a c) (euclid a b)); reflexivity.
Qed.




(** ** The sweeps never raise and emit only contained points *)

Lemma max_total {A : Type} (ltb : A -> A -> bool) (l : list A) :
  l <> [] -> exists m, Py.max ltb l = Returns m.
Proof. apply min_total. Qed.

Lemma scan_lines_concat (line : nat -> Q -> outcome (list point)) :
  (forall i c, exists pts, line i c = Returns pts) ->
  forall positions scan_path,
  exists lines,
    Forall2 (fun ic pts => line (fst ic) (snd ic) = Returns pts) positions lines /\
    scan_lines line positions scan_path = Returns (scan_path ++ concat lines).
Proof.
  intros Hline. induction positions as [|[i c] positions IH]; intro scan_path.
  - exists []. split; [constructor|]. simpl. now rewrite app_nil_r.
  - destruct (Hline i c) as (pts & Ep).
    destruct (IH (scan_path ++ pts)) as (lines & F & E).
    exists (pts :: lines). split; [now constructor|].
    simpl. rewrite Ep. cbn [bind]. rewrite E. now rewrite <- app_assoc.
Qed.

Section Sweeps.

Context `{G : Shapely}.
Variable scan_polygon : geom.

Lemma horizontal_line_returns (min_x max_x step : Q) (i : nat) (y : Q) :
  exists pts, horizontal_line scan_polygon min_x max_x step i y = Returns pts /\
              Forall (fun p => contains scan_polygon p = true) pts.
Proof.
  unfold horizontal_line.
  destruct (x_span scan_polygon min_x max_x step y) as [|x xs] eqn:E.
  - exists []. split; [reflexivity | constructor].
  - destruct (min_total Qltb (x :: xs)) as (a & Ea); [discriminate|].
    destruct (max_total Qltb (x :: xs)) as (b & Eb); [discriminate|].
    rewrite Ea, Eb. cbn [bind]. eexists. split; [reflexivity|].
    unfold inside. apply Forall_forall. intros p Hp. now apply filter_In in Hp.
Qed.

Lemma vertical_line_returns (min_y max_y step : Q) (i : nat) (x : Q) :
  exists pts, vertical_line scan_polygon min_y max_y step i x = Returns pts /\
              Forall (fun p => contains scan_polygon p = true) pts.
Proof.
  unfold vertical_line.
  destruct (y_span scan_polygon min_y max_y step x) as [|y ys] eqn:E.
  - exists []. split; [reflexivity | constructor].
  - destruct (min_total Qltb (y :: ys)) as (a & Ea); [discriminate|].
    destruct (max_total Qltb (y :: ys)) as (b & Eb); [discriminate|].
    rewrite Ea, Eb. cbn [bind]. eexists. split; [reflexivity|].
    unfold inside. apply Forall_forall. intros p Hp. now apply filter_In in Hp.
Qed.

Lemma scan_lines_contained (line : nat -> Q -> outcome (list point)) :
  (forall i c, exists pts, line i c = Returns pts /\
                           Forall (fun p => contains scan_polygon p = true) pts) ->
  forall positions,
  exists path, scan_lines line positions [] = Returns path /\
               Forall (fun p => contains scan_polygon p = true) path.
Proof.
  intros Hline positions.
  destruct (scan_lines_concat line) with (positions := positions) (scan_path := @nil point)
    as (lines & F & E).
  { intros i c. destruct (Hline i c) as (pts & Ep & _). eauto. }
  exists (concat lines). split; [exact E|].
  apply Forall_concat. clear E.
  induction F as [|[i c] pts positions lines Hpts F IH]; constructor; [|exact IH].
  destruct (Hline i c) as (pts' & Ep & Hc). simpl in Hpts. congruence.
Qed.

Lemma grid_candidates_contained (xs ys : list Q) :
  Forall (fun p => contains scan_polygon p = true) (grid_candidates scan_polygon xs ys).
Proof.
  apply Forall_forall. intros p Hp. unfold grid_candidates in Hp.
  apply in_flat_map in Hp. destruct Hp as (x & _ & Hp).
  apply in_flat_map in Hp. destruct Hp as (y & _ & Hp).
  destruct (contains scan_polygon (x, y)) eqn:E; simpl in Hp; [|tauto].
  destruct Hp as [<-|[]]. exact E.
Qed.

Lemma horizontal_scan_contained (min_x max_x min_y max_y step : Q) :
  exists path,
    _generate_horizontal_scan scan_polygon min_x max_x min_y max_y step = Returns path /\
    Forall (fun p => contains scan_polygon p = true) path.
Proof. apply scan_lines_contained. intros i c. apply horizontal_line_returns. Qed.

Lemma vertical_scan_contained (min_x max_x min_y max_y step : Q) :
  exists path,
    _generate_vertical_scan scan_polygon min_x max_x min_y max_y step = Returns path /\
    Forall (fun p => contains scan_polygon p = true) path.
Proof. apply scan_lines_contained. intros i c. apply vertical_line_returns. Qed.

Lemma grid_points_contained (min_x max_x min_y max_y step : Q) :
  exists path,
    _generate_grid_points scan_polygon min_x max_x min_y max_y step = Returns path /\
    Forall (fun p => contains scan_polygon p = true) path.
Proof.
  unfold _generate_grid_points.
  destruct (connect_grid_points_perm
              (grid_candidates scan_polygon (np.arange (min_x + step / 2) max_x step)
                 (np.arange (min_y + step / 2) max_y step))) as (path & E & P).
  exists path. split; [exact E|].
  eapply Permutation_Forall; [exact P | apply grid_candidates_contained].
Qed.


(** The grid planner over a fixed region always returns at least one point. *)
Lemma grid_scan_over_nonempty (self : HeliosSceneGenerator) (step : Q) :
  exists path, grid_scan_over self scan_polygon step = Returns path /\ path <> [].
Proof.
  unfold grid_scan_over.
  destruct (bounds scan_polygon) as [[[min_x min_y] max_x] max_y].
  destruct (horizontal_scan_contained min_x max_x min_y max_y step) as (hp & Eh & _).
  destruct (vertical_scan_contained min_x max_x min_y max_y step) as (vp & Ev & _).
  destruct (grid_points_contained min_x max_x min_y max_y step) as (gp & Eg & _).
  destruct (scan_direction self); rewrite ?Eh, ?Ev, ?Eg; cbn [bind];
    match goal with
    | |- context [match ?l with [] => _ | _ :: _ => _ end] =>
        destruct l; eexists; (split; [reflexivity | discriminate])
    end.
Qed.

End Sweeps.

(** ** The boundary offset *)

Lemma max_from_spec (l : list Q) :
  forall cur,
    let m := Py.min_from (fun a b => Qltb b a) cur l in
    cur <= m /\ Forall (fun x => x <= m) l.
Proof.
  induction l as [|x l IH]; intro cur; simpl.
  - split; [apply Qle_refl | constructor].
  - destruct (IH (if Qltb cur x then x else cur)) as [Hc Hl].
    destruct (Qltb cur x) eqn:E.
    + apply Qltb_lt in E. split.
      * eapply Qle_trans; [apply Qlt_le_weak, E | exact Hc].
      * constructor; assumption.
    + apply Qltb_ge in E. split; [exact Hc|].
      constructor; [eapply Qle_trans; eassumption | exact Hl].
Qed.

Lemma max_spec (l : list Q) (m : Q) :
  Py.max Qltb l = Returns m -> In m l /\ Forall (fun x => x <= m) l.
Proof.
  intro E. split; [exact (min_in _ _ _ E)|].
  destruct l as [|x l]; [discriminate|].
  unfold Py.max, Py.min in E. injection E as <-.
  destruct (max_from_spec l x) as [Hc Hl]. constructor; assumption.
Qed.

Lemma index_spec {A : Type} (eqb : A -> A -> bool) (v : A) (l : list A) :
  forall i, Py.index eqb l v = Returns i ->
    (exists x, nth_error l i = Some x /\ eqb x v = true) /\
    (forall j y, (j < i)%nat -> nth_error l j = Some y -> eqb y v = false).
Proof.
  induction l as [|x l IH]; intros i H; simpl in H; [discriminate|].
  destruct (eqb x v) eqn:E.
  - injection H as <-. split; [exists x; now split|]. intros j y Hj. lia.
  - destruct (Py.index eqb l v) as [k| |] eqn:Ek; simpl in H; try discriminate.
    injection H as <-. destruct (IH k eq_refl) as [(x' & Hn & Hx) Hfirst]. split.
    + exists x'. now split.
    + intros [|j] y Hj Hy; simpl in Hy.
      * now injection Hy as <-.
      * apply (Hfirst j); [lia | exact Hy].
Qed.

Section Offset.

Context `{G : Shapely}.

Lemma scan_region_no_clearance (house_polygon : geom) (boundary_distance : Q) :
  boundary_distance <= 0 ->
  scan_region house_polygon boundary_distance = Returns (ScanPolygon house_polygon).
Proof.
  intro H. unfold scan_region. apply Qltb_ge in H. now rewrite H.
Qed.

(** C5. With a boundary clearance of 0 no offset is computed: the active
    region is the polygon built from the input boundary (its closing point
    dropped, as in [Polygon(boundary_points[:-1])]), and both planners sweep
    exactly that polygon. *)
Theorem zero_clearance_region_is_floor_polygon (self : HeliosSceneGenerator)
  (rng : random.source) (boundary_points : list point) (step z_height : Q)
  (max_points : Z) :
  let house_polygon := Polygon (Py.but_last boundary_points) in
  scan_region house_polygon 0 = Returns (ScanPolygon house_polygon) /\
  _generate_grid_scan_path self boundary_points step z_height 0
    = grid_scan_over self house_polygon step /\
  _generate_traditional_scan_path rng boundary_points step z_height max_points 0
    = traditional_scan_over rng house_polygon step max_points.
Proof.
  intro house_polygon.
  assert (E : scan_region house_polygon 0 = Returns (ScanPolygon house_polygon))
    by (apply scan_region_no_clearance, Qle_refl).
  split; [exact E|].
  unfold _generate_grid_scan_path, _generate_traditional_scan_path.
  fold house_polygon. rewrite E. split; reflexivity.
Qed.

Lemma scan_region_degenerate (house_polygon inner_polygon : geom) (boundary_distance : Q) :
  0 < boundary_distance ->
  buffer house_polygon (- boundary_distance) = Some inner_polygon ->
  is_valid inner_polygon = false \/ is_empty inner_polygon = true ->
  scan_region house_polygon boundary_distance
    = Returns (CentroidOnly (centroid house_polygon)).
Proof.
  intros Hd Hb Hdeg. unfold scan_region.
  apply Qltb_lt in Hd. rewrite Hd, Hb. cbn [library_call bind].
  replace (negb (is_valid inner_polygon) || is_empty inner_polygon) with true.
  - reflexivity.
  - symmetry. apply orb_true_iff. rewrite negb_true_iff. exact Hdeg.
Qed.

(** C6. When the inward offset by a positive clearance is empty or invalid,
    both planners (and so [optimize_scan_path] in either mode) return the
    single point at the centroid of the original polygon; where the
    centroid of the square footprint is (5,5), as for the 10 x 10 square
    with clearance 6, the result is the one-element sequence [(5,5)]. *)
Theorem degenerate_offset_returns_centroid (self : HeliosSceneGenerator)
  (rng : random.source) (boundary_points : list point) (step z_height : Q)
  (max_points : Z) (boundary_distance : Q) (inner_polygon : geom) :
  let house_polygon := Polygon (Py.but_last boundary_points) in
  0 < boundary_distance ->
  buffer house_polygon (- boundary_distance) = Some inner_polygon ->
  is_valid inner_polygon = false \/ is_empty inner_polygon = true ->
  _generate_grid_scan_path self boundary_points step z_height boundary_distance
    = Returns [centroid house_polygon] /\
  _generate_traditional_scan_path rng boundary_points step z_height max_points
      boundary_distance
    = Returns [centroid house_polygon] /\
  optimize_scan_path self rng boundary_points step z_height max_points boundary_distance
    = Returns [centroid house_polygon] /\
  (boundary_points = square_footprint -> boundary_distance == 6 ->
   same_point (centroid house_polygon) (5, 5) ->
   exists c, optimize_scan_path self rng boundary_points step z_height max_points
               boundary_distance = Returns [c] /\ same_point c (5, 5)).
Proof.
  intros house_polygon Hd Hb Hdeg.
  pose proof (scan_region_degenerate _ _ _ Hd Hb Hdeg) as E.
  assert (Eg : _generate_grid_scan_path self boundary_points step z_height boundary_distance
               = Returns [centroid house_polygon]).
  { unfold _generate_grid_scan_path. fold house_polygon. now rewrite E. }
  assert (Et : _generate_traditional_scan_path rng boundary_points step z_height max_points
                 boundary_distance = Returns [centroid house_polygon]).
  { unfold _generate_traditional_scan_path. fold house_polygon. now rewrite E. }
  assert (Eo : optimize_scan_path self rng boundary_points step z_height max_points
                 boundary_distance = Returns [centroid house_polygon]).
  { unfold optimize_scan_path. now destruct (grid_scan_mode self). }
  repeat split; try assumption.
  intros _ _ Hc. exists (centroid house_polygon). split; assumption.
Qed.

Lemma largest_piece_spec (inner_polygon : geom) (pieces : list geom) :
  geoms inner_polygon = Some pieces -> pieces <> [] ->
  exists k piece,
    largest_piece inner_polygon = Returns piece /\
    nth_error pieces k = Some piece /\
    Forall (fun g => area g <= area piece) pieces /\
    (forall j g, (j < k)%nat -> nth_error pieces j = Some g -> area g < area piece).
Proof.
  intros Hg Hne. unfold largest_piece. rewrite Hg.
  destruct (max_total Qltb (map area pieces)) as (m & Em).
  { destruct pieces; [congruence | discriminate]. }
  rewrite Em. cbn [bind].
  destruct (max_spec _ _ Em) as [Hin Hmax].
  destruct (index_total Qeq_bool (map area pieces) m) as (k & Ek & Lk).
  { intro x. apply Qeq_bool_iff. reflexivity. }
  { exact Hin. }
  rewrite Ek. cbn [bind].
  destruct (index_spec _ _ _ _ Ek) as [(a & Ha & Hea) Hfirst].
  rewrite nth_error_map in Ha.
  destruct (nth_error pieces k) as [piece|] eqn:Hk; [|discriminate].
  simpl in Ha. injection Ha as <-. apply Qeq_bool_iff in Hea.
  exists k, piece. unfold Py.getitem. rewrite Hk.
  split; [reflexivity|]. split; [reflexivity|]. split.
  - rewrite Forall_map in Hmax. eapply Forall_impl; [|exact Hmax].
    intros g Hle. simpl in Hle. now rewrite Hea.
  - intros j g Hj Hjg.
    assert (Hne' : Qeq_bool (area g) m = false).
    { apply (Hfirst j); [exact Hj|]. rewrite nth_error_map, Hjg. reflexivity. }
    assert (Hle : area g <= m).
    { rewrite Forall_forall in Hmax. apply Hmax. apply in_map.
      eapply nth_error_In. exact Hjg. }
    rewrite Hea. apply Qle_lteq in Hle. destruct Hle as [Hlt|Heq]; [exact Hlt|].
    apply Qeq_bool_iff in Heq. congruence.
Qed.

(** C7. When the inward offset by a positive clearance is valid and not
    empty and comes in several pieces, the active region is one of the
    pieces, its area is at least that of every piece (it is the first piece
    of maximal area), and both planners sweep that piece alone. *)
Theorem offset_keeps_largest_piece (self : HeliosSceneGenerator)
  (rng : random.source) (boundary_points : list point) (step z_height : Q)
  (max_points : Z) (boundary_distance : Q) (inner_polygon : geom)
  (pieces : list geom) :
  let house_polygon := Polygon (Py.but_last boundary_points) in
  0 < boundary_distance ->
  buffer house_polygon (- boundary_distance) = Some inner_polygon ->
  is_valid inner_polygon = true ->
  is_empty inner_polygon = false ->
  geoms inner_polygon = Some pieces ->
  pieces <> [] ->
  exists k piece,
    nth_error pieces k = Some piece /\
    Forall (fun g => area g <= area piece) pieces /\
    (forall j g, (j < k)%nat -> nth_error pieces j = Some g -> area g < area piece) /\
    scan_region house_polygon boundary_distance = Returns (ScanPolygon piece) /\
    _generate_grid_scan_path self boundary_points step z_height boundary_distance
      = grid_scan_over self piece step /\
    _generate_traditional_scan_path rng boundary_points step z_height max_points
        boundary_distance
      = traditional_scan_over rng piece step max_points.
Proof.
  intros house_polygon Hd Hb Hv He Hg Hne.
  destruct (largest_piece_spec _ _ Hg Hne) as (k & piece & El & Hk & Hmax & Hfirst).
  exists k, piece.
  assert (E : scan_region house_polygon boundary_distance = Returns (ScanPolygon piece)).
  { unfold scan_region. apply Qltb_lt in Hd. rewrite Hd, Hb. cbn [library_call bind].
    rewrite Hv, He. cbn [negb orb]. rewrite El. reflexivity. }
  repeat split; try assumption.
  - unfold _generate_grid_scan_path. fold house_polygon. now rewrite E.
  - unfold _generate_traditional_scan_path. fold house_polygon. now rewrite E.
Qed.

End Offset.

Lemma degenerate_offset_returns_centroid_witness :
  exists c,
    optimize_scan_path (H := Rectangles.shapely) horizontal_grid no_choice
      square_footprint 2 (3 # 2) 5 6 = Returns [c] /\ same_point c (5, 5).
Proof.
  apply (degenerate_offset_returns_centroid (G := Rectangles.shapely) horizontal_grid
           no_choice square_footprint 2 (3 # 2) 5 6 []).
  - reflexivity.
  - reflexivity.
  - right. reflexivity.
  - reflexivity.
  - reflexivity.
  - split; reflexivity.
Defined.

Lemma offset_keeps_largest_piece_witness :
  exists (k : nat) (piece : geom (Shapely := two_rooms)),
    nth_error two_rooms_pieces k = Some piece /\
    Forall (fun g => area (Shapely := two_rooms) g <= area piece) two_rooms_pieces /\
    (forall j g, (j < k)%nat ->
       nth_error two_rooms_pieces j = Some g -> area (Shapely := two_rooms) g < area piece) /\
    scan_region (H := two_rooms) (Polygon (Py.but_last two_rooms_footprint)) 1
      = Returns (ScanPolygon piece) /\
    _generate_grid_scan_path (H := two_rooms) horizontal_grid two_rooms_footprint 1 (3 # 2) 1
      = grid_scan_over horizontal_grid piece 1 /\
    _generate_traditional_scan_path (H := two_rooms) no_choice two_rooms_footprint 1 (3 # 2) 5 1
      = traditional_scan_over no_choice piece 1 5.
Proof.
  apply (offset_keeps_largest_piece (G := two_rooms) horizontal_grid no_choice
           two_rooms_footprint 1 (3 # 2) 5 1 two_rooms_offset two_rooms_pieces).
  - reflexivity.
  - reflexivity.
  - reflexivity.
  - reflexivity.
  - reflexivity.
  - discriminate.
Defined.

(** ** Random subsampling *)

Lemma draw_spec {A : Type} (rng : random.source) :
  forall k (pool : list A) call,
    (k <= length pool)%nat ->
    length (random.draw rng call pool k) = k /\
    exists rest, Permutation pool (random.draw rng call pool k ++ rest).
Proof.
  induction k as [|k IH]; intros pool call Hk.
  - split; [reflexivity|]. exists pool. reflexivity.
  - cbn [random.draw].
    destruct (pop_total pool (rng call (length pool) mod length pool)) as (x & rest & E).
    { apply Nat.mod_upper_bound. destruct pool; simpl in *; lia. }
    rewrite E. destruct (pop_spec _ _ _ _ E) as [P L].
    destruct (IH rest (S call)) as [Hlen (rest' & P')]; [lia|].
    split; [simpl; now rewrite Hlen|].
    exists rest'. rewrite P. simpl. now apply perm_skip.
Qed.

Lemma sample_spec {A : Type} (rng : random.source) (population : list A) (k : Z) :
  (0 <= k <= Z.of_nat (length population))%Z ->
  exists l, random.sample rng population k = Returns l /\
            length l = Z.to_nat k /\
            exists rest, Permutation population (l ++ rest).
Proof.
  intros [H0 Hk]. unfold random.sample.
  replace (k <? 0)%Z with false by (symmetry; apply Z.ltb_ge; lia).
  replace (Z.of_nat (length population) <? k)%Z with false
    by (symmetry; apply Z.ltb_ge; lia).
  cbn [orb]. eexists. split; [reflexivity|].
  apply draw_spec. lia.
Qed.

(** ** The traditional planner *)

Section Traditional.

Context `{G : Shapely}.
Variable rng : random.source.
Variable scan_polygon : geom.

Lemma adapt_step_spec (min_x max_x min_y max_y : Q) (target_points : Z) :
  forall attempts step valid_points,
  exists n,
    (n <= attempts)%nat /\
    fst (adapt_step scan_polygon min_x max_x min_y max_y target_points (S attempts)
           step valid_points)
      = sample_grid scan_polygon min_x max_x min_y max_y (nth_step step n) /\
    (forall i, (i < n)%nat ->
       (target_points < Z.of_nat (length
          (sample_grid scan_polygon min_x max_x min_y max_y (nth_step step i))))%Z) /\
    ((Z.of_nat (length (sample_grid scan_polygon min_x max_x min_y max_y
                          (nth_step step n))) <= target_points)%Z \/ n = attempts).
Proof.
  induction attempts as [|attempts IH]; intros step valid_points.
  - exists 0%nat. cbn [adapt_step].
    destruct (Z.of_nat _ <=? target_points)%Z eqn:E.
    + split; [lia|]. split; [reflexivity|]. split; [intros; lia|].
      left. apply Z.leb_le in E. exact E.
    + split; [lia|]. split; [reflexivity|]. split; [intros; lia|]. now right.
  - remember (S attempts) as a eqn:Ha. cbn [adapt_step].
    destruct (Z.of_nat _ <=? target_points)%Z eqn:E.
    + exists 0%nat. split; [lia|]. split; [reflexivity|]. split; [intros; lia|].
      left. apply Z.leb_le in E. exact E.
    + subst a.
      destruct (IH (step * (12 # 10))
                  (sample_grid scan_polygon min_x max_x min_y max_y step))
        as (n & Hn & Ef & Hbefore & Hlast).
      exists (S n). split; [lia|]. split; [exact Ef|]. split.
      * intros [|i] Hi.
        -- apply Z.leb_gt in E. exact E.
        -- apply (Hbefore i). lia.
      * destruct Hlast as [Hl|Hl]; [left; exact Hl | right; lia].
Qed.

(** The behaviour of the traditional planner over a fixed region when at
    least one point is allowed. *)
Lemma traditional_scan_over_spec (step : Q) (max_points : Z) :
  (1 <= max_points)%Z ->
  exists n path,
    (n < 10)%nat /\
    (forall i, (i < n)%nat ->
       (max_points < Z.of_nat (length (attempt_points scan_polygon step i)))%Z) /\
    ((Z.of_nat (length (attempt_points scan_polygon step n)) <= max_points)%Z \/ n = 9%nat) /\
    traditional_scan_over rng scan_polygon step max_points = Returns path /\
    (attempt_points scan_polygon step n = [] -> path = [centroid scan_polygon]) /\
    (attempt_points scan_polygon step n <> [] ->
     (Z.of_nat (length (attempt_points scan_polygon step n)) <= max_points)%Z ->
     Permutation (attempt_points scan_polygon step n) path) /\
    ((max_points < Z.of_nat (length (attempt_points scan_polygon step n)))%Z ->
     length path = Z.to_nat max_points /\
     exists rest, Permutation (attempt_points scan_polygon step n) (path ++ rest)).
Proof.
  intro Hmax. unfold traditional_scan_over, attempt_points.
  destruct (bounds scan_polygon) as [[[min_x min_y] max_x] max_y].
  destruct (adapt_step_spec min_x max_x min_y max_y max_points 9 step [])
    as (n & Hn & Ef & Hbefore & Hlast).
  destruct (adapt_step _ _ _ _ _ _ 10 step []) as [valid_points current_step].
  cbn [fst] in Ef. subst valid_points.
  destruct (sample_grid scan_polygon min_x max_x min_y max_y (nth_step step n))
    as [|p ps] eqn:Epts.
  - (* nothing found: the centroid *)
    cbn [length]. replace (max_points <? Z.of_nat 1)%Z with false
      by (symmetry; apply Z.ltb_ge; lia).
    cbn [bind]. exists n, [centroid scan_polygon]. rewrite Epts.
    split; [lia|]. split; [exact Hbefore|]. split; [exact Hlast|].
    split; [reflexivity|]. split; [reflexivity|].
    split; [congruence|]. cbn [length]. lia.
  - destruct (max_points <? Z.of_nat (length (p :: ps)))%Z eqn:E.
    + (* still too many: subsample *)
      apply Z.ltb_lt in E.
      destruct (sample_spec rng (p :: ps) max_points) as (l & El & Ll & rest & Pl); [lia|].
      rewrite El. cbn [bind].
      destruct (nearest_neighbor_path_perm l) as (path & Ep & Pp).
      exists n, path. rewrite Epts.
      split; [lia|]. split; [exact Hbefore|]. split; [exact Hlast|].
      split; [exact Ep|].
      split; [discriminate|]. split; [intros _ Hle; lia|].
      intros _. split.
      * rewrite <- (Permutation_length Pp). exact Ll.
      * exists rest. now rewrite <- Pp.
    + apply Z.ltb_ge in E. cbn [bind].
      destruct (nearest_neighbor_path_perm (p :: ps)) as (path & Ep & Pp).
      exists n, path. rewrite Epts.
      split; [lia|]. split; [exact Hbefore|]. split; [exact Hlast|].
      split; [exact Ep|].
      split; [discriminate|]. split; [intros _ _; exact Pp|].
      intro Hlt. lia.
Qed.

Lemma traditional_scan_over_nonempty (step : Q) (max_points : Z) :
  (1 <= max_points)%Z ->
  exists path, traditional_scan_over rng scan_polygon step max_points = Returns path /\
               path <> [].
Proof.
  intro Hmax.
  destruct (traditional_scan_over_spec step max_points Hmax)
    as (n & path & _ & _ & _ & E & Hnil & Hfit & Hmany).
  exists path. split; [exact E|]. intros ->.
  destruct (attempt_points scan_polygon step n) as [|p ps] eqn:Ea.
  - specialize (Hnil eq_refl). discriminate.
  - destruct (Z_lt_le_dec max_points (Z.of_nat (length (p :: ps)))) as [Hlt|Hle].
    + destruct (Hmany Hlt) as [Hlen _]. simpl in Hlen. lia.
    + assert (P : Permutation (p :: ps) []) by (apply Hfit; [discriminate | exact Hle]).
      apply Permutation_sym, Permutation_nil in P. discriminate.
Qed.

(** With no point allowed the result is empty, whatever was found. *)
Lemma traditional_scan_over_zero (step : Q) :
  traditional_scan_over rng scan_polygon step 0 = Returns [].
Proof.
  unfold traditional_scan_over.
  destruct (bounds scan_polygon) as [[[min_x min_y] max_x] max_y].
  destruct (adapt_step _ _ _ _ _ _ 10 step []) as [[|p ps] current_step];
    reflexivity.
Qed.

(** With a negative budget the subsampling raises. *)
Lemma traditional_scan_over_negative (step : Q) (max_points : Z) :
  (max_points < 0)%Z ->
  traditional_scan_over rng scan_polygon step max_points = Raises ValueError.
Proof.
  intro Hneg. unfold traditional_scan_over.
  destruct (bounds scan_polygon) as [[[min_x min_y] max_x] max_y].
  destruct (adapt_step _ _ _ _ _ _ 10 step []) as [valid_points current_step].
  set (pts := match valid_points with [] => [centroid scan_polygon] | _ :: _ => valid_points end).
  replace (max_points <? Z.of_nat (length pts))%Z with true
    by (symmetry; apply Z.ltb_lt; lia).
  unfold random.sample.
  replace (max_points <? 0)%Z with true by (symmetry; apply Z.ltb_lt; lia).
  reflexivity.
Qed.

End Traditional.

(** ** The planner as a whole *)

Lemma index_never_out_of_fuel {A : Type} (eqb : A -> A -> bool) (v : A) (l : list A) :
  Py.index eqb l v <> OutOfFuel.
Proof.
  induction l as [|x l IH]; simpl; [discriminate|].
  destruct (eqb x v); [discriminate|].
  destruct (Py.index eqb l v); simpl; congruence.
Qed.

Section Planner.

Context `{G : Shapely}.

Lemma largest_piece_never_out_of_fuel (inner_polygon : geom) :
  largest_piece inner_polygon <> OutOfFuel.
Proof.
  unfold largest_piece. destruct (geoms inner_polygon) as [pieces|]; [|discriminate].
  destruct (Py.max Qltb (map area pieces)) as [m| |] eqn:Em; cbn [bind]; try discriminate.
  - destruct (Py.index Qeq_bool (map area pieces) m) as [i| |] eqn:Ei; cbn [bind];
      try discriminate.
    + unfold Py.getitem. destruct (nth_error pieces i); discriminate.
    + now apply index_never_out_of_fuel in Ei.
  - destruct pieces; discriminate.
Qed.

Lemma scan_region_returns (house_polygon : geom) (boundary_distance : Q) :
  exists r, scan_region house_polygon boundary_distance = Returns r.
Proof.
  unfold scan_region. destruct (Qltb 0 boundary_distance); [|eauto].
  destruct (buffer house_polygon (- boundary_distance)) as [inner|];
    cbn [library_call bind try_except]; [|eauto].
  destruct (negb (is_valid inner) || is_empty inner); cbn [try_except]; [eauto|].
  destruct (largest_piece inner) as [piece| |] eqn:E; cbn [bind try_except]; eauto.
  now apply largest_piece_never_out_of_fuel in E.
Qed.

(** In grid mode, and in traditional mode when at least one point is
    allowed, the planner returns a non-empty sequence. *)
Lemma optimize_scan_path_nonempty (self : HeliosSceneGenerator) (rng : random.source)
  (boundary_points : list point) (step z_height : Q) (max_points : Z)
  (boundary_distance : Q) :
  grid_scan_mode self = true \/ (1 <= max_points)%Z ->
  exists path,
    optimize_scan_path self rng boundary_points step z_height max_points boundary_distance
      = Returns path /\ path <> [].
Proof.
  intro Hmode. unfold optimize_scan_path.
  destruct (scan_region_returns (Polygon (Py.but_last boundary_points)) boundary_distance)
    as (r & Er).
  destruct (grid_scan_mode self) eqn:Em.
  - unfold _generate_grid_scan_path. rewrite Er. cbn [bind].
    destruct r as [c|scan_polygon].
    + exists [c]. split; [reflexivity | discriminate].
    + apply grid_scan_over_nonempty.
  - destruct Hmode as [Hmode|Hmax]; [discriminate|].
    unfold _generate_traditional_scan_path. rewrite Er. cbn [bind].
    destruct r as [c|scan_polygon].
    + exists [c]. split; [reflexivity | discriminate].
    + now apply traditional_scan_over_nonempty.
Qed.

(** C1 fails in traditional mode when no point is allowed: with no
    clearance, for every boundary polygon and every step, the planner
    returns the empty sequence when [max_points = 0] and raises
    [ValueError] when [max_points = -1]. *)
Theorem traditional_zero_max_points_returns_nothing (d : direction)
  (rng : random.source) (boundary_points : list point) (step z_height : Q) :
  optimize_scan_path {| grid_scan_mode := false; scan_direction := d |} rng
    boundary_points step z_height 0 0 = Returns [] /\
  optimize_scan_path {| grid_scan_mode := false; scan_direction := d |} rng
    boundary_points step z_height (-1) 0 = Raises ValueError.
Proof.
  unfold optimize_scan_path, _generate_traditional_scan_path. cbn [grid_scan_mode].
  rewrite scan_region_no_clearance by apply Qle_refl. cbn [bind]. split.
  - apply traditional_scan_over_zero.
  - apply traditional_scan_over_negative. lia.
Qed.

End Planner.

(** C3 fails on its last clause when no point is allowed.  On the 10 x 10
    square with step 20 no attempt finds an in-region point; with
    [max_points = 0] the traditional planner then returns the empty
    sequence instead of the centroid, and with [max_points = -1] the
    subsampling raises [ValueError]. *)
Theorem traditional_centroid_dropped_without_budget (rng : random.source) :
  (forall i, (i < 10)%nat ->
     attempt_points (H := Rectangles.shapely)
       (Polygon (Py.but_last square_footprint)) 20 i = []) /\
  _generate_traditional_scan_path (H := Rectangles.shapely) rng square_footprint
    20 (3 # 2) 0 0 = Returns [] /\
  _generate_traditional_scan_path (H := Rectangles.shapely) rng square_footprint
    20 (3 # 2) (-1) 0 = Raises ValueError.
Proof.
  split; [|split].
  - intros i Hi.
    do 10 (destruct i as [|i]; [vm_compute; reflexivity|]). lia.
  - vm_compute. reflexivity.
  - vm_compute. reflexivity.
Qed.

(** ** Floor-plan extraction *)

Lemma insert_sorted_length (x : Q) (l : list Q) :
  length (np.insert_sorted x l) = S (length l).
Proof.
  induction l as [|y l IH]; simpl; [reflexivity|].
  destruct (Qle_bool x y); simpl; [reflexivity | now rewrite IH].
Qed.

Lemma sort_length (l : list Q) : length (np.sort l) = length l.
Proof.
  induction l as [|x l IH]; simpl; [reflexivity|].
  now rewrite insert_sorted_length, IH.
Qed.

Lemma getitem_in_range {A : Type} (l : list A) (i : nat) :
  (i < length l)%nat -> exists x, Py.getitem l i = Returns x.
Proof.
  intro H. unfold Py.getitem.
  destruct (nth_error l i) eqn:E; [eauto|].
  apply nth_error_None in E. lia.
Qed.

Lemma five_percent_le (m : Q) : 0 <= m -> m * (5 / 100) <= m.
Proof.
  intro H. setoid_replace (5 / 100) with (1 # 20) by reflexivity. Lqa.lra.
Qed.

Lemma percentile_returns (a : list Q) :
  a <> [] -> exists v, np.percentile a 5 = Returns v.
Proof.
  intro Hne. unfold np.percentile.
  assert (Hn : (1 <= length a)%nat) by (destruct a; [congruence | simpl; lia]).
  set (n := length a) in *.
  set (virtual_index := inject_Z (Z.of_nat (n - 1)) * (5 / 100)).
  assert (Hlo : (Z.to_nat (Qfloor virtual_index) <= n - 1)%nat).
  { assert (Hv : virtual_index <= inject_Z (Z.of_nat (n - 1))).
    { unfold virtual_index.
      assert (H0 : 0 <= inject_Z (Z.of_nat (n - 1))).
      { change 0 with (inject_Z 0). rewrite <- Zle_Qle. lia. }
      apply five_percent_le, H0. }
    assert (Hf : (Qfloor virtual_index <= Z.of_nat (n - 1))%Z).
    { rewrite Zle_Qle. eapply Qle_trans; [apply Qfloor_le | exact Hv]. }
    lia. }
  destruct (getitem_in_range (np.sort a) (Z.to_nat (Qfloor virtual_index))) as (lo & Elo).
  { rewrite sort_length. fold n. lia. }
  destruct (getitem_in_range (np.sort a)
              (Nat.min (S (Z.to_nat (Qfloor virtual_index))) (n - 1))) as (hi & Ehi).
  { rewrite sort_length. fold n. lia. }
  rewrite Elo. cbn [bind]. rewrite Ehi. cbn [bind]. eauto.
Qed.

Lemma np_getitem_valid {A : Type} (a : list A) (i : Z) :
  valid_index (length a) i -> exists v, np.getitem a i = Returns v.
Proof.
  unfold valid_index, np.getitem. intros [Hlo Hhi].
  destruct (Z.leb_spec 0 i) as [H0|H0].
  - replace (i <? Z.of_nat (length a))%Z with true by (symmetry; apply Z.ltb_lt; lia).
    cbn [andb]. apply getitem_in_range. lia.
  - cbn [andb].
    replace (- Z.of_nat (length a) <=? i)%Z with true by (symmetry; apply Z.leb_le; lia).
    replace (i <? 0)%Z with true by (symmetry; apply Z.ltb_lt; lia).
    cbn [andb]. apply getitem_in_range. lia.
Qed.

Lemma comprehension_face_vertices (vertices : list vertex) (face : list Z) :
  Forall (valid_index (length vertices)) face ->
  Py.comprehension (np.getitem vertices) face = Returns (face_vertices vertices face).
Proof.
  induction 1 as [|i face Hi _ IH]; [reflexivity|].
  unfold face_vertices in *. cbn [Py.comprehension flat_map].
  destruct (np_getitem_valid vertices i Hi) as (v & E).
  rewrite E. cbn [bind]. rewrite IH. reflexivity.
Qed.

Lemma collect_ground_vertices_spec (vertices : list vertex) (ground_height threshold : Q)
  (faces : list (list Z)) :
  Forall (Forall (valid_index (length vertices))) faces ->
  forall ground_vertices,
    collect_ground_vertices vertices ground_height threshold faces ground_vertices
    = Returns (ground_vertices ++
               flat_map (face_vertices vertices)
                 (filter (face_near_ground vertices ground_height threshold) faces)).
Proof.
  induction 1 as [|face faces Hf _ IH]; intro acc.
  - simpl. now rewrite app_nil_r.
  - cbn [collect_ground_vertices filter].
    rewrite (comprehension_face_vertices _ _ Hf). cbn [bind].
    fold (face_near_ground vertices ground_height threshold face).
    destruct (face_near_ground vertices ground_height threshold face).
    + rewrite IH. cbn [flat_map]. now rewrite app_assoc.
    + apply IH.
Qed.

Lemma min_from_key_spec {A : Type} (key : A -> Q) (l : list A) :
  forall cur,
    let m := Py.min_from (fun a b => Qltb (key a) (key b)) cur l in
    key m <= key cur /\ Forall (fun x => key m <= key x) l.
Proof.
  induction l as [|x l IH]; intro cur; simpl.
  - split; [apply Qle_refl | constructor].
  - destruct (IH (if Qltb (key x) (key cur) then x else cur)) as [Hc Hl].
    destruct (Qltb (key x) (key cur)) eqn:E.
    + apply Qltb_lt in E. split.
      * eapply Qle_trans; [exact Hc | apply Qlt_le_weak, E].
      * constructor; assumption.
    + apply Qltb_ge in E. split; [exact Hc|].
      constructor; [eapply Qle_trans; eassumption | exact Hl].
Qed.

Lemma max_from_key_spec {A : Type} (key : A -> Q) (l : list A) :
  forall cur,
    let m := Py.min_from (fun a b => Qltb (key b) (key a)) cur l in
    key cur <= key m /\ Forall (fun x => key x <= key m) l.
Proof.
  induction l as [|x l IH]; intro cur; simpl.
  - split; [apply Qle_refl | constructor].
  - destruct (IH (if Qltb (key cur) (key x) then x else cur)) as [Hc Hl].
    destruct (Qltb (key cur) (key x)) eqn:E.
    + apply Qltb_lt in E. split.
      * eapply Qle_trans; [apply Qlt_le_weak, E | exact Hc].
      * constructor; assumption.
    + apply Qltb_ge in E. split; [exact Hc|].
      constructor; [eapply Qle_trans; eassumption | exact Hl].
Qed.

(** Lines 1389-1391 on a non-empty list: the four corners, closed, of the
    smallest axis-parallel rectangle around the points. *)
Lemma bounding_rectangle_spec (xy_coords : list point) :
  xy_coords <> [] ->
  exists min_x min_y max_x max_y,
    bounding_rectangle xy_coords
      = Returns [(min_x, min_y); (max_x, min_y); (max_x, max_y); (min_x, max_y);
                 (min_x, min_y)] /\
    Forall (fun p => min_x <= fst p <= max_x /\ min_y <= snd p <= max_y) xy_coords /\
    In min_x (map fst xy_coords) /\ In max_x (map fst xy_coords) /\
    In min_y (map snd xy_coords) /\ In max_y (map snd xy_coords).
Proof.
  destruct xy_coords as [|p ps]; [congruence|]. intros _.
  unfold bounding_rectangle, Py.min_key, Py.max_key, Py.max, Py.min. cbn [bind].
  destruct (min_from_key_spec fst ps p) as [Ha Has].
  destruct (min_from_key_spec snd ps p) as [Hb Hbs].
  destruct (max_from_key_spec fst ps p) as [Hc Hcs].
  destruct (max_from_key_spec snd ps p) as [Hd Hds].
  pose proof (min_from_in (fun a b => Qltb (fst a) (fst b)) ps p) as Ia.
  pose proof (min_from_in (fun a b => Qltb (snd a) (snd b)) ps p) as Ib.
  pose proof (min_from_in (fun a b => Qltb (fst b) (fst a)) ps p) as Ic.
  pose proof (min_from_in (fun a b => Qltb (snd b) (snd a)) ps p) as Id.
  do 4 eexists. split; [reflexivity|].
  split; [|repeat split; apply in_map; assumption].
  constructor.
  - repeat split; assumption.
  - rewrite Forall_forall in *. intros q Hq. repeat split; auto.
Qed.

Lemma comprehension_getitem_spec {A : Type} (l : list A) (idxs : list nat) :
  Py.comprehension (Py.getitem l) idxs <> OutOfFuel /\
  forall ys, Py.comprehension (Py.getitem l) idxs = Returns ys ->
             Forall2 (fun i y => nth_error l i = Some y) idxs ys.
Proof.
  induction idxs as [|i idxs [IHf IH]]; cbn [Py.comprehension].
  - split; [discriminate|]. intros ys [= <-]. constructor.
  - unfold Py.getitem at 1 3. destruct (nth_error l i) as [y|] eqn:E; cbn [bind].
    + destruct (Py.comprehension (Py.getitem l) idxs) as [ys'| |]; cbn [bind].
      * split; [discriminate|]. intros ys [= <-]. constructor; [exact E | now apply IH].
      * split; discriminate.
      * congruence.
    + split; discriminate.
Qed.

Section FloorPlan.

Context `{S : SciPy}.

Lemma hull_boundary_spec (xy_coords : list point) :
  hull_boundary xy_coords <> OutOfFuel /\
  forall polygon, hull_boundary xy_coords = Returns polygon ->
    exists hull first middle,
      ConvexHull_vertices xy_coords = Some hull /\
      Forall2 (fun i p => nth_error xy_coords i = Some p) hull (first :: middle) /\
      polygon = first :: middle ++ [first].
Proof.
  unfold hull_boundary.
  destruct (ConvexHull_vertices xy_coords) as [hull|]; cbn [library_call bind];
    [|split; discriminate].
  destruct (comprehension_getitem_spec xy_coords hull) as [Hf Hc].
  destruct (Py.comprehension (Py.getitem xy_coords) hull) as [bps| |]; cbn [bind];
    [|split; discriminate|congruence].
  destruct bps as [|first middle]; cbn [Py.getitem nth_error bind];
    [split; discriminate|].
  split; [discriminate|]. intros polygon [= <-].
  exists hull, first, middle. split; [reflexivity|]. split; [now apply Hc | reflexivity].
Qed.

Lemma ground_xy_nonempty (vertices ground_vertices : list vertex) :
  vertices <> [] -> ground_xy vertices ground_vertices <> [].
Proof.
  intro Hne. unfold ground_xy. destruct ground_vertices; [|discriminate].
  destruct vertices; [congruence | discriminate].
Qed.

Lemma extract_floor_plan_unfold (vertices : list vertex) (faces : list (list Z))
  (height_threshold ground_height : Q) :
  np.percentile (map vz vertices) 5 = Returns ground_height ->
  Forall (Forall (valid_index (length vertices))) faces ->
  extract_floor_plan vertices faces height_threshold =
  let xy_coords :=
    ground_xy vertices
      (flat_map (face_vertices vertices)
         (filter (face_near_ground vertices ground_height height_threshold) faces)) in
  if HAS_SCIPY && (3 <=? length xy_coords)%nat
  then try_except (hull_boundary xy_coords) (bounding_rectangle xy_coords)
  else bounding_rectangle xy_coords.
Proof.
  intros Eg Hfaces. unfold extract_floor_plan. rewrite Eg. cbn [bind].
  rewrite (collect_ground_vertices_spec _ _ _ _ Hfaces). reflexivity.
Qed.

End FloorPlan.

(** ** [np.arange] *)

Lemma nth_error_seq_some (n i j : nat) :
  nth_error (seq 0 n) i = Some j -> j = i /\ (i < n)%nat.
Proof.
  intro E.
  assert (Hi : (i < length (seq 0 n))%nat) by (apply nth_error_Some; congruence).
  rewrite length_seq in Hi. split; [|exact Hi].
  apply (nth_error_nth _ _ 0%nat) in E. rewrite seq_nth in E by exact Hi. lia.
Qed.

Lemma arange_nth (start stop step : Q) (i : nat) (x : Q) :
  0 < step ->
  nth_error (np.arange start stop step) i = Some x ->
  x = start + inject_Z (Z.of_nat i) * step /\ x < stop.
Proof.
  intros Hstep H. unfold np.arange in H. rewrite nth_error_map in H.
  destruct (nth_error (seq 0 _) i) as [j|] eqn:E; [|discriminate].
  simpl in H. injection H as <-.
  apply nth_error_seq_some in E. destruct E as [-> Hi].
  split; [reflexivity|].
  assert (Hq : inject_Z (Z.of_nat i) < (stop - start) / step).
  { eapply Qle_lt_trans; [|apply Qceiling_lt].
    rewrite <- Zle_Qle. lia. }
  assert (Hm : inject_Z (Z.of_nat i) * step < stop - start).
  { apply (Qmult_lt_compat_r _ _ step) in Hq; [|exact Hstep].
    setoid_replace ((stop - start) / step * step) with (stop - start) in Hq;
      [exact Hq|].
    field. intro E. rewrite E in Hstep. exact (Qlt_irrefl _ Hstep). }
  Lqa.lra.
Qed.

Lemma arange_in (start stop step x : Q) :
  0 < step -> In x (np.arange start stop step) ->
  exists k : nat, x = start + inject_Z (Z.of_nat k) * step /\ x < stop.
Proof.
  intros Hstep H. apply In_nth_error in H. destruct H as (k & Hk).
  exists k. now apply arange_nth.
Qed.

Lemma map_seq_sorted (f : nat -> Q) :
  (forall i j, (i < j)%nat -> f i < f j) ->
  forall n a, StronglySorted Qlt (map f (seq a n)).
Proof.
  intros Hf. induction n as [|n IH]; intro a; simpl; constructor.
  - apply IH.
  - apply Forall_forall. intros y Hy. apply in_map_iff in Hy.
    destruct Hy as (j & <- & Hj). apply in_seq in Hj. apply Hf. lia.
Qed.

Lemma arange_sorted (start stop step : Q) :
  0 < step -> StronglySorted Qlt (np.arange start stop step).
Proof.
  intro Hstep. unfold np.arange. apply map_seq_sorted. intros i j Hij.
  assert (H : inject_Z (Z.of_nat i) < inject_Z (Z.of_nat j))
    by (rewrite <- Zlt_Qlt; lia).
  assert (H' : inject_Z (Z.of_nat i) * step < inject_Z (Z.of_nat j) * step)
    by (apply Qmult_lt_compat_r; assumption).
  Lqa.lra.
Qed.

Lemma StronglySorted_filter {A : Type} (R : A -> A -> Prop) (f : A -> bool) (l : list A) :
  StronglySorted R l -> StronglySorted R (filter f l).
Proof.
  induction 1 as [|x l Hs IH Hx]; simpl; [constructor|].
  destruct (f x); [|exact IH].
  constructor; [exact IH|].
  apply Forall_forall. intros y Hy. apply filter_In in Hy.
  rewrite Forall_forall in Hx. now apply Hx.
Qed.

Lemma StronglySorted_snoc {A : Type} (R : A -> A -> Prop) (l : list A) (x : A) :
  StronglySorted R l -> Forall (fun b => R b x) l -> StronglySorted R (l ++ [x]).
Proof.
  induction 1 as [|y l Hs IH Hy]; intro Hx; simpl.
  - constructor; constructor.
  - inversion Hx as [|? ? Hyx Hlx]; subst. constructor.
    + now apply IH.
    + apply Forall_app. split; [exact Hy|]. now constructor.
Qed.

Lemma StronglySorted_rev {A : Type} (R : A -> A -> Prop) (l : list A) :
  StronglySorted R l -> StronglySorted (fun a b => R b a) (rev l).
Proof.
  induction 1 as [|x l Hs IH Hx]; simpl; [constructor|].
  apply StronglySorted_snoc; [exact IH|].
  apply Forall_rev. exact Hx.
Qed.

(** ** The horizontal sweep *)

Lemma min_spec (l : list Q) (m : Q) :
  Py.min Qltb l = Returns m -> In m l /\ Forall (fun x => m <= x) l.
Proof.
  intro E. split; [exact (min_in _ _ _ E)|].
  destruct l as [|x l]; [discriminate|].
  unfold Py.min in E. injection E as <-.
  destruct (min_from_key_spec (fun q => q) l x) as [Hc Hl]. constructor; assumption.
Qed.

Lemma enumerate_from_nth {A : Type} (l : list A) :
  forall a i j y, nth_error (Py.enumerate_from a l) i = Some (j, y) ->
                  j = (a + i)%nat /\ nth_error l i = Some y.
Proof.
  induction l as [|x l IH]; intros a [|i] j y H; simpl in H; try discriminate.
  - injection H as <- <-. split; [lia | reflexivity].
  - apply IH in H. destruct H as [-> H]. split; [lia | exact H].
Qed.

Lemma Forall2_nth_error_r {A B : Type} (R : A -> B -> Prop) (l1 : list A) (l2 : list B) :
  Forall2 R l1 l2 ->
  forall i b, nth_error l2 i = Some b -> exists a, nth_error l1 i = Some a /\ R a b.
Proof.
  induction 1 as [|a b l1 l2 Hab _ IH]; intros [|i] b' H; simpl in H; try discriminate.
  - injection H as <-. exists a. now split.
  - now apply IH.
Qed.

Section Serpentine.

Context `{G : Shapely}.
Variable scan_polygon : geom.

Lemma map_fst_inside (y : Q) (xs : list Q) :
  map fst (inside scan_polygon (map (fun x => (x, y)) xs))
  = filter (fun x => contains scan_polygon (x, y)) xs.
Proof.
  unfold inside. induction xs as [|x xs IH]; simpl; [reflexivity|].
  destruct (contains scan_polygon (x, y)); simpl; now rewrite IH.
Qed.

Lemma horizontal_line_spec (min_x max_x step : Q) (i : nat) (y : Q) :
  0 < step ->
  exists pts,
    horizontal_line scan_polygon min_x max_x step i y = Returns pts /\
    Forall (fun p => snd p = y /\ contains scan_polygon p = true) pts /\
    (pts <> [] ->
     exists x_start x_end,
       In x_start (x_span scan_polygon min_x max_x step y) /\
       In x_end (x_span scan_polygon min_x max_x step y) /\
       Forall (fun x => x_start <= x <= x_end) (x_span scan_polygon min_x max_x step y) /\
       Forall (fun p => exists k : nat,
                   fst p = x_start + inject_Z (Z.of_nat k) * step /\
                   fst p < x_end + step / 2) pts) /\
    ((i mod 2 = 0)%nat -> StronglySorted Qlt (map fst pts)) /\
    ((i mod 2 = 1)%nat -> StronglySorted (fun a b => b < a) (map fst pts)).
Proof.
  intro Hstep. unfold horizontal_line.
  destruct (x_span scan_polygon min_x max_x step y) as [|x0 xs] eqn:Espan.
  - exists []. split; [reflexivity|]. split; [constructor|].
    split; [congruence|]. split; intros _; constructor.
  - destruct (min_total Qltb (x0 :: xs)) as (a & Ea); [discriminate|].
    destruct (max_total Qltb (x0 :: xs)) as (b & Eb); [discriminate|].
    rewrite Ea, Eb. cbn [bind].
    destruct (min_spec _ _ Ea) as [Ia Ha]. destruct (max_spec _ _ Eb) as [Ib Hb].
    set (sweep := if (i mod 2 =? 1)%nat
                  then rev (np.arange a (b + step / 2) step)
                  else np.arange a (b + step / 2) step).
    assert (Hin : forall x, In x sweep -> In x (np.arange a (b + step / 2) step)).
    { intros x Hx. unfold sweep in Hx. destruct (i mod 2 =? 1)%nat; [|exact Hx].
      now apply in_rev. }
    eexists. split; [reflexivity|]. split; [|split; [|split]].
    + apply Forall_forall. intros p Hp. unfold inside in Hp.
      apply filter_In in Hp. destruct Hp as [Hp Hc]. split; [|exact Hc].
      apply in_map_iff in Hp. destruct Hp as (x & <- & _). reflexivity.
    + intros _. exists a, b. split; [exact Ia|]. split; [exact Ib|]. split.
      * rewrite Forall_forall in *. intros x Hx. split; auto.
      * apply Forall_forall. intros p Hp. unfold inside in Hp.
        apply filter_In in Hp. destruct Hp as [Hp _].
        apply in_map_iff in Hp. destruct Hp as (x & <- & Hx).
        apply Hin in Hx. cbn [fst]. now apply arange_in.
    + intro Hpar. rewrite map_fst_inside. apply StronglySorted_filter.
      unfold sweep. rewrite Hpar. cbn [Nat.eqb]. now apply arange_sorted.
    + intro Hpar. rewrite map_fst_inside. apply StronglySorted_filter.
      unfold sweep. rewrite Hpar. cbn [Nat.eqb].
      apply StronglySorted_rev. now apply arange_sorted.
Qed.

End Serpentine.

(** * Further properties *)

(** ** The vertical sweep *)

Section Columns.

Context `{G : Shapely}.
Variable scan_polygon : geom.

Lemma map_snd_inside (x : Q) (ys : list Q) :
  map snd (inside scan_polygon (map (fun y => (x, y)) ys))
  = filter (fun y => contains scan_polygon (x, y)) ys.
Proof.
  unfold inside. induction ys as [|y ys IH]; simpl; [reflexivity|].
  destruct (contains scan_polygon (x, y)); simpl; now rewrite IH.
Qed.

Lemma vertical_line_spec (min_y max_y step : Q) (i : nat) (x : Q) :
  0 < step ->
  exists pts,
    vertical_line scan_polygon min_y max_y step i x = Returns pts /\
    serpentine_column scan_polygon min_y max_y step i x pts.
Proof.
  intro Hstep. unfold vertical_line, serpentine_column.
  destruct (y_span scan_polygon min_y max_y step x) as [|y0 ys] eqn:Espan.
  - exists []. split; [reflexivity|]. split; [constructor|].
    split; [congruence|]. split; intros _; constructor.
  - destruct (min_total Qltb (y0 :: ys)) as (a & Ea); [discriminate|].
    destruct (max_total Qltb (y0 :: ys)) as (b & Eb); [discriminate|].
    rewrite Ea, Eb. cbn [bind].
    destruct (min_spec _ _ Ea) as [Ia Ha]. destruct (max_spec _ _ Eb) as [Ib Hb].
    set (sweep := if (i mod 2 =? 1)%nat
                  then rev (np.arange a (b + step / 2) step)
                  else np.arange a (b + step / 2) step).
    assert (Hin : forall y, In y sweep -> In y (np.arange a (b + step / 2) step)).
    { intros y Hy. unfold sweep in Hy. destruct (i mod 2 =? 1)%nat; [|exact Hy].
      now apply in_rev. }
    eexists. split; [reflexivity|]. split; [|split; [|split]].
    + apply Forall_forall. intros p Hp. unfold inside in Hp.
      apply filter_In in Hp. destruct Hp as [Hp Hc]. split; [|exact Hc].
      apply in_map_iff in Hp. destruct Hp as (y & <- & _). reflexivity.
    + intros _. exists a, b. split; [exact Ia|]. split; [exact Ib|]. split.
      * rewrite Forall_forall in *. intros y Hy. split; auto.
      * apply Forall_forall. intros p Hp. unfold inside in Hp.
        apply filter_In in Hp. destruct Hp as [Hp _].
        apply in_map_iff in Hp. destruct Hp as (y & <- & Hy).
        apply Hin in Hy. cbn [snd]. now apply arange_in.
    + intro Hpar. rewrite map_snd_inside. apply StronglySorted_filter.
      unfold sweep. rewrite Hpar. cbn [Nat.eqb]. now apply arange_sorted.
    + intro Hpar. rewrite map_snd_inside. apply StronglySorted_filter.
      unfold sweep. rewrite Hpar. cbn [Nat.eqb].
      apply StronglySorted_rev. now apply arange_sorted.
Qed.

End Columns.

(** ** The greedy order *)

Lemma pop_nth {A : Type} (l : list A) :
  forall i y r, Py.pop l i = Returns (y, r) -> nth_error l i = Some y.
Proof.
  induction l as [|x l IH]; intros [|i] y r H; simpl in H; try discriminate.
  - now injection H as <- <-.
  - destruct (Py.pop l i) as [[y' r']| |] eqn:E; simpl in H; try discriminate.
    injection H as <- <-. simpl. eapply IH. exact E.
Qed.

(** ** The planners end to end *)

Lemma arange_empty (start stop step : Q) :
  0 < step -> stop <= start -> np.arange start stop step = [].
Proof.
  intros Hstep Hle. unfold np.arange.
  assert (Hq : (stop - start) / step <= 0).
  { apply Qle_shift_div_r; [exact Hstep|]. Lqa.lra. }
  assert (Hc : (Qceiling ((stop - start) / step) <= 0)%Z).
  { change 0%Z with (Qceiling 0). now apply Qceiling_resp_le. }
  replace (Z.to_nat (Qceiling ((stop - start) / step))) with 0%nat by lia.
  reflexivity.
Qed.

Section EndToEnd.

Context `{G : Shapely}.


(** X7. The offset block never raises, and its result follows one of six
    cases: no positive clearance, or a [buffer] call that raises, or an
    offset with an empty list of pieces: the house polygon itself; an
    invalid or empty offset: the centroid of the house polygon; an offset
    in one part: that offset; an offset in several pieces: one of them. *)
Theorem scan_region_is_total (house_polygon : geom) (boundary_distance : Q) :
  exists r,
    scan_region house_polygon boundary_distance = Returns r /\
    ((boundary_distance <= 0 /\ r = ScanPolygon house_polygon) \/
     (0 < boundary_distance /\
      buffer house_polygon (- boundary_distance) = None /\
      r = ScanPolygon house_polygon) \/
     (exists inner_polygon,
        0 < boundary_distance /\
        buffer house_polygon (- boundary_distance) = Some inner_polygon /\
        ((negb (is_valid inner_polygon) || is_empty inner_polygon = true /\
          r = CentroidOnly (centroid house_polygon)) \/
         (negb (is_valid inner_polygon) || is_empty inner_polygon = false /\
          ((geoms inner_polygon = None /\ r = ScanPolygon inner_polygon) \/
           (geoms inner_polygon = Some [] /\ r = ScanPolygon house_polygon) \/
           (exists pieces piece,
              geoms inner_polygon = Some pieces /\ In piece pieces /\
              r = ScanPolygon piece)))))).
Proof.
  unfold scan_region. destruct (Qltb 0 boundary_distance) eqn:Ed.
  - apply Qltb_lt in Ed.
    destruct (buffer house_polygon (- boundary_distance)) as [inner|] eqn:Eb;
      cbn [library_call bind try_except].
    + destruct (negb (is_valid inner) || is_empty inner) eqn:Ev; cbn [try_except].
      * eexists. split; [reflexivity|]. right. right. exists inner.
        split; [exact Ed|]. split; [reflexivity|]. left.
        split; [exact Ev | reflexivity].
      * destruct (geoms inner) as [[|g pieces]|] eqn:Eg.
        -- unfold largest_piece. rewrite Eg. cbn [map Py.max Py.min bind try_except].
           eexists. split; [reflexivity|]. right. right. exists inner.
           split; [exact Ed|]. split; [reflexivity|]. right. split; [exact Ev|].
           right. left. split; [exact Eg | reflexivity].
        -- destruct (largest_piece_spec inner (g :: pieces) Eg)
             as (k & piece & El & Hk & _); [discriminate|].
           rewrite El. cbn [bind try_except].
           eexists. split; [reflexivity|]. right. right. exists inner.
           split; [exact Ed|]. split; [reflexivity|]. right. split; [exact Ev|].
           right. right. exists (g :: pieces), piece.
           split; [exact Eg|]. split; [|reflexivity].
           eapply nth_error_In. exact Hk.
        -- unfold largest_piece. rewrite Eg. cbn [bind try_except].
           eexists. split; [reflexivity|]. right. right. exists inner.
           split; [exact Ed|]. split; [reflexivity|]. right. split; [exact Ev|].
           left. split; [exact Eg | reflexivity].
    + eexists. split; [reflexivity|]. right. left. now split.
  - apply Qltb_ge in Ed. eexists. split; [reflexivity|]. left. now split.
Qed.


End EndToEnd.


(** ** Floor-plan extraction: errors and provenance of the corners *)

Lemma np_getitem_invalid {A : Type} (a : list A) (i : Z) :
  ~ valid_index (length a) i -> np.getitem a i = Raises IndexError.
Proof.
  unfold valid_index, np.getitem. intro H.
  destruct (Z.leb_spec 0 i); destruct (Z.ltb_spec i (Z.of_nat (length a)));
    destruct (Z.leb_spec (- Z.of_nat (length a)) i); destruct (Z.ltb_spec i 0);
    cbn [andb]; try reflexivity; exfalso; apply H; lia.
Qed.

Lemma np_getitem_cases {A : Type} (a : list A) (i : Z) :
  (exists v, np.getitem a i = Returns v /\ In v a) \/
  np.getitem a i = Raises IndexError.
Proof.
  unfold np.getitem, Py.getitem.
  destruct ((0 <=? i)%Z && (i <? Z.of_nat (length a))%Z).
  - destruct (nth_error a (Z.to_nat i)) eqn:E; [left | now right].
    eexists. split; [reflexivity|]. eapply nth_error_In. exact E.
  - destruct ((- Z.of_nat (length a) <=? i)%Z && (i <? 0)%Z); [|now right].
    destruct (nth_error a (Z.to_nat (Z.of_nat (length a) + i))) eqn:E; [left | now right].
    eexists. split; [reflexivity|]. eapply nth_error_In. exact E.
Qed.

Lemma comprehension_np_getitem_cases {A : Type} (a : list A) (face : list Z) :
  (exists vs, Py.comprehension (np.getitem a) face = Returns vs) \/
  Py.comprehension (np.getitem a) face = Raises IndexError.
Proof.
  induction face as [|i face IH]; cbn [Py.comprehension]; [left; eauto|].
  destruct (np_getitem_cases a i) as [(v & -> & _)| ->]; cbn [bind]; [|now right].
  destruct IH as [(vs & ->)| ->]; cbn [bind]; [left; eauto | now right].
Qed.

Lemma comprehension_invalid {A : Type} (a : list A) (face : list Z) :
  Exists (fun i => ~ valid_index (length a) i) face ->
  Py.comprehension (np.getitem a) face = Raises IndexError.
Proof.
  induction 1 as [i face Hi|i face _ IH]; cbn [Py.comprehension].
  - now rewrite (np_getitem_invalid a i Hi).
  - destruct (np_getitem_cases a i) as [(v & -> & _)| ->]; cbn [bind]; [|reflexivity].
    now rewrite IH.
Qed.

Lemma collect_ground_vertices_invalid (vertices : list vertex) (ground_height threshold : Q)
  (faces : list (list Z)) :
  Exists (Exists (fun i => ~ valid_index (length vertices) i)) faces ->
  forall ground_vertices,
    collect_ground_vertices vertices ground_height threshold faces ground_vertices
    = Raises IndexError.
Proof.
  induction 1 as [face faces Hf|face faces _ IH]; intro acc;
    cbn [collect_ground_vertices].
  - now rewrite (comprehension_invalid _ _ Hf).
  - destruct (comprehension_np_getitem_cases vertices face) as [(vs & ->)| ->];
      cbn [bind]; [|reflexivity].
    destruct (near_ground _ _ _); apply IH.
Qed.

Lemma face_vertices_in (vertices : list vertex) (face : list Z) (v : vertex) :
  In v (face_vertices vertices face) -> In v vertices.
Proof.
  unfold face_vertices. intro H. apply in_flat_map in H. destruct H as (i & _ & H).
  destruct (np_getitem_cases vertices i) as [(w & E & Hw)|E]; rewrite E in H.
  - destruct H as [<-|[]]. exact Hw.
  - destruct H.
Qed.

Lemma ground_xy_in (vertices : list vertex) (faces : list (list Z)) (p : point) :
  In p (ground_xy vertices (flat_map (face_vertices vertices) faces)) ->
  exists v, In v vertices /\ p = (vx v, vy v).
Proof.
  unfold ground_xy. intro H. apply in_map_iff in H. destruct H as (v & <- & Hv).
  exists v. split; [|reflexivity].
  destruct (flat_map (face_vertices vertices) faces) eqn:E; [exact Hv|].
  rewrite <- E in Hv. apply in_flat_map in Hv. destruct Hv as (f & _ & Hv).
  eapply face_vertices_in. exact Hv.
Qed.

Section FloorPlanMore.

Context `{S : SciPy}.

(** X9. A face that refers to a vertex index outside [-n, n) of a
    non-empty vertex array makes [extract_floor_plan] raise [IndexError],
    whatever the other faces, the threshold and SciPy do. *)
Theorem extract_floor_plan_dangling_index (vertices : list vertex)
  (faces : list (list Z)) (height_threshold : Q) :
  vertices <> [] ->
  Exists (Exists (fun i => ~ valid_index (length vertices) i)) faces ->
  extract_floor_plan vertices faces height_threshold = Raises IndexError.
Proof.
  intros Hne Hbad.
  destruct (percentile_returns (map vz vertices)) as (ground_height & Eg).
  { destruct vertices; [congruence | discriminate]. }
  unfold extract_floor_plan. rewrite Eg. cbn [bind].
  now rewrite (collect_ground_vertices_invalid _ _ _ _ Hbad).
Qed.

(** X10. The corners of the floor plan are never invented: for a mesh with
    at least one vertex and acceptable face indices, every point of the
    returned polygon has an x that is the x of some mesh vertex and a y
    that is the y of some mesh vertex (on the hull path the point is the
    projection of one vertex; on the rectangle path the two may come from
    different vertices). *)
Theorem floor_plan_corners_come_from_mesh (vertices : list vertex)
  (faces : list (list Z)) (height_threshold : Q) :
  vertices <> [] ->
  Forall (Forall (valid_index (length vertices))) faces ->
  exists polygon,
    extract_floor_plan vertices faces height_threshold = Returns polygon /\
    Forall (fun p => In (fst p) (map vx vertices) /\ In (snd p) (map vy vertices))
      polygon.
Proof.
  intros Hne Hfaces.
  destruct (percentile_returns (map vz vertices)) as (ground_height & Eg).
  { destruct vertices; [congruence | discriminate]. }
  rewrite (extract_floor_plan_unfold vertices faces height_threshold ground_height Eg Hfaces).
  cbv zeta.
  set (xy := ground_xy vertices _).
  assert (Hxy : forall p, In p xy -> In (fst p) (map vx vertices) /\
                                     In (snd p) (map vy vertices)).
  { intros p Hp. apply ground_xy_in in Hp. destruct Hp as (v & Hv & ->).
    cbn [fst snd]. split; now apply in_map. }
  assert (Hfst : forall x, In x (map fst xy) -> In x (map vx vertices)).
  { intros x Hx. apply in_map_iff in Hx. destruct Hx as (p & <- & Hp).
    now apply Hxy. }
  assert (Hsnd : forall y, In y (map snd xy) -> In y (map vy vertices)).
  { intros y Hy. apply in_map_iff in Hy. destruct Hy as (p & <- & Hp).
    now apply Hxy. }
  assert (Hrect : exists polygon,
             bounding_rectangle xy = Returns polygon /\
             Forall (fun p => In (fst p) (map vx vertices) /\
                              In (snd p) (map vy vertices)) polygon).
  { destruct (bounding_rectangle_spec xy (ground_xy_nonempty _ _ Hne))
      as (min_x & min_y & max_x & max_y & Er & _ & Ia & Ic & Ib & Id).
    eexists. split; [exact Er|].
    repeat constructor; cbn [fst snd]; auto. }
  destruct (HAS_SCIPY && (3 <=? length xy)%nat); [|exact Hrect].
  destruct (hull_boundary_spec xy) as [Hfuel Hhull].
  destruct (hull_boundary xy) as [polygon| |] eqn:Eh; cbn [try_except];
    [|exact Hrect|congruence].
  destruct (Hhull polygon eq_refl) as (hull & first & middle & _ & F & ->).
  eexists. split; [reflexivity|].
  assert (Hin : Forall (fun p => In p xy) (first :: middle)).
  { clear -F. induction F as [|i p hull pts Hp _ IH]; constructor; [|exact IH].
    eapply nth_error_In. exact Hp. }
  apply Forall_forall. intros p Hp. apply Hxy.
  rewrite Forall_forall in Hin. apply Hin.
  destruct Hp as [<-|Hp]; [now left|].
  apply in_app_or in Hp. destruct Hp as [Hp|[<-|[]]]; [now right | now left].
Qed.

End FloorPlanMore.

Lemma extract_floor_plan_dangling_index_witness :
  extract_floor_plan (H := scipy_rejecting) (fst dangling_face_mesh)
    (snd dangling_face_mesh) (1 # 10) = Raises IndexError.
Proof.
  apply (extract_floor_plan_dangling_index (S := scipy_rejecting)
           (fst dangling_face_mesh) (snd dangling_face_mesh) (1 # 10)).
  - discriminate.
  - constructor. constructor. unfold valid_index. simpl. lia.
Defined.

Lemma floor_plan_corners_come_from_mesh_witness :
  exists polygon,
    extract_floor_plan (H := scipy_rejecting) (fst unit_floor_mesh)
      (snd unit_floor_mesh) (1 # 10) = Returns polygon /\
    Forall (fun p => In (fst p) (map vx (fst unit_floor_mesh)) /\
                     In (snd p) (map vy (fst unit_floor_mesh))) polygon.
Proof.
  apply (floor_plan_corners_come_from_mesh (S := scipy_rejecting)
           (fst unit_floor_mesh) (snd unit_floor_mesh) (1 # 10)).
  - discriminate.
  - repeat constructor; simpl; lia.
Defined.

(** ** Fan triangulation *)

Lemma comprehension_returns {A B : Type} (f : A -> outcome B) (g : A -> B) (l : list A) :
  (forall x, In x l -> f x = Returns (g x)) ->
  Py.comprehension f l = Returns (map g l).
Proof.
  induction l as [|x l IH]; intro H; cbn [Py.comprehension map]; [reflexivity|].
  rewrite (H x) by now left. cbn [bind].
  rewrite IH by (intros y Hy; apply H; now right). reflexivity.
Qed.

Lemma getitem_nth {A : Type} (l : list A) (i : nat) (d : A) :
  (i < length l)%nat -> Py.getitem l i = Returns (nth i l d).
Proof.
  intro H. unfold Py.getitem.
  destruct (nth_error l i) eqn:E.
  - now rewrite (nth_error_nth _ _ d E).
  - apply nth_error_None in E. lia.
Qed.

(** The triangles of a face with more than three corners, in closed form. *)
Lemma triangulate_face_fan_closed (f : AdvancedOBJTriangulator.face)
  (d : AdvancedOBJTriangulator.vertex_data) :
  (3 < length (AdvancedOBJTriangulator.vertices f))%nat ->
  AdvancedOBJTriangulator.triangulate_face_fan f =
  Returns (map (fun i =>
                  {| AdvancedOBJTriangulator.vertices :=
                       [nth 0 (AdvancedOBJTriangulator.vertices f) d;
                        nth i (AdvancedOBJTriangulator.vertices f) d;
                        nth (i + 1) (AdvancedOBJTriangulator.vertices f) d];
                     AdvancedOBJTriangulator.material :=
                       AdvancedOBJTriangulator.material f |})
               (seq 1 (length (AdvancedOBJTriangulator.vertices f) - 2))).
Proof.
  intro Hn. unfold AdvancedOBJTriangulator.triangulate_face_fan.
  destruct (Nat.leb_spec (length (AdvancedOBJTriangulator.vertices f)) 3); [lia|].
  rewrite (getitem_nth _ 0 d) by lia. cbn [bind].
  replace (length (AdvancedOBJTriangulator.vertices f) - 1 - 1)%nat
    with (length (AdvancedOBJTriangulator.vertices f) - 2)%nat by lia.
  apply comprehension_returns. intros i Hi. apply in_seq in Hi.
  rewrite (getitem_nth _ i d) by lia. cbn [bind].
  rewrite (getitem_nth _ (i + 1) d) by lia. reflexivity.
Qed.

(** X11. A face with [n > 3] corners is cut into exactly [n - 2] triangles
    without raising: triangle [k] (from 0) has the three corners number 0,
    [k + 1] and [k + 2] of the face, in this order, and the material of the
    face; so all triangles share corner 0 and consecutive triangles share
    an edge. *)
Theorem triangulate_face_fan_is_a_fan (f : AdvancedOBJTriangulator.face) :
  (3 < length (AdvancedOBJTriangulator.vertices f))%nat ->
  exists triangles,
    AdvancedOBJTriangulator.triangulate_face_fan f = Returns triangles /\
    length triangles = (length (AdvancedOBJTriangulator.vertices f) - 2)%nat /\
    forall k triangle, nth_error triangles k = Some triangle ->
      AdvancedOBJTriangulator.material triangle = AdvancedOBJTriangulator.material f /\
      exists v0 a b,
        nth_error (AdvancedOBJTriangulator.vertices f) 0 = Some v0 /\
        nth_error (AdvancedOBJTriangulator.vertices f) (k + 1) = Some a /\
        nth_error (AdvancedOBJTriangulator.vertices f) (k + 2) = Some b /\
        AdvancedOBJTriangulator.vertices triangle = [v0; a; b].
Proof.
  intro Hn.
  set (d := AdvancedOBJTriangulator.corner 0).
  rewrite (triangulate_face_fan_closed f d Hn).
  eexists. split; [reflexivity|]. split; [now rewrite length_map, length_seq|].
  intros k triangle Hk. rewrite nth_error_map in Hk.
  destruct (nth_error (seq 1 _) k) as [i|] eqn:Ei; [|discriminate].
  cbn [option_map] in Hk. injection Hk as <-.
  assert (Hkl : (k < length (seq 1 (length (AdvancedOBJTriangulator.vertices f) - 2)))%nat)
    by (apply nth_error_Some; congruence).
  rewrite length_seq in Hkl.
  apply (nth_error_nth _ _ 0%nat) in Ei. rewrite seq_nth in Ei by exact Hkl. subst i.
  cbn [AdvancedOBJTriangulator.material AdvancedOBJTriangulator.vertices].
  split; [reflexivity|].
  exists (nth 0 (AdvancedOBJTriangulator.vertices f) d),
         (nth (1 + k) (AdvancedOBJTriangulator.vertices f) d),
         (nth (1 + k + 1) (AdvancedOBJTriangulator.vertices f) d).
  split; [apply nth_error_nth'; lia|].
  split; [replace (k + 1)%nat with (1 + k)%nat by lia; apply nth_error_nth'; lia|].
  split; [replace (k + 2)%nat with (1 + k + 1)%nat by lia; apply nth_error_nth'; lia|].
  reflexivity.
Qed.

Lemma triangulate_face_fan_is_a_fan_witness :
  exists triangles,
    AdvancedOBJTriangulator.triangulate_face_fan
      (nth 0 AdvancedOBJTriangulator.sample_faces
         {| AdvancedOBJTriangulator.vertices := [];
            AdvancedOBJTriangulator.material := String.EmptyString |})
      = Returns triangles /\
    length triangles = 3%nat.
Proof.
  destruct (triangulate_face_fan_is_a_fan
              (nth 0 AdvancedOBJTriangulator.sample_faces
                 {| AdvancedOBJTriangulator.vertices := [];
                    AdvancedOBJTriangulator.material := String.EmptyString |}))
    as (triangles & E & L & _).
  - simpl. lia.
  - exists triangles. split; [exact E | exact L].
Defined.

Lemma triangulate_face_fan_total (f : AdvancedOBJTriangulator.face) :
  AdvancedOBJTriangulator.triangulate_face_fan f
  = Returns (AdvancedOBJTriangulator.fan_triangles f).
Proof.
  unfold AdvancedOBJTriangulator.fan_triangles.
  destruct (Nat.leb_spec (length (AdvancedOBJTriangulator.vertices f)) 3) as [Hle|Hgt].
  - unfold AdvancedOBJTriangulator.triangulate_face_fan.
    destruct (Nat.leb_spec (length (AdvancedOBJTriangulator.vertices f)) 3); [reflexivity|lia].
  - now apply triangulate_face_fan_closed.
Qed.

Lemma triangulate_loop_closed (faces : list AdvancedOBJTriangulator.face) :
  forall triangulated_faces,
    AdvancedOBJTriangulator.triangulate_loop faces triangulated_faces
    = Returns (triangulated_faces ++ flat_map AdvancedOBJTriangulator.fan_triangles faces).
Proof.
  induction faces as [|f faces IH]; intro acc;
    cbn [AdvancedOBJTriangulator.triangulate_loop flat_map].
  - now rewrite app_nil_r.
  - rewrite triangulate_face_fan_total. cbn [bind].
    unfold AdvancedOBJTriangulator.fan_triangles at 2.
    destruct (length (AdvancedOBJTriangulator.vertices f) <=? 3)%nat eqn:E;
      rewrite IH, <- app_assoc; try reflexivity.
    unfold AdvancedOBJTriangulator.fan_triangles. now rewrite E.
Qed.

Lemma triangulate_all_faces_closed (faces : list AdvancedOBJTriangulator.face) :
  AdvancedOBJTriangulator.triangulate_all_faces faces
  = Returns (flat_map AdvancedOBJTriangulator.fan_triangles faces,
             (length faces,
              length (flat_map AdvancedOBJTriangulator.fan_triangles faces))).
Proof.
  unfold AdvancedOBJTriangulator.triangulate_all_faces.
  now rewrite triangulate_loop_closed.
Qed.

Lemma fan_triangles_length (f : AdvancedOBJTriangulator.face) :
  length (AdvancedOBJTriangulator.fan_triangles f)
  = AdvancedOBJTriangulator.triangle_count f.
Proof.
  unfold AdvancedOBJTriangulator.fan_triangles, AdvancedOBJTriangulator.triangle_count.
  destruct (Nat.leb_spec (length (AdvancedOBJTriangulator.vertices f)) 3).
  - cbn [length]. lia.
  - rewrite length_map, length_seq. lia.
Qed.

Lemma fan_triangles_shape (f t : AdvancedOBJTriangulator.face) :
  In t (AdvancedOBJTriangulator.fan_triangles f) ->
  AdvancedOBJTriangulator.material t = AdvancedOBJTriangulator.material f /\
  ((t = f /\ (length (AdvancedOBJTriangulator.vertices f) <= 3)%nat) \/
   (length (AdvancedOBJTriangulator.vertices t) = 3%nat /\
    (3 < length (AdvancedOBJTriangulator.vertices f))%nat)).
Proof.
  unfold AdvancedOBJTriangulator.fan_triangles.
  destruct (Nat.leb_spec (length (AdvancedOBJTriangulator.vertices f)) 3) as [Hle|Hgt];
    intro H.
  - destruct H as [<-|[]]. split; [reflexivity | left; now split].
  - apply in_map_iff in H. destruct H as (i & <- & _).
    split; [reflexivity | right; now split].
Qed.

Lemma fan_triangles_corners (f : AdvancedOBJTriangulator.face)
  (vd : AdvancedOBJTriangulator.vertex_data) :
  (exists t, In t (AdvancedOBJTriangulator.fan_triangles f) /\
             In vd (AdvancedOBJTriangulator.vertices t))
  <-> In vd (AdvancedOBJTriangulator.vertices f).
Proof.
  unfold AdvancedOBJTriangulator.fan_triangles.
  destruct (Nat.leb_spec (length (AdvancedOBJTriangulator.vertices f)) 3) as [Hle|Hgt].
  - split.
    + intros (t & [<-|[]] & H). exact H.
    + intro H. exists f. split; [now left | exact H].
  - set (d := {| AdvancedOBJTriangulator.vertex := None;
                 AdvancedOBJTriangulator.texcoord := None;
                 AdvancedOBJTriangulator.normal := None |}).
    set (vs := AdvancedOBJTriangulator.vertices f) in *.
    split.
    + intros (t & Ht & H). apply in_map_iff in Ht. destruct Ht as (i & <- & Hi).
      apply in_seq in Hi. cbn [AdvancedOBJTriangulator.vertices] in H.
      destruct H as [<-|[<-|[<-|[]]]]; apply nth_In; lia.
    + intro H. apply (In_nth _ _ d) in H. destruct H as (j & Hj & <-).
      assert (Hcase : (j = 0 \/ j = 1 \/ 2 <= j)%nat) by lia.
      destruct Hcase as [->|[->|Hj2]].
      * eexists. split.
        -- apply in_map_iff. exists 1%nat. split; [reflexivity|]. apply in_seq. lia.
        -- now left.
      * eexists. split.
        -- apply in_map_iff. exists 1%nat. split; [reflexivity|]. apply in_seq. lia.
        -- right. now left.
      * eexists. split.
        -- apply in_map_iff. exists (j - 1)%nat. split; [reflexivity|].
           apply in_seq. lia.
        -- right. right. left. f_equal. lia.
Qed.

(** X12. [triangulate_all_faces] never raises.  It reports the number of
    faces before and after; the number after is the sum over the faces of
    [max(1, n - 2)] for a face with [n] corners; and every resulting face is
    either a triangle or one of the original faces with at most three
    corners, left as it was. *)
Theorem triangulate_all_faces_counts (faces : list AdvancedOBJTriangulator.face) :
  exists triangulated,
    AdvancedOBJTriangulator.triangulate_all_faces faces
      = Returns (triangulated, (length faces, length triangulated)) /\
    length triangulated = list_sum (map AdvancedOBJTriangulator.triangle_count faces) /\
    Forall (fun t =>
              length (AdvancedOBJTriangulator.vertices t) = 3%nat \/
              (In t faces /\ (length (AdvancedOBJTriangulator.vertices t) <= 3)%nat))
      triangulated.
Proof.
  rewrite triangulate_all_faces_closed. eexists. split; [reflexivity|]. split.
  - induction faces as [|f faces IH]; cbn [flat_map map list_sum]; [reflexivity|].
    now rewrite length_app, fan_triangles_length, IH.
  - apply Forall_forall. intros t Ht. apply in_flat_map in Ht.
    destruct Ht as (f & Hf & Ht). apply fan_triangles_shape in Ht.
    destruct Ht as [_ [[-> Hle]|[H3 _]]]; [right; now split | now left].
Qed.

(** X13. Triangulating twice changes nothing: the result of
    [triangulate_all_faces] is a fixed point, and a second run reports the
    same count before and after. *)
Theorem triangulate_all_faces_idempotent (faces : list AdvancedOBJTriangulator.face) :
  exists triangulated counts,
    AdvancedOBJTriangulator.triangulate_all_faces faces = Returns (triangulated, counts) /\
    AdvancedOBJTriangulator.triangulate_all_faces triangulated
      = Returns (triangulated, (length triangulated, length triangulated)).
Proof.
  rewrite triangulate_all_faces_closed. eexists. eexists. split; [reflexivity|].
  rewrite triangulate_all_faces_closed.
  assert (Hfix : forall l,
             Forall (fun t => (length (AdvancedOBJTriangulator.vertices t) <= 3)%nat) l ->
             flat_map AdvancedOBJTriangulator.fan_triangles l = l).
  { induction 1 as [|t l Ht _ IH]; cbn [flat_map]; [reflexivity|].
    unfold AdvancedOBJTriangulator.fan_triangles at 1.
    destruct (Nat.leb_spec (length (AdvancedOBJTriangulator.vertices t)) 3); [|lia].
    now rewrite IH. }
  rewrite Hfix; [reflexivity|].
  apply Forall_forall. intros t Ht. apply in_flat_map in Ht.
  destruct Ht as (f & _ & Ht). apply fan_triangles_shape in Ht.
  destruct Ht as [_ [[-> Hle]|[H3 _]]]; lia.
Qed.

(** X14. Triangulation loses and invents nothing: a corner belongs to a
    resulting face of material [m] exactly when it belongs to an original
    face of material [m]; and the materials of the resulting faces, in
    order, are those of the original faces, each repeated once per
    triangle it was cut into. *)
Theorem triangulate_all_faces_keeps_corners (faces : list AdvancedOBJTriangulator.face) :
  exists triangulated counts,
    AdvancedOBJTriangulator.triangulate_all_faces faces = Returns (triangulated, counts) /\
    (forall m vd, AdvancedOBJTriangulator.has_corner triangulated m vd
                  <-> AdvancedOBJTriangulator.has_corner faces m vd) /\
    map AdvancedOBJTriangulator.material triangulated
    = flat_map (fun f => repeat (AdvancedOBJTriangulator.material f)
                           (AdvancedOBJTriangulator.triangle_count f)) faces.
Proof.
  rewrite triangulate_all_faces_closed. eexists. eexists. split; [reflexivity|]. split.
  - intros m vd. unfold AdvancedOBJTriangulator.has_corner. split.
    + intros (t & Ht & Hm & Hvd). apply in_flat_map in Ht. destruct Ht as (f & Hf & Ht).
      exists f. split; [exact Hf|]. split.
      * apply fan_triangles_shape in Ht. destruct Ht as [<- _]. exact Hm.
      * apply fan_triangles_corners. eauto.
    + intros (f & Hf & Hm & Hvd). apply fan_triangles_corners in Hvd.
      destruct Hvd as (t & Ht & Hvd). exists t. split; [|split; [|exact Hvd]].
      * apply in_flat_map. eauto.
      * apply fan_triangles_shape in Ht. destruct Ht as [-> _]. exact Hm.
  - induction faces as [|f faces IH]; cbn [flat_map map]; [reflexivity|].
    rewrite map_app, IH. f_equal.
    rewrite <- fan_triangles_length.
    assert (Hmat : forall l,
               (forall t, In t l ->
                  AdvancedOBJTriangulator.material t = AdvancedOBJTriangulator.material f) ->
               map AdvancedOBJTriangulator.material l
               = repeat (AdvancedOBJTriangulator.material f) (length l)).
    { induction l as [|t l IHl]; intro H; cbn [map repeat length]; [reflexivity|].
      rewrite (H t) by now left. f_equal. apply IHl. intros t' Ht'. apply H. now right. }
    apply Hmat. intros t Ht. now apply fan_triangles_shape in Ht.
Qed.

(** ** No stand is visited twice *)

Lemma FOP_of_nth {A : Type} (R : A -> A -> Prop) (l : list A) :
  (forall i j a b, (i < j)%nat -> nth_error l i = Some a -> nth_error l j = Some b -> R a b) ->
  ForallOrdPairs R l.
Proof.
  induction l as [|x l IH]; intro H; constructor.
  - apply Forall_forall. intros y Hy. apply In_nth_error in Hy. destruct Hy as (j & Hj).
    apply (H 0%nat (S j)); [lia | reflexivity | exact Hj].
  - apply IH. intros i j a b Hij Ha Hb. apply (H (S i) (S j)); [lia | exact Ha | exact Hb].
Qed.

Lemma FOP_impl {A : Type} (R R' : A -> A -> Prop) (l : list A) :
  (forall a b, R a b -> R' a b) -> ForallOrdPairs R l -> ForallOrdPairs R' l.
Proof.
  intro H. induction 1 as [|x l Hx _ IH]; constructor; [|exact IH].
  eapply Forall_impl; [|exact Hx]. intro y. apply H.
Qed.

Lemma FOP_app {A : Type} (R : A -> A -> Prop) (l1 l2 : list A) :
  ForallOrdPairs R l1 -> ForallOrdPairs R l2 ->
  (forall a b, In a l1 -> In b l2 -> R a b) ->
  ForallOrdPairs R (l1 ++ l2).
Proof.
  induction 1 as [|x l1 Hx _ IH]; intros H2 H12; simpl; [exact H2|].
  constructor.
  - apply Forall_app. split; [exact Hx|].
    apply Forall_forall. intros y Hy. apply H12; [now left | exact Hy].
  - apply IH; [exact H2|]. intros a b Ha Hb. apply H12; [now right | exact Hb].
Qed.

Lemma FOP_flat_map {A B : Type} (R : B -> B -> Prop) (f : A -> list B) (l : list A) :
  (forall a, In a l -> ForallOrdPairs R (f a)) ->
  ForallOrdPairs (fun a a' => forall b b', In b (f a) -> In b' (f a') -> R b b') l ->
  ForallOrdPairs R (flat_map f l).
Proof.
  intros Hin H. induction H as [|a l Ha _ IH]; simpl; [constructor|].
  apply FOP_app.
  - apply Hin. now left.
  - apply IH. intros a' Ha'. apply Hin. now right.
  - intros b b' Hb Hb'. apply in_flat_map in Hb'. destruct Hb' as (a' & Ha' & Hb').
    rewrite Forall_forall in Ha. exact (Ha a' Ha' b b' Hb Hb').
Qed.

Lemma FOP_app_l {A : Type} (R : A -> A -> Prop) (l1 l2 : list A) :
  ForallOrdPairs R (l1 ++ l2) -> ForallOrdPairs R l1.
Proof.
  induction l1 as [|x l1 IH]; intro H; [constructor|].
  inversion H as [|? ? Hx Hl]; subst. constructor.
  - apply Forall_app in Hx. tauto.
  - now apply IH.
Qed.

Lemma FOP_permutation {A : Type} (R : A -> A -> Prop) (l l' : list A) :
  (forall a b, R a b -> R b a) ->
  Permutation l l' -> ForallOrdPairs R l -> ForallOrdPairs R l'.
Proof.
  intro Hsym. induction 1 as [|x l l' P IH|x y l|l l' l'' _ IH1 _ IH2]; intro H.
  - exact H.
  - inversion H as [|? ? Hx Hl]; subst. constructor.
    + eapply Permutation_Forall; eassumption.
    + now apply IH.
  - inversion H as [|? ? Hy Hl]; subst. inversion Hl as [|? ? Hx Hl']; subst.
    inversion Hy as [|? ? Hyx Hyl]; subst.
    constructor; [constructor; [now apply Hsym | exact Hx]|].
    constructor; assumption.
  - auto.
Qed.

Lemma same_point_sym (p q : point) : same_point p q -> same_point q p.
Proof. intros [Hx Hy]. split; now symmetry. Qed.

Lemma distinct_stands_permutation (l l' : list point) :
  Permutation l l' -> distinct_stands l -> distinct_stands l'.
Proof.
  apply FOP_permutation. intros a b H Hs. apply H. now apply same_point_sym.
Qed.

Lemma sorted_distinct (l : list Q) :
  StronglySorted Qlt l -> ForallOrdPairs (fun a b => ~ a == b) l.
Proof.
  induction 1 as [|x l _ IH Hx]; constructor; [|exact IH].
  eapply Forall_impl; [|exact Hx]. intros y Hlt. now apply Qlt_not_eq.
Qed.

Lemma sorted_desc_distinct (l : list Q) :
  StronglySorted (fun a b => b < a) l -> ForallOrdPairs (fun a b => ~ a == b) l.
Proof.
  induction 1 as [|x l _ IH Hx]; constructor; [|exact IH].
  eapply Forall_impl; [|exact Hx]. intros y Hlt E.
  apply (Qlt_not_eq _ _ Hlt). apply Qeq_sym. exact E.
Qed.

Lemma FOP_map_inv {A B : Type} (R : B -> B -> Prop) (f : A -> B) (l : list A) :
  ForallOrdPairs R (map f l) -> ForallOrdPairs (fun a b => R (f a) (f b)) l.
Proof.
  induction l as [|x l IH]; intro H; [constructor|].
  inversion H as [|? ? Hx Hl]; subst. constructor; [|now apply IH].
  now rewrite Forall_map in Hx.
Qed.

Lemma arange_distinct (start stop step : Q) :
  0 < step -> ForallOrdPairs (fun a b => ~ a == b) (np.arange start stop step).
Proof. intro H. apply sorted_distinct. now apply arange_sorted. Qed.

Section Distinct.

Context `{G : Shapely}.
Variable scan_polygon : geom.

Lemma grid_candidates_distinct (xs ys : list Q) :
  ForallOrdPairs (fun a b => ~ a == b) xs ->
  ForallOrdPairs (fun a b => ~ a == b) ys ->
  distinct_stands (grid_candidates scan_polygon xs ys).
Proof.
  intros Hxs Hys. unfold grid_candidates, distinct_stands.
  apply FOP_flat_map.
  - intros x _. apply FOP_flat_map.
    + intros y _. destruct (contains scan_polygon (x, y)); repeat constructor.
    + eapply FOP_impl; [|exact Hys].
      intros y y' Hyy p q Hp Hq [_ Hs].
      destruct (contains scan_polygon (x, y)); [|destruct Hp].
      destruct (contains scan_polygon (x, y')); [|destruct Hq].
      destruct Hp as [<-|[]]. destruct Hq as [<-|[]]. exact (Hyy Hs).
  - eapply FOP_impl; [|exact Hxs].
    intros x x' Hxx p q Hp Hq [Hs _].
    apply in_flat_map in Hp. destruct Hp as (y & _ & Hp).
    apply in_flat_map in Hq. destruct Hq as (y' & _ & Hq).
    destruct (contains scan_polygon (x, y)); [|destruct Hp].
    destruct (contains scan_polygon (x', y')); [|destruct Hq].
    destruct Hp as [<-|[]]. destruct Hq as [<-|[]]. exact (Hxx Hs).
Qed.

End Distinct.

Lemma FOP_nth {A : Type} (R : A -> A -> Prop) (l : list A) :
  ForallOrdPairs R l ->
  forall i j a b, (i < j)%nat -> nth_error l i = Some a -> nth_error l j = Some b -> R a b.
Proof.
  induction 1 as [|x l Hx _ IH]; intros i j a b Hij Ha Hb.
  - destruct i; discriminate.
  - destruct j as [|j]; [lia|]. simpl in Hb. destruct i as [|i]; simpl in Ha.
    + injection Ha as <-. rewrite Forall_forall in Hx. apply Hx.
      eapply nth_error_In. exact Hb.
    + apply (IH i j); [lia | exact Ha | exact Hb].
Qed.

Lemma enumerate_from_nth_inv {A : Type} (l : list A) :
  forall a i ic, nth_error (Py.enumerate_from a l) i = Some ic ->
                 nth_error l i = Some (snd ic).
Proof.
  intros a i [j y] H. apply enumerate_from_nth in H. cbn [snd]. tauto.
Qed.

Lemma concat_as_flat_map {A : Type} (ls : list (list A)) :
  concat ls = flat_map (fun l => l) ls.
Proof. induction ls as [|l ls IH]; simpl; [reflexivity | now rewrite IH]. Qed.

Lemma scan_lines_distinct (proj : point -> Q) (line : nat -> Q -> outcome (list point)) :
  (forall p q, same_point p q -> proj p == proj q) ->
  (forall i c, exists pts, line i c = Returns pts /\
                           Forall (fun p => proj p = c) pts /\ distinct_stands pts) ->
  forall cs, ForallOrdPairs (fun a b => ~ a == b) cs ->
  exists path, scan_lines line (Py.enumerate cs) [] = Returns path /\ distinct_stands path.
Proof.
  intros Hproj Hline cs Hcs.
  destruct (scan_lines_concat line) with (positions := Py.enumerate cs)
    (scan_path := @nil point) as (lines & F & E).
  { intros i c. destruct (Hline i c) as (pts & Ep & _). eauto. }
  exists (concat lines). split; [exact E|].
  rewrite concat_as_flat_map.
  assert (Hl : forall k l, nth_error lines k = Some l ->
             exists c, nth_error cs k = Some c /\
                       Forall (fun p => proj p = c) l /\ distinct_stands l).
  { intros k l Hk. destruct (Forall2_nth_error_r _ _ _ F k l Hk) as (ic & Hic & Hr).
    apply enumerate_from_nth_inv in Hic.
    destruct (Hline (fst ic) (snd ic)) as (pts & Ep & Hp & Hd).
    rewrite Ep in Hr. injection Hr as <-. eauto. }
  apply FOP_flat_map.
  - intros l Hin. apply In_nth_error in Hin. destruct Hin as (k & Hk).
    destruct (Hl k l Hk) as (c & _ & _ & Hd). exact Hd.
  - apply FOP_of_nth. intros i j l1 l2 Hij H1 H2 p q Hp Hq Hs.
    destruct (Hl i l1 H1) as (c1 & Hc1 & Hp1 & _).
    destruct (Hl j l2 H2) as (c2 & Hc2 & Hp2 & _).
    rewrite Forall_forall in Hp1, Hp2.
    apply (FOP_nth _ _ Hcs i j c1 c2 Hij Hc1 Hc2).
    rewrite <- (Hp1 p Hp), <- (Hp2 q Hq). now apply Hproj.
Qed.

Section DistinctSweeps.

Context `{G : Shapely}.
Variable scan_polygon : geom.

Lemma parity_cases (i : nat) : (i mod 2 = 0 \/ i mod 2 = 1)%nat.
Proof. pose proof (Nat.mod_upper_bound i 2). lia. Qed.

Lemma horizontal_scan_distinct (min_x max_x min_y max_y step : Q) :
  0 < step ->
  exists path,
    _generate_horizontal_scan scan_polygon min_x max_x min_y max_y step = Returns path /\
    distinct_stands path.
Proof.
  intro Hstep. unfold _generate_horizontal_scan.
  apply (scan_lines_distinct snd).
  - intros p q [_ H]. exact H.
  - intros i y.
    destruct (horizontal_line_spec scan_polygon min_x max_x step i y Hstep)
      as (pts & Ep & Hy & _ & Heven & Hodd).
    exists pts. split; [exact Ep|]. split.
    + eapply Forall_impl; [|exact Hy]. intros p [Hp _]. exact Hp.
    + assert (Hd : ForallOrdPairs (fun a b => ~ a == b) (map fst pts)).
      { destruct (parity_cases i) as [Hp|Hp];
          [apply sorted_distinct, Heven, Hp | apply sorted_desc_distinct, Hodd, Hp]. }
      apply FOP_map_inv in Hd. eapply FOP_impl; [|exact Hd].
      intros p q Hn [Hs _]. exact (Hn Hs).
  - now apply arange_distinct.
Qed.

Lemma vertical_scan_distinct (min_x max_x min_y max_y step : Q) :
  0 < step ->
  exists path,
    _generate_vertical_scan scan_polygon min_x max_x min_y max_y step = Returns path /\
    distinct_stands path.
Proof.
  intro Hstep. unfold _generate_vertical_scan.
  apply (scan_lines_distinct fst).
  - intros p q [H _]. exact H.
  - intros i x.
    destruct (vertical_line_spec scan_polygon min_y max_y step i x Hstep)
      as (pts & Ep & Hx & _ & Heven & Hodd).
    exists pts. split; [exact Ep|]. split.
    + eapply Forall_impl; [|exact Hx]. intros p [Hp _]. exact Hp.
    + assert (Hd : ForallOrdPairs (fun a b => ~ a == b) (map snd pts)).
      { destruct (parity_cases i) as [Hp|Hp];
          [apply sorted_distinct, Heven, Hp | apply sorted_desc_distinct, Hodd, Hp]. }
      apply FOP_map_inv in Hd. eapply FOP_impl; [|exact Hd].
      intros p q Hn [_ Hs]. exact (Hn Hs).
  - now apply arange_distinct.
Qed.

Lemma grid_points_distinct (min_x max_x min_y max_y step : Q) :
  0 < step ->
  exists path,
    _generate_grid_points scan_polygon min_x max_x min_y max_y step = Returns path /\
    distinct_stands path.
Proof.
  intro Hstep. unfold _generate_grid_points.
  destruct (connect_grid_points_perm
              (grid_candidates scan_polygon (np.arange (min_x + step / 2) max_x step)
                 (np.arange (min_y + step / 2) max_y step))) as (path & E & P).
  exists path. split; [exact E|].
  eapply distinct_stands_permutation; [exact P|].
  apply grid_candidates_distinct; now apply arange_distinct.
Qed.

Lemma nth_step_positive (step : Q) (i : nat) : 0 < step -> 0 < nth_step step i.
Proof.
  revert step. induction i as [|i IH]; intros step H; cbn [nth_step]; [exact H|].
  apply IH. Lqa.lra.
Qed.

Lemma attempt_points_distinct (step : Q) (i : nat) :
  0 < step -> distinct_stands (attempt_points scan_polygon step i).
Proof.
  intro Hstep. unfold attempt_points.
  destruct (bounds scan_polygon) as [[[min_x min_y] max_x] max_y].
  unfold sample_grid.
  apply grid_candidates_distinct; apply arange_distinct; now apply nth_step_positive.
Qed.

End DistinctSweeps.

Section DistinctPlans.

Context `{G : Shapely}.

Lemma scan_region_centroid (house_polygon : geom) (boundary_distance : Q) (c : point) :
  scan_region house_polygon boundary_distance = Returns (CentroidOnly c) ->
  c = centroid house_polygon.
Proof.
  unfold scan_region.
  destruct (Qltb 0 boundary_distance); [|discriminate].
  destruct (buffer house_polygon (- boundary_distance)) as [inner|];
    cbn [library_call bind try_except]; [|discriminate].
  destruct (negb (is_valid inner) || is_empty inner); cbn [try_except];
    [congruence|].
  destruct (largest_piece inner); cbn [bind try_except]; discriminate.
Qed.



End DistinctPlans.



(** ** File sizes *)

Module FileSizeFacts.

Import String.
Local Open Scope string_scope.

Lemma nearest_binary64_small (n : Z) :
  (Z.abs n < 2 ^ 53)%Z -> FileSize.nearest_binary64 n = n.
Proof.
  intro H. unfold FileSize.nearest_binary64.
  replace (Z.log2 (Z.abs n) + 1 <=? 53)%Z with true; [reflexivity|].
  symmetry. apply Z.leb_le.
  destruct (Z.eq_dec (Z.abs n) 0) as [E|E].
  - rewrite E. cbn. lia.
  - assert (Hl : (Z.log2 (Z.abs n) < 53)%Z) by (apply Z.log2_lt_pow2; lia). lia.
Qed.

Lemma round_shift_ge (a shift : Z) :
  (a / 2 ^ shift <= FileSize.round_shift a shift)%Z.
Proof.
  unfold FileSize.round_shift.
  destruct (_ <? _)%Z; [lia|]. destruct (_ <? _)%Z; [lia|].
  destruct (Z.even _); lia.
Qed.

Lemma nearest_binary64_large (n : Z) :
  (2 ^ 53 <= n)%Z -> (2 ^ 53 <= FileSize.nearest_binary64 n)%Z.
Proof.
  intro H. unfold FileSize.nearest_binary64.
  assert (Hn : (0 < n)%Z) by lia.
  rewrite (Z.abs_eq n) by lia. rewrite (Z.sgn_pos n Hn).
  assert (HL : (53 <= Z.log2 n)%Z) by (apply Z.log2_le_pow2; lia).
  destruct (Z.log2_spec n Hn) as [Hlo _].
  replace (Z.log2 n + 1 <=? 53)%Z with false by (symmetry; apply Z.leb_gt; lia).
  set (s := (Z.log2 n + 1 - 53)%Z).
  assert (Hs : (0 < s)%Z) by (unfold s; lia).
  assert (Hq : (2 ^ 52 <= n / 2 ^ s)%Z).
  { apply Z.div_le_lower_bound; [apply Z.pow_pos_nonneg; lia|].
    rewrite <- Z.pow_add_r by lia. replace (s + 52)%Z with (Z.log2 n) by (unfold s; lia).
    exact Hlo. }
  pose proof (round_shift_ge n s) as Hr.
  assert (Hp : (0 < 2 ^ s)%Z) by (apply Z.pow_pos_nonneg; lia).
  assert (H1 : (2 ^ 52 * 2 ^ s <= FileSize.round_shift n s * 2 ^ s)%Z)
    by (apply Z.mul_le_mono_nonneg_r; lia).
  rewrite <- Z.pow_add_r in H1 by lia.
  replace (52 + s)%Z with (Z.log2 n) in H1 by (unfold s; lia).
  assert (H2 : (2 ^ 53 <= 2 ^ Z.log2 n)%Z) by (apply Z.pow_le_mono_r; lia).
  lia.
Qed.

(** Rounding does not move a byte count across a power of two up to 2^53. *)
Lemma nearest_binary64_threshold (n t : Z) :
  (0 <= n)%Z -> (t <= 2 ^ 53)%Z ->
  (t <=? FileSize.nearest_binary64 n)%Z = (t <=? n)%Z.
Proof.
  intros Hn Ht. destruct (Z_lt_le_dec n (2 ^ 53)) as [Hs|Hl].
  - rewrite nearest_binary64_small; [reflexivity | lia].
  - pose proof (nearest_binary64_large n Hl) as Hx.
    replace (t <=? n)%Z with true by (symmetry; apply Z.leb_le; lia).
    apply Z.leb_le. lia.
Qed.

Lemma scale_threshold_1 (n : Z) :
  Qle_bool 1024 (inject_Z n / 1024) = (1048576 <=? n)%Z.
Proof.
  apply Bool.eq_iff_eq_true. rewrite Qle_bool_iff, Z.leb_le.
  rewrite (Zle_Qle 1048576 n). change (inject_Z 1048576) with 1048576.
  generalize (inject_Z n). intro q.
  change (q / 1024) with (q * (1 # 1024)). split; intro H; Lqa.lra.
Qed.

Lemma scale_threshold_2 (n : Z) :
  Qle_bool 1024 (inject_Z n / 1024 / 1024) = (1073741824 <=? n)%Z.
Proof.
  apply Bool.eq_iff_eq_true. rewrite Qle_bool_iff, Z.leb_le.
  rewrite (Zle_Qle 1073741824 n). change (inject_Z 1073741824) with 1073741824.
  generalize (inject_Z n). intro q.
  change (q / 1024 / 1024) with (q * (1 # 1024) * (1 # 1024)). split; intro H; Lqa.lra.
Qed.

(** X15. [format_file_size] chooses the unit by the thresholds 1024,
    1024^2 and 1024^3 on the byte count: "0 B" for 0, bytes below 1024 (and
    for negative counts), then KB, MB, and GB for everything from 1024^3 on
    (no larger unit exists, so the number shown may exceed 1024).  The
    number shown, with one decimal, is the count divided by 1024 once per
    unit step, after the count has been rounded to the nearest binary64:
    the count itself below 2^53, a neighbour of 53 significant bits from
    there on, so that 2^60 + 2^28 + 1 bytes show as 1073741824.2 GB.  A
    count whose quotient by 1024 (or, below 1024, the count itself) is too
    large for a float raises [OverflowError]. *)
Theorem format_file_size_unit (size_bytes : Z) :
  let x := FileSize.nearest_binary64 size_bytes in
  ((Z.abs size_bytes < 2 ^ 53)%Z -> x = size_bytes) /\
  FileSize.format_file_size size_bytes =
    (if (size_bytes =? 0)%Z then Returns "0 B"
     else if (size_bytes <? 1024)%Z then
       if (2 ^ 1024 <=? Z.abs x)%Z then Raises OverflowError
       else Returns (FileSize.shown (inject_Z x) "B")
     else if (2 ^ 1034 <=? Z.abs x)%Z then Raises OverflowError
     else if (size_bytes <? 1048576)%Z
       then Returns (FileSize.shown (inject_Z x / 1024) "KB")
     else if (size_bytes <? 1073741824)%Z
       then Returns (FileSize.shown (inject_Z x / 1024 / 1024) "MB")
     else Returns (FileSize.shown (inject_Z x / 1024 / 1024 / 1024) "GB")) /\
  FileSize.format_file_size 1152921504875282433 = Returns "1073741824.2 GB" /\
  FileSize.format_file_size (2 ^ 1100) = Raises OverflowError.
Proof.
  cbv zeta. split; [apply nearest_binary64_small|].
  split; [|split; vm_compute; reflexivity].
  unfold FileSize.format_file_size.
  destruct (size_bytes =? 0)%Z; [reflexivity|].
  cbn [FileSize.size_names List.length Nat.sub FileSize.scale FileSize.ge_1024].
  rewrite (Z.leb_antisym size_bytes 1024).
  destruct (size_bytes <? 1024)%Z eqn:E1; cbn [negb bind].
  - unfold FileSize.format_1f, FileSize.float_of_int.
    destruct (2 ^ 1024 <=? Z.abs (FileSize.nearest_binary64 size_bytes))%Z;
      reflexivity.
  - apply Z.ltb_ge in E1. unfold FileSize.divide_by_1024 at 1.
    destruct (2 ^ 1034 <=? Z.abs (FileSize.nearest_binary64 size_bytes))%Z;
      [reflexivity|].
    cbn [bind FileSize.ge_1024].
    rewrite scale_threshold_1, (nearest_binary64_threshold size_bytes 1048576);
      [|lia|vm_compute; discriminate].
    rewrite (Z.leb_antisym size_bytes 1048576).
    destruct (size_bytes <? 1048576)%Z; cbn [negb bind]; [reflexivity|].
    unfold FileSize.divide_by_1024 at 1. cbn [bind FileSize.ge_1024].
    rewrite scale_threshold_2, (nearest_binary64_threshold size_bytes 1073741824);
      [|lia|vm_compute; discriminate].
    rewrite (Z.leb_antisym size_bytes 1073741824).
    destruct (size_bytes <? 1073741824)%Z; cbn [negb bind]; reflexivity.
Qed.

Lemma format_file_size_unit_witness :
  FileSize.nearest_binary64 1536 = 1536%Z /\
  FileSize.format_file_size 1536 = Returns "1.5 KB".
Proof.
  destruct (format_file_size_unit 1536) as (Hx & Hf & _).
  split; [apply Hx; reflexivity|].
  rewrite Hf. vm_compute. reflexivity.
Defined.

End FileSizeFacts.

(** * Properties in binary64 arithmetic *)

Module Binary64Facts.

Import Floats.
Import Binary64.
Local Open Scope float_scope.
#[local] Set Warnings "-inexact-float".

(** ** The order of binary64 *)

Lemma SFcompare_Lt_trans (a b c : spec_float) :
  SFcompare a b = Some Lt -> SFcompare b c = Some Lt -> SFcompare a c = Some Lt.
Proof.
  destruct a as [sa|sa| |sa ma ea], b as [sb|sb| |sb mb eb], c as [sc|sc| |sc mc ec];
    cbn [SFcompare]; try discriminate;
    try (destruct sa; discriminate); try (destruct sb; discriminate);
    try (destruct sc; discriminate);
    try (destruct sa, sb; discriminate); try (destruct sb, sc; discriminate);
    try (destruct sa, sc; (discriminate || reflexivity));
    try (destruct sa, sb, sc; (discriminate || reflexivity)).
  change (Pos.compare_cont Eq ma mb) with (Pos.compare ma mb).
  change (Pos.compare_cont Eq mb mc) with (Pos.compare mb mc).
  change (Pos.compare_cont Eq ma mc) with (Pos.compare ma mc).
  destruct sa, sb, sc; try discriminate; try reflexivity;
    destruct (Z.compare_spec ea eb), (Z.compare_spec eb ec), (Z.compare_spec ea ec);
    try discriminate; try reflexivity; try lia; subst;
    destruct (Pos.compare_spec ma mb), (Pos.compare_spec mb mc), (Pos.compare_spec ma mc);
    cbn [CompOpp]; try discriminate; try reflexivity; lia.
Qed.

Lemma SFcompare_Lt_irrefl (a : spec_float) : SFcompare a a <> Some Lt.
Proof.
  destruct a as [s|s| |s m e]; cbn [SFcompare]; try discriminate.
  - destruct s; discriminate.
  - rewrite Z.compare_refl.
    change (Pos.compare_cont Eq m m) with (Pos.compare m m). rewrite Pos.compare_refl.
    destruct s; discriminate.
Qed.

Lemma ltb_trans (x y z : float) :
  (x <? y) = true -> (y <? z) = true -> (x <? z) = true.
Proof.
  rewrite !ltb_spec. unfold SFltb. intros H1 H2.
  destruct (SFcompare (Prim2SF x) (Prim2SF y)) as [[| |]|] eqn:E1; try discriminate.
  destruct (SFcompare (Prim2SF y) (Prim2SF z)) as [[| |]|] eqn:E2; try discriminate.
  now rewrite (SFcompare_Lt_trans _ _ _ E1 E2).
Qed.

Lemma ltb_irrefl (x : float) : (x <? x) = false.
Proof.
  rewrite ltb_spec. unfold SFltb.
  destruct (SFcompare (Prim2SF x) (Prim2SF x)) as [[| |]|] eqn:E; try reflexivity.
  now apply SFcompare_Lt_irrefl in E.
Qed.

(** ** [min] and [max] under a strict order *)

Section StrictOrder.

Context {A : Type} (lt : A -> A -> bool).
Hypothesis lt_irrefl : forall x, lt x x = false.
Hypothesis lt_trans : forall x y z, lt x y = true -> lt y z = true -> lt x z = true.

Lemma min_from_minimal (l : list A) :
  forall cur,
    (lt (Py.min_from lt cur l) cur = true \/ Py.min_from lt cur l = cur) /\
    Forall (fun x => lt x (Py.min_from lt cur l) = false) (cur :: l).
Proof.
  induction l as [|x l IH]; intro cur; cbn [Py.min_from].
  - split; [now right|]. constructor; [apply lt_irrefl | constructor].
  - destruct (IH (if lt x cur then x else cur)) as [Hm Hall].
    set (m := Py.min_from lt (if lt x cur then x else cur) l) in *.
    inversion Hall as [|c' l' Hc' Hl]; subst.
    destruct (lt x cur) eqn:E.
    + split.
      * left. destruct Hm as [Hm | ->]; [now apply lt_trans with x | exact E].
      * constructor; [|now constructor].
        destruct (lt cur m) eqn:Ecm; [|reflexivity].
        destruct Hm as [Hm | Hm].
        -- pose proof (lt_trans _ _ _ (lt_trans _ _ _ Ecm Hm) E) as F.
           now rewrite lt_irrefl in F.
        -- rewrite Hm in Ecm. pose proof (lt_trans _ _ _ Ecm E) as F.
           now rewrite lt_irrefl in F.
    + split; [exact Hm|].
      constructor; [exact Hc'|]. constructor; [|exact Hl].
      destruct (lt x m) eqn:Exm; [|reflexivity].
      destruct Hm as [Hm | Hm].
      * now rewrite (lt_trans _ _ _ Exm Hm) in E.
      * rewrite Hm in Exm. now rewrite Exm in E.
Qed.

Lemma min_minimal (l : list A) (m : A) :
  Py.min lt l = Returns m -> In m l /\ Forall (fun x => lt x m = false) l.
Proof.
  intro E. split; [exact (min_in _ _ _ E)|].
  destruct l as [|x l]; [discriminate|].
  cbn [Py.min] in E. injection E as <-. apply min_from_minimal.
Qed.

End StrictOrder.

Lemma float_min_spec (l : list float) (m : float) :
  Py.min ltb l = Returns m -> In m l /\ Forall (fun x => (x <? m) = false) l.
Proof. apply min_minimal; [apply ltb_irrefl | apply ltb_trans]. Qed.

Lemma float_max_spec (l : list float) (m : float) :
  Py.max ltb l = Returns m -> In m l /\ Forall (fun x => (m <? x) = false) l.
Proof.
  unfold Py.max. apply (min_minimal (fun a b => b <? a)).
  - intro x. apply ltb_irrefl.
  - intros x y z H1 H2. exact (ltb_trans _ _ _ H2 H1).
Qed.

(** ** [np.arange] *)

Lemma arange_spec (kind : scalar) (start stop step : float) (items : list float) :
  np.arange kind start stop step = Returns items <->
  exists n, np._calc_length kind start stop step = Returns n /\
            items = map (np.item start (start + step)) (seq 0 (Z.to_nat n)).
Proof.
  unfold np.arange.
  destruct (np._calc_length kind start stop step) as [n| |]; cbn [bind].
  - destruct (n <=? 0)%Z eqn:E.
    + apply Z.leb_le in E. assert (Hz : Z.to_nat n = 0%nat) by lia.
      split.
      * intros [= <-]. exists n. rewrite Hz. now split.
      * intros (n' & [= <-] & ->). now rewrite Hz.
    + split.
      * intros [= <-]. exists n. now split.
      * intros (n' & [= <-] & ->). reflexivity.
  - split; [discriminate | intros (n & H & _); discriminate].
  - split; [discriminate | intros (n & H & _); discriminate].
Qed.

Lemma arange_items (kind : scalar) (start stop step : float) (items : list float) :
  np.arange kind start stop step = Returns items ->
  exists n, np._calc_length kind start stop step = Returns n /\
            length items = Z.to_nat n /\
            forall i, (i < length items)%nat ->
                      nth_error items i = Some (np.item start (start + step) i).
Proof.
  intro E. apply arange_spec in E. destruct E as (n & En & ->).
  exists n. split; [exact En|]. rewrite length_map, length_seq. split; [reflexivity|].
  intros i Hi. rewrite nth_error_map, nth_error_seq.
  apply Nat.ltb_lt in Hi. now rewrite Hi.
Qed.

Lemma arange_zero_step (start stop step : float) :
  (step =? 0) = true ->
  np.arange python_float start stop step = Raises ZeroDivisionError.
Proof.
  intro E. unfold np.arange, np._calc_length, true_divide. now rewrite E.
Qed.

Lemma arange_never_out_of_fuel (kind : scalar) (start stop step : float) :
  np.arange kind start stop step <> OutOfFuel.
Proof.
  unfold np.arange, np._calc_length, true_divide, np._arange_safe_ceil_to_intp.
  destruct kind; [destruct (step =? 0); [discriminate|]|]; cbn [bind];
    repeat match goal with
           | |- context [if ?c then _ else _] => destruct c; cbn [bind]
           | |- context [match Prim2SF ?v with _ => _ end] => destruct (Prim2SF v); cbn [bind]
           end; discriminate.
Qed.

(** ** The sweeps *)

Lemma scan_lines_inv (line : nat -> float -> outcome (list point)) :
  forall positions scan_path path,
    scan_lines line positions scan_path = Returns path <->
    exists lines,
      Forall2 (fun ic pts => line (fst ic) (snd ic) = Returns pts) positions lines /\
      path = scan_path ++ concat lines.
Proof.
  induction positions as [|[i c] positions IH]; intros scan_path path; cbn [scan_lines].
  - split.
    + intros [= <-]. exists []. split; [constructor|]. cbn [concat]. now rewrite app_nil_r.
    + intros (lines & F & ->). inversion F. cbn [concat]. now rewrite app_nil_r.
  - destruct (line i c) as [pts| |] eqn:E; cbn [bind].
    + rewrite IH. split.
      * intros (lines & F & ->). exists (pts :: lines). split; [now constructor|].
        cbn [concat]. now rewrite app_assoc.
      * intros (lines & F & ->). inversion F as [|ic pts' ps lines' Hpts F']; subst.
        cbn [fst snd] in Hpts. rewrite E in Hpts. injection Hpts as <-.
        exists lines'. split; [exact F'|]. cbn [concat]. now rewrite app_assoc.
    + split; [discriminate|]. intros (lines & F & _).
      inversion F as [|ic pts' ps lines' Hpts F']; subst.
      cbn [fst snd] in Hpts. congruence.
    + split; [discriminate|]. intros (lines & F & _).
      inversion F as [|ic pts' ps lines' Hpts F']; subst.
      cbn [fst snd] in Hpts. congruence.
Qed.

Lemma filter_map_swap {A B : Type} (f : A -> B) (p : B -> bool) (l : list A) :
  filter p (map f l) = map f (filter (fun a => p (f a)) l).
Proof.
  induction l as [|a l IH]; cbn [map filter]; [reflexivity|].
  destruct (p (f a)); cbn [map]; now rewrite IH.
Qed.

Section Lines.

Context `{G : Shapely}.
Variable scan_polygon : geom.

Lemma scan_line_spec (place : float -> point) (lo hi step : float) (i : nat)
  (line : list point) :
  scan_line scan_polygon place lo hi step i = Returns line <->
  serpentine_line scan_polygon place lo hi step i line.
Proof.
  unfold scan_line, serpentine_line.
  destruct (np.arange python_float lo (hi + step / 20) (step / 20))
    as [test_points| |] eqn:Et; cbn [bind].
  2, 3: split; [discriminate | intros (t & Ht & _); discriminate].
  set (span := filter (fun c => contains scan_polygon (place c)) test_points).
  split.
  - intro E. exists test_points. split; [reflexivity|]. cbv zeta. fold span.
    destruct span as [|c0 span'] eqn:Es.
    + injection E as <-. split; [reflexivity | congruence].
    + destruct (Py.min ltb (c0 :: span')) as [c_start| |] eqn:Emin; cbn [bind] in E;
        try discriminate.
      destruct (Py.max ltb (c0 :: span')) as [c_end| |] eqn:Emax; cbn [bind] in E;
        try discriminate.
      destruct (np.arange numpy_float64 c_start (c_end + step / 2) step)
        as [stands| |] eqn:Ea; cbn [bind] in E; try discriminate.
      injection E as <-. split; [discriminate|]. intros _.
      destruct (float_min_spec _ _ Emin) as [Imin Hmin].
      destruct (float_max_spec _ _ Emax) as [Imax Hmax].
      exists c_start, c_end, stands.
      split; [reflexivity|]. split; [reflexivity|].
      split; [exact Imin|]. split; [exact Imax|]. split.
      { rewrite Forall_forall in *. intros c Hc. split; auto. }
      split; [exact Ea|]. split; [apply filter_map_swap|].
      intro Hsorted. destruct (i mod 2 =? 1)%nat.
      * apply StronglySorted_filter. now apply StronglySorted_rev.
      * now apply StronglySorted_filter.
  - intros (t & [= <-] & Hempty & Hspan). cbv zeta in Hempty, Hspan.
    fold span in Hempty, Hspan.
    destruct span as [|c0 span'] eqn:Es.
    + now rewrite Hempty.
    + destruct Hspan as (c_start & c_end & stands & Emin & Emax & _ & _ & _ & Ea & El & _);
        [discriminate|].
      rewrite Emin, Emax. cbn [bind]. rewrite Ea. cbn [bind].
      rewrite El. now rewrite filter_map_swap.
Qed.

Lemma scan_line_contained (place : float -> point) (lo hi step : float) (i : nat)
  (line : list point) :
  scan_line scan_polygon place lo hi step i = Returns line ->
  Forall (fun p => contains scan_polygon p = true) line.
Proof.
  unfold scan_line.
  destruct (np.arange python_float lo (hi + step / 20) (step / 20)) as [tp| |];
    cbn [bind]; try discriminate.
  destruct (filter _ tp) as [|c0 span].
  - intros [= <-]. constructor.
  - destruct (Py.min ltb (c0 :: span)); cbn [bind]; try discriminate.
    destruct (Py.max ltb (c0 :: span)); cbn [bind]; try discriminate.
    destruct (np.arange numpy_float64 _ _ _); cbn [bind]; try discriminate.
    intros [= <-]. apply Forall_forall. intros p Hp. now apply filter_In in Hp.
Qed.

Lemma scan_line_never_out_of_fuel (place : float -> point) (lo hi step : float) (i : nat) :
  scan_line scan_polygon place lo hi step i <> OutOfFuel.
Proof.
  unfold scan_line.
  pose proof (arange_never_out_of_fuel python_float lo (hi + step / 20) (step / 20)) as H1.
  destruct (np.arange python_float lo (hi + step / 20) (step / 20)) as [tp| |];
    cbn [bind]; try congruence.
  destruct (filter _ tp) as [|c0 span]; [discriminate|].
  destruct (min_total ltb (c0 :: span)) as (a & ->); [discriminate|].
  destruct (max_total ltb (c0 :: span)) as (b & ->); [discriminate|]. cbn [bind].
  pose proof (arange_never_out_of_fuel numpy_float64 a (b + step / 2) step) as H2.
  destruct (np.arange numpy_float64 a (b + step / 2) step); cbn [bind]; congruence.
Qed.

End Lines.

Lemma scan_lines_ext (line1 line2 : nat -> float -> outcome (list point)) :
  (forall i c, line1 i c = line2 i c) ->
  forall positions scan_path,
    scan_lines line1 positions scan_path = scan_lines line2 positions scan_path.
Proof.
  intro H. induction positions as [|[i c] positions IH]; intro scan_path; cbn [scan_lines].
  - reflexivity.
  - rewrite H. destruct (line2 i c); cbn [bind]; [apply IH | reflexivity | reflexivity].
Qed.

(** A sweep sees the region only through its containment test. *)
Lemma scan_line_ext (G1 G2 : Shapely) (g1 : geom (Shapely := G1))
  (g2 : geom (Shapely := G2)) (place : float -> point) (lo hi step : float) (i : nat) :
  (forall p, contains g1 p = contains g2 p) ->
  scan_line g1 place lo hi step i = scan_line g2 place lo hi step i.
Proof.
  intro H. unfold scan_line.
  destruct (np.arange python_float lo (hi + step / 20) (step / 20)) as [tp| |];
    cbn [bind]; try reflexivity.
  rewrite (filter_ext _ (fun c => contains g2 (place c))) by (intro; apply H).
  destruct (filter _ tp); [reflexivity|].
  destruct (Py.min ltb _); cbn [bind]; try reflexivity.
  destruct (Py.max ltb _); cbn [bind]; try reflexivity.
  destruct (np.arange numpy_float64 _ _ _); cbn [bind]; try reflexivity.
  now rewrite (filter_ext _ (contains g2)) by (intro; apply H).
Qed.

Lemma horizontal_scan_ext (G1 G2 : Shapely) (g1 : geom (Shapely := G1))
  (g2 : geom (Shapely := G2)) (min_x max_x min_y max_y step : float) :
  (forall p, contains g1 p = contains g2 p) ->
  _generate_horizontal_scan g1 min_x max_x min_y max_y step
  = _generate_horizontal_scan g2 min_x max_x min_y max_y step.
Proof.
  intro H. unfold _generate_horizontal_scan.
  destruct (np.arange python_float (min_y + step / 2) max_y step); cbn [bind];
    try reflexivity.
  apply scan_lines_ext. intros i y. now apply scan_line_ext.
Qed.

Lemma vertical_scan_ext (G1 G2 : Shapely) (g1 : geom (Shapely := G1))
  (g2 : geom (Shapely := G2)) (min_x max_x min_y max_y step : float) :
  (forall p, contains g1 p = contains g2 p) ->
  _generate_vertical_scan g1 min_x max_x min_y max_y step
  = _generate_vertical_scan g2 min_x max_x min_y max_y step.
Proof.
  intro H. unfold _generate_vertical_scan.
  destruct (np.arange python_float (min_x + step / 2) max_x step); cbn [bind];
    try reflexivity.
  apply scan_lines_ext. intros i y. now apply scan_line_ext.
Qed.

Lemma sweep_lines_spec `{G : Shapely} (scan_polygon : geom)
  (line : nat -> float -> outcome (list point)) (place : float -> float -> point)
  (lo hi step start stop : float) (path : list point) :
  (forall i c, line i c = scan_line scan_polygon (place c) lo hi step i) ->
  (positions <- np.arange python_float start stop step ;;
   scan_lines line (Py.enumerate positions) []) = Returns path <->
  exists positions lines,
    np.arange python_float start stop step = Returns positions /\
    Forall2 (fun ic pts =>
               serpentine_line scan_polygon (place (snd ic)) lo hi step (fst ic) pts)
            (Py.enumerate positions) lines /\
    path = concat lines.
Proof.
  intro Hline.
  destruct (np.arange python_float start stop step) as [positions| |]; cbn [bind].
  - rewrite scan_lines_inv. cbn [app]. split.
    + intros (lines & F & ->). exists positions, lines. split; [reflexivity|].
      split; [|reflexivity].
      eapply Forall2_impl; [|exact F]. intros [i c] pts Hpts. cbn [fst snd] in *.
      rewrite Hline in Hpts. now apply scan_line_spec.
    + intros (positions' & lines & [= <-] & F & ->). exists lines. split; [|reflexivity].
      eapply Forall2_impl; [|exact F]. intros [i c] pts Hpts. cbn [fst snd] in *.
      rewrite Hline. now apply scan_line_spec.
  - split; [discriminate | intros (p & l & H & _); discriminate].
  - split; [discriminate | intros (p & l & H & _); discriminate].
Qed.

(** ** The greedy connection of the stands *)

Lemma index_eq_refl (x : float) : index_eq x x = true.
Proof. unfold index_eq, is_nan. now destruct (x =? x). Qed.

Section Greedy.

Context `{N : NumPy}.

Lemma grid_nearest_loop_permutes :
  forall fuel current unvisited scan_path,
    (length unvisited <= fuel)%nat ->
    exists out, grid_nearest_loop fuel current unvisited scan_path = Returns out
                /\ Permutation (scan_path ++ unvisited) out.
Proof.
  induction fuel as [|fuel IH]; intros current unvisited scan_path Hlen.
  - destruct unvisited; simpl in Hlen; [|lia].
    exists scan_path. simpl. now rewrite app_nil_r.
  - destruct unvisited as [|u us].
    + exists scan_path. simpl. now rewrite app_nil_r.
    + cbn [grid_nearest_loop].
      match goal with |- context [Py.min _ ?d] => set (distances := d) end.
      destruct (min_total ltb distances) as (m & Em); [discriminate|].
      rewrite Em. cbn [bind].
      destruct (index_total index_eq distances m index_eq_refl (min_in _ _ _ Em))
        as (i & Ei & Li).
      rewrite Ei. cbn [bind].
      unfold distances in Li. rewrite length_map in Li.
      destruct (pop_total (u :: us) i Li) as (c & rest & Ep).
      rewrite Ep. cbn [bind].
      destruct (pop_spec _ _ _ _ Ep) as [P L].
      destruct (IH c rest (scan_path ++ [c])) as (out & Eo & Po).
      { simpl in Hlen, L. lia. }
      exists out. split; [exact Eo|].
      rewrite <- Po, P, <- app_assoc. reflexivity.
Qed.

Lemma nearest_neighbor_loop_permutes :
  forall fuel unvisited path,
    (length unvisited <= fuel)%nat -> path <> [] ->
    exists out, nearest_neighbor_loop fuel unvisited path = Returns out
                /\ Permutation (path ++ unvisited) out.
Proof.
  induction fuel as [|fuel IH]; intros unvisited path Hlen Hne.
  - destruct unvisited; simpl in Hlen; [|lia].
    exists path. simpl. now rewrite app_nil_r.
  - destruct unvisited as [|u us].
    + exists path. simpl. now rewrite app_nil_r.
    + cbn [nearest_neighbor_loop].
      destruct (exists_last Hne) as (path' & current & ->).
      rewrite last_item_app. cbn [bind].
      match goal with |- context [Py.min_key _ ?k _] => set (key := k) end.
      unfold Py.min_key.
      destruct (min_total (fun a b => ltb (key a) (key b)) (seq 0 (length (u :: us))))
        as (i & Ei); [discriminate|].
      rewrite Ei. cbn [bind].
      apply min_in, in_seq in Ei.
      destruct (pop_total (u :: us) i) as (c & rest & Ep); [lia|].
      rewrite Ep. cbn [bind].
      destruct (pop_spec _ _ _ _ Ep) as [P L].
      destruct (IH rest ((path' ++ [current]) ++ [c])) as (out & Eo & Po).
      { simpl in Hlen, L. lia. }
      { intro E. apply app_eq_nil in E. destruct E; discriminate. }
      exists out. split; [exact Eo|].
      rewrite <- Po, P, <- !app_assoc. reflexivity.
Qed.

Lemma connect_grid_points_permutes (grid_points : list point) :
  exists path, connect_grid_points grid_points = Returns path
               /\ Permutation grid_points path.
Proof.
  destruct grid_points as [|p ps].
  - exists []. split; reflexivity.
  - unfold connect_grid_points. cbn [Py.pop bind].
    destruct (grid_nearest_loop_permutes (length ps) p ps [p]) as (out & E & P); [lia|].
    exists out. split; [exact E | exact P].
Qed.

Lemma nearest_neighbor_path_permutes (points : list point) :
  exists path, nearest_neighbor_path points = Returns path
               /\ Permutation points path.
Proof.
  unfold nearest_neighbor_path.
  destruct (length points <=? 1)%nat eqn:E.
  - exists points. split; reflexivity.
  - destruct points as [|p ps]; [discriminate|]. cbn [Py.pop bind].
    destruct (nearest_neighbor_loop_permutes (length ps) ps [p]) as (out & Eo & P);
      [lia|discriminate|].
    exists out. split; [exact Eo | exact P].
Qed.

End Greedy.

(** ** What the planners can raise *)

Lemma arange_raises (kind : scalar) (start stop step : float) (e : exn) :
  np.arange kind start stop step = Raises e -> arange_error e.
Proof.
  unfold np.arange, np._calc_length, true_divide, np._arange_safe_ceil_to_intp, arange_error.
  destruct kind; [destruct (step =? 0); [intros [= <-]; tauto|]|]; cbn [bind];
    repeat match goal with
           | |- context [if ?c then _ else _] => destruct c; cbn [bind]
           | |- context [match Prim2SF ?v with _ => _ end] => destruct (Prim2SF v); cbn [bind]
           end; intros [= <-] || discriminate; tauto.
Qed.

Section Region.

Context `{G : Shapely}.

Lemma largest_piece_never_runs_out (inner_polygon : geom) :
  largest_piece inner_polygon <> OutOfFuel.
Proof.
  unfold largest_piece. destruct (geoms inner_polygon) as [pieces|]; [|discriminate].
  destruct (Py.max ltb (map area pieces)) as [m| |] eqn:Em; cbn [bind];
    [|discriminate|].
  - pose proof (index_never_out_of_fuel index_eq m (map area pieces)) as Hi.
    destruct (Py.index index_eq (map area pieces) m); cbn [bind];
      [|discriminate|congruence].
    unfold Py.getitem. destruct (nth_error pieces a); discriminate.
  - destruct (map area pieces); discriminate.
Qed.

Lemma scan_region_cases (house_polygon : geom) (boundary_distance : float) :
  scan_region house_polygon boundary_distance
  = Returns (CentroidOnly (centroid house_polygon)) \/
  exists scan_polygon,
    scan_region house_polygon boundary_distance = Returns (ScanPolygon scan_polygon).
Proof.
  unfold scan_region. destruct (0 <? boundary_distance); [|right; eauto].
  destruct (buffer house_polygon (- boundary_distance)) as [inner|];
    cbn [library_call bind try_except]; [|right; eauto].
  destruct (negb (is_valid inner) || is_empty inner); cbn [try_except]; [now left|].
  pose proof (largest_piece_never_runs_out inner) as Hf.
  destruct (largest_piece inner); cbn [bind try_except]; [right; eauto | right; eauto|].
  congruence.
Qed.

Lemma scan_line_raises (scan_polygon : geom) (place : float -> point)
  (lo hi step : float) (i : nat) (e : exn) :
  scan_line scan_polygon place lo hi step i = Raises e -> arange_error e.
Proof.
  unfold scan_line.
  destruct (np.arange python_float lo (hi + step / 20) (step / 20)) as [tp| |] eqn:E1;
    cbn [bind]; [|intros [= <-]; exact (arange_raises _ _ _ _ _ E1)|discriminate].
  destruct (filter _ tp) as [|c0 span]; [discriminate|].
  destruct (min_total ltb (c0 :: span)) as (a & ->); [discriminate|].
  destruct (max_total ltb (c0 :: span)) as (b & ->); [discriminate|]. cbn [bind].
  destruct (np.arange numpy_float64 a (b + step / 2) step) eqn:E2; cbn [bind];
    [discriminate|intros [= <-]; exact (arange_raises _ _ _ _ _ E2)|discriminate].
Qed.

Lemma scan_lines_outcome (scan_polygon : geom)
  (line : nat -> float -> outcome (list point)) :
  (forall i c pts, line i c = Returns pts ->
                   Forall (fun p => contains scan_polygon p = true) pts) ->
  (forall i c e, line i c = Raises e -> arange_error e) ->
  (forall i c, line i c <> OutOfFuel) ->
  forall positions scan_path,
    Forall (fun p => contains scan_polygon p = true) scan_path ->
    match scan_lines line positions scan_path with
    | Returns path => Forall (fun p => contains scan_polygon p = true) path
    | Raises e => arange_error e
    | OutOfFuel => False
    end.
Proof.
  intros Hret Hraise Hfuel.
  induction positions as [|[i c] positions IH]; intros scan_path Hacc; cbn [scan_lines].
  - exact Hacc.
  - destruct (line i c) as [pts|e|] eqn:E; cbn [bind].
    + apply IH. apply Forall_app. split; [exact Hacc | exact (Hret _ _ _ E)].
    + exact (Hraise _ _ _ E).
    + exact (Hfuel _ _ E).
Qed.

(** Each sweep returns contained points, or raises what [np.arange] raised. *)
Lemma horizontal_scan_outcome (scan_polygon : geom) (min_x max_x min_y max_y step : float) :
  match _generate_horizontal_scan scan_polygon min_x max_x min_y max_y step with
  | Returns path => Forall (fun p => contains scan_polygon p = true) path
  | Raises e => arange_error e
  | OutOfFuel => False
  end.
Proof.
  unfold _generate_horizontal_scan.
  pose proof (arange_never_out_of_fuel python_float (min_y + step / 2) max_y step) as Hf.
  destruct (np.arange python_float (min_y + step / 2) max_y step) eqn:E; cbn [bind];
    [|exact (arange_raises _ _ _ _ _ E)|congruence].
  apply scan_lines_outcome; [| | |constructor]; unfold horizontal_line.
  - intros i c pts. apply scan_line_contained.
  - intros i c e. apply scan_line_raises.
  - intros i c. apply scan_line_never_out_of_fuel.
Qed.

Lemma vertical_scan_outcome (scan_polygon : geom) (min_x max_x min_y max_y step : float) :
  match _generate_vertical_scan scan_polygon min_x max_x min_y max_y step with
  | Returns path => Forall (fun p => contains scan_polygon p = true) path
  | Raises e => arange_error e
  | OutOfFuel => False
  end.
Proof.
  unfold _generate_vertical_scan.
  pose proof (arange_never_out_of_fuel python_float (min_x + step / 2) max_x step) as Hf.
  destruct (np.arange python_float (min_x + step / 2) max_x step) eqn:E; cbn [bind];
    [|exact (arange_raises _ _ _ _ _ E)|congruence].
  apply scan_lines_outcome; [| | |constructor]; unfold vertical_line.
  - intros i c pts. apply scan_line_contained.
  - intros i c e. apply scan_line_raises.
  - intros i c. apply scan_line_never_out_of_fuel.
Qed.

Lemma grid_candidates_inside (scan_polygon : geom) (xs ys : list float) :
  Forall (fun p => contains scan_polygon p = true) (grid_candidates scan_polygon xs ys).
Proof.
  apply Forall_forall. intros p Hp. unfold grid_candidates in Hp.
  apply in_flat_map in Hp. destruct Hp as (x & _ & Hp).
  apply in_flat_map in Hp. destruct Hp as (y & _ & Hp).
  destruct (contains scan_polygon (x, y)) eqn:E; simpl in Hp; [|tauto].
  destruct Hp as [<-|[]]. exact E.
Qed.

Lemma grid_points_outcome `{N : NumPy} (scan_polygon : geom)
  (min_x max_x min_y max_y step : float) :
  match _generate_grid_points scan_polygon min_x max_x min_y max_y step with
  | Returns path => Forall (fun p => contains scan_polygon p = true) path
  | Raises e => arange_error e
  | OutOfFuel => False
  end.
Proof.
  unfold _generate_grid_points.
  pose proof (arange_never_out_of_fuel python_float (min_x + step / 2) max_x step) as Hfx.
  destruct (np.arange python_float (min_x + step / 2) max_x step) as [xs| |] eqn:Ex;
    cbn [bind]; [|exact (arange_raises _ _ _ _ _ Ex)|congruence].
  pose proof (arange_never_out_of_fuel python_float (min_y + step / 2) max_y step) as Hfy.
  destruct (np.arange python_float (min_y + step / 2) max_y step) as [ys| |] eqn:Ey;
    cbn [bind]; [|exact (arange_raises _ _ _ _ _ Ey)|congruence].
  destruct (connect_grid_points_permutes (grid_candidates scan_polygon xs ys))
    as (path & -> & P).
  eapply Permutation_Forall; [exact P | apply grid_candidates_inside].
Qed.

Lemma grid_scan_over_outcome `{N : NumPy} (self : HeliosSceneGenerator)
  (scan_polygon : geom) (step : float) :
  match grid_scan_over self scan_polygon step with
  | Returns path =>
      path <> [] /\
      (path = [centroid scan_polygon] \/
       Forall (fun p => contains scan_polygon p = true) path)
  | Raises e => arange_error e
  | OutOfFuel => False
  end.
Proof.
  unfold grid_scan_over.
  destruct (bounds scan_polygon) as [[[min_x min_y] max_x] max_y].
  pose proof (horizontal_scan_outcome scan_polygon min_x max_x min_y max_y step) as Hh.
  pose proof (vertical_scan_outcome scan_polygon min_x max_x min_y max_y step) as Hv.
  pose proof (grid_points_outcome scan_polygon min_x max_x min_y max_y step) as Hg.
  assert (Hfin : forall scan_path : list point,
            Forall (fun p => contains scan_polygon p = true) scan_path ->
            match (match scan_path with
                   | [] => Returns [centroid scan_polygon]
                   | _ :: _ => Returns scan_path
                   end) with
            | Returns path =>
                path <> [] /\
                (path = [centroid scan_polygon] \/
                 Forall (fun p => contains scan_polygon p = true) path)
            | Raises e => arange_error e
            | OutOfFuel => False
            end).
  { intros [|p ps] Hc; (split; [discriminate|]); [now left | now right]. }
  destruct (scan_direction self).
  - destruct (_generate_horizontal_scan _ _ _ _ _ _); cbn [bind]; try assumption.
    now apply Hfin.
  - destruct (_generate_vertical_scan _ _ _ _ _ _); cbn [bind]; try assumption.
    now apply Hfin.
  - destruct (_generate_horizontal_scan _ _ _ _ _ _) as [hp| |]; cbn [bind];
      try assumption.
    destruct (_generate_vertical_scan _ _ _ _ _ _) as [vp| |]; cbn [bind];
      try assumption.
    apply Hfin. apply Forall_app. now split.
  - destruct (_generate_grid_points _ _ _ _ _ _); cbn [bind]; try assumption.
    now apply Hfin.
Qed.

Lemma grid_scan_over_zero_step `{N : NumPy} (self : HeliosSceneGenerator)
  (scan_polygon : geom) (step : float) :
  (step =? 0) = true ->
  grid_scan_over self scan_polygon step = Raises ZeroDivisionError.
Proof.
  intro Hstep. unfold grid_scan_over.
  destruct (bounds scan_polygon) as [[[min_x min_y] max_x] max_y].
  unfold _generate_horizontal_scan, _generate_vertical_scan, _generate_grid_points.
  destruct (scan_direction self); now rewrite arange_zero_step.
Qed.

End Region.

(** ** The serpentine sweeps *)



(** X1. The vertical sweep is the horizontal one with the axes exchanged:
    it returns a path exactly when [np.arange] returns the abscissas of the
    scan columns and, on every column, the fine samples and the stands, and
    every point of the path passes the containment test of the region;
    column 0 lies at [min_x + step/2], column [i] at
    [min_x + step/2 + i * delta], and a column holds exactly the stands of
    [np.arange(y_start, y_end + step/2, step)] inside the region, in the
    order of the stands when the index of the column is even and reversed
    when it is odd.  A step of 0 raises [ZeroDivisionError].  On the open
    square (1,9) x (1,9) with step 2 the columns are x = 2, 4, 6, 8, visited
    at y = 1.1, 3.1, 5.1, 7.1, the columns of index 1 and 3 downwards. *)
Theorem vertical_sweep_is_serpentine `{G : Shapely} :
  (forall scan_polygon min_x max_x min_y max_y step path,
     _generate_vertical_scan scan_polygon min_x max_x min_y max_y step = Returns path <->
     exists x_positions columns,
       np.arange python_float (min_x + step / 2) max_x step = Returns x_positions /\
       Forall2 (fun ix column =>
                  serpentine_line scan_polygon (fun y => (snd ix, y)) min_y max_y step
                    (fst ix) column)
               (Py.enumerate x_positions) columns /\
       path = concat columns) /\
  (forall scan_polygon min_x max_x min_y max_y step path,
     _generate_vertical_scan scan_polygon min_x max_x min_y max_y step = Returns path ->
     Forall (fun p => contains scan_polygon p = true) path) /\
  (forall min_x max_x step x_positions,
     np.arange python_float (min_x + step / 2) max_x step = Returns x_positions ->
     exists n,
       np._calc_length python_float (min_x + step / 2) max_x step = Returns n /\
       length x_positions = Z.to_nat n /\
       forall i, (i < length x_positions)%nat ->
         nth_error x_positions i
         = Some (np.item (min_x + step / 2) (min_x + step / 2 + step) i)) /\
  (forall scan_polygon min_x max_x min_y max_y step,
     (step =? 0) = true ->
     _generate_vertical_scan scan_polygon min_x max_x min_y max_y step
     = Raises ZeroDivisionError) /\
  (forall scan_polygon,
     (forall p, contains scan_polygon p = Rectangles.rect_contains shrunk_square p) ->
     np.arange python_float (1 + 2 / 2) 9 2 = Returns [2; 4; 6; 8] /\
     _generate_vertical_scan scan_polygon 1 9 1 9 2 = Returns square_columns).
Proof.
  split; [|split; [|split; [|split]]].
  - intros scan_polygon min_x max_x min_y max_y step path.
    unfold _generate_vertical_scan.
    apply (sweep_lines_spec scan_polygon _ (fun x y => (x, y))). reflexivity.
  - intros scan_polygon min_x max_x min_y max_y step path E.
    pose proof (vertical_scan_outcome scan_polygon min_x max_x min_y max_y step) as Ho.
    now rewrite E in Ho.
  - intros min_x max_x step x_positions. apply arange_items.
  - intros scan_polygon min_x max_x min_y max_y step Hstep.
    unfold _generate_vertical_scan. now rewrite arange_zero_step.
  - intros scan_polygon Hc. split; [vm_compute; reflexivity|].
    rewrite (vertical_scan_ext G Rectangles.shapely scan_polygon [shrunk_square]).
    + vm_compute. reflexivity.
    + intro p. rewrite Hc. cbn. now rewrite orb_false_r.
Qed.

Lemma vertical_sweep_is_serpentine_witness :
  np.arange python_float (1 + 2 / 2) 9 2 = Returns [2; 4; 6; 8] /\
  _generate_vertical_scan (H := Rectangles.shapely) [shrunk_square] 1 9 1 9 2
  = Returns square_columns.
Proof.
  destruct (vertical_sweep_is_serpentine (G := Rectangles.shapely))
    as (_ & _ & _ & _ & Hsquare).
  apply (Hsquare [shrunk_square]).
  intro p. cbn. now rewrite orb_false_r.
Defined.

(** ** The traditional planner *)

Section Traditional.

Context `{N : NumPy} `{G : Shapely}.
Variable rng : random.source.
Variable scan_polygon : geom.

Lemma sample_grid_outcome (min_x max_x min_y max_y current_step : float) :
  match sample_grid scan_polygon min_x max_x min_y max_y current_step with
  | Returns pts => Forall (fun p => contains scan_polygon p = true) pts
  | Raises e => arange_error e
  | OutOfFuel => False
  end.
Proof.
  unfold sample_grid.
  match goal with |- context [np.arange ?k ?a ?b ?c] =>
    pose proof (arange_never_out_of_fuel k a b c) as Hfx;
    destruct (np.arange k a b c) as [xs| |] eqn:Ex; cbn [bind];
      [|exact (arange_raises _ _ _ _ _ Ex)|congruence]
  end.
  match goal with |- context [np.arange ?k ?a ?b ?c] =>
    pose proof (arange_never_out_of_fuel k a b c) as Hfy;
    destruct (np.arange k a b c) as [ys| |] eqn:Ey; cbn [bind];
      [|exact (arange_raises _ _ _ _ _ Ey)|congruence]
  end.
  apply grid_candidates_inside.
Qed.

Lemma sample_grid_zero_step (min_x max_x min_y max_y current_step : float) :
  (current_step =? 0) = true ->
  sample_grid scan_polygon min_x max_x min_y max_y current_step
  = Raises ZeroDivisionError.
Proof. intro E. unfold sample_grid. now rewrite arange_zero_step. Qed.

Lemma adapt_step_cases (min_x max_x min_y max_y : float) (target_points : Z) :
  forall attempts step valid_points,
  exists n,
    (n <= attempts)%nat /\
    (forall i, (i < n)%nat ->
       exists pts,
         sample_grid scan_polygon min_x max_x min_y max_y (nth_step step i) = Returns pts /\
         (target_points < Z.of_nat (length pts))%Z) /\
    ((exists pts current_step,
        sample_grid scan_polygon min_x max_x min_y max_y (nth_step step n) = Returns pts /\
        ((Z.of_nat (length pts) <= target_points)%Z \/ n = attempts) /\
        adapt_step scan_polygon min_x max_x min_y max_y target_points (S attempts)
          step valid_points = Returns (pts, current_step))
     \/
     (exists e,
        sample_grid scan_polygon min_x max_x min_y max_y (nth_step step n) = Raises e /\
        adapt_step scan_polygon min_x max_x min_y max_y target_points (S attempts)
          step valid_points = Raises e)).
Proof.
  induction attempts as [|attempts IH]; intros step valid_points.
  - exists 0%nat. split; [lia|]. split; [intros; lia|]. cbn [adapt_step nth_step].
    pose proof (sample_grid_outcome min_x max_x min_y max_y step) as Ho.
    destruct (sample_grid scan_polygon min_x max_x min_y max_y step) as [pts|e|];
      cbn [bind]; [|right; eauto|contradiction].
    left. destruct (Z.of_nat (length pts) <=? target_points)%Z eqn:E.
    + exists pts, step. split; [reflexivity|]. split; [|reflexivity].
      left. now apply Z.leb_le.
    + exists pts, (step * 1.2). split; [reflexivity|]. split; [now right | reflexivity].
  - remember (S attempts) as a eqn:Ha. cbn [adapt_step].
    pose proof (sample_grid_outcome min_x max_x min_y max_y step) as Ho.
    destruct (sample_grid scan_polygon min_x max_x min_y max_y step) as [pts|e|] eqn:Es;
      cbn [bind]; [| |contradiction].
    + destruct (Z.of_nat (length pts) <=? target_points)%Z eqn:E.
      * exists 0%nat. split; [lia|]. split; [intros; lia|]. left.
        exists pts, step. cbn [nth_step]. split; [exact Es|]. split; [|reflexivity].
        left. now apply Z.leb_le.
      * subst a. destruct (IH (step * 1.2) pts) as (n & Hn & Hbefore & Hlast).
        exists (S n). split; [lia|]. split.
        -- intros [|i] Hi.
           ++ exists pts. cbn [nth_step]. split; [exact Es|]. now apply Z.leb_gt.
           ++ cbn [nth_step]. apply Hbefore. lia.
        -- cbn [nth_step].
           destruct Hlast as [(pts' & s & E1 & E2 & E3) | (e & E1 & E2)].
           ++ left. exists pts', s. split; [exact E1|]. split; [|exact E3].
              destruct E2 as [E2 | E2]; [now left | right; lia].
           ++ right. exists e. now split.
    + exists 0%nat. split; [lia|]. split; [intros; lia|]. right. exists e.
      cbn [nth_step]. now split.
Qed.

(** The behaviour of the traditional planner over a fixed region when at
    least one point is allowed. *)
Lemma traditional_scan_over_cases (step : float) (max_points : Z) :
  (1 <= max_points)%Z ->
  exists n,
    (n < 10)%nat /\
    (forall i, (i < n)%nat ->
       exists pts, attempt_points scan_polygon step i = Returns pts /\
                   (max_points < Z.of_nat (length pts))%Z) /\
    ((exists pts path,
        attempt_points scan_polygon step n = Returns pts /\
        ((Z.of_nat (length pts) <= max_points)%Z \/ n = 9%nat) /\
        traditional_scan_over rng scan_polygon step max_points = Returns path /\
        (pts = [] -> path = [centroid scan_polygon]) /\
        (pts <> [] -> (Z.of_nat (length pts) <= max_points)%Z -> Permutation pts path) /\
        ((max_points < Z.of_nat (length pts))%Z ->
         length path = Z.to_nat max_points /\
         exists rest, Permutation pts (path ++ rest)))
     \/
     (exists e,
        attempt_points scan_polygon step n = Raises e /\
        arange_error e /\
        traditional_scan_over rng scan_polygon step max_points = Raises e)).
Proof.
  intro Hmax. unfold traditional_scan_over, attempt_points.
  destruct (bounds scan_polygon) as [[[min_x min_y] max_x] max_y].
  destruct (adapt_step_cases min_x max_x min_y max_y max_points 9 step [])
    as (n & Hn & Hbefore & Hlast).
  exists n. split; [lia|]. split; [exact Hbefore|].
  destruct Hlast as [(pts & s & Es & Hfit & Ea) | (e & Es & Ea)].
  - left. rewrite Ea. cbn [bind].
    destruct pts as [|p ps].
    + cbn [length]. replace (max_points <? Z.of_nat 1)%Z with false
        by (symmetry; apply Z.ltb_ge; lia).
      cbn [bind]. exists [], [centroid scan_polygon].
      split; [exact Es|]. split; [exact Hfit|]. split; [reflexivity|].
      split; [reflexivity|]. split; [congruence|]. cbn [length]. lia.
    + destruct (max_points <? Z.of_nat (length (p :: ps)))%Z eqn:E.
      * apply Z.ltb_lt in E.
        destruct (sample_spec rng (p :: ps) max_points) as (l & El & Ll & rest & Pl);
          [lia|].
        rewrite El. cbn [bind].
        destruct (nearest_neighbor_path_permutes l) as (path & Ep & Pp).
        exists (p :: ps), path.
        split; [exact Es|]. split; [exact Hfit|]. split; [exact Ep|].
        split; [discriminate|]. split; [intros _ Hle; lia|].
        intros _. split.
        -- rewrite <- (Permutation_length Pp). exact Ll.
        -- exists rest. now rewrite <- Pp.
      * apply Z.ltb_ge in E. cbn [bind].
        destruct (nearest_neighbor_path_permutes (p :: ps)) as (path & Ep & Pp).
        exists (p :: ps), path.
        split; [exact Es|]. split; [exact Hfit|]. split; [exact Ep|].
        split; [discriminate|]. split; [intros _ _; exact Pp|].
        intro Hlt. lia.
  - right. exists e. split; [exact Es|]. split.
    + pose proof (sample_grid_outcome min_x max_x min_y max_y (nth_step step n)) as Ho.
      now rewrite Es in Ho.
    + now rewrite Ea.
Qed.

Lemma traditional_scan_over_outcome (step : float) (max_points : Z) :
  (1 <= max_points)%Z ->
  match traditional_scan_over rng scan_polygon step max_points with
  | Returns path =>
      (1 <= length path)%nat /\ (Z.of_nat (length path) <= max_points)%Z /\
      (path = [centroid scan_polygon] \/
       Forall (fun p => contains scan_polygon p = true) path)
  | Raises e => arange_error e
  | OutOfFuel => False
  end.
Proof.
  intro Hmax.
  destruct (traditional_scan_over_cases step max_points Hmax)
    as (n & _ & _ & [(pts & path & Ea & _ & -> & Hnil & Hfit & Hmany) | (e & _ & He & ->)]);
    [|exact He].
  assert (Hin : Forall (fun p => contains scan_polygon p = true) pts).
  { unfold attempt_points in Ea.
    destruct (bounds scan_polygon) as [[[min_x min_y] max_x] max_y].
    pose proof (sample_grid_outcome min_x max_x min_y max_y (nth_step step n)) as Ho.
    now rewrite Ea in Ho. }
  destruct pts as [|p ps].
  - rewrite (Hnil eq_refl). cbn [length]. split; [lia|]. split; [lia|]. now left.
  - destruct (Z_lt_le_dec max_points (Z.of_nat (length (p :: ps)))) as [Hlt|Hle].
    + destruct (Hmany Hlt) as [Hlen (rest & P)]. rewrite Hlen.
      split; [lia|]. split; [lia|]. right.
      eapply Permutation_Forall in Hin; [|exact P].
      apply Forall_app in Hin. tauto.
    + assert (P : Permutation (p :: ps) path) by (apply Hfit; [discriminate | exact Hle]).
      rewrite <- (Permutation_length P). cbn [length] in *.
      split; [lia|]. split; [lia|]. right.
      eapply Permutation_Forall; [exact P | exact Hin].
Qed.

Lemma traditional_scan_over_zero_step (step : float) (max_points : Z) :
  (step =? 0) = true ->
  traditional_scan_over rng scan_polygon step max_points = Raises ZeroDivisionError.
Proof.
  intro E. unfold traditional_scan_over.
  destruct (bounds scan_polygon) as [[[min_x min_y] max_x] max_y].
  cbn [adapt_step]. now rewrite sample_grid_zero_step.
Qed.

End Traditional.

Lemma grid_candidates_ext (G1 G2 : Shapely) (g1 : geom (Shapely := G1))
  (g2 : geom (Shapely := G2)) (xs ys : list float) :
  (forall p, contains g1 p = contains g2 p) ->
  grid_candidates g1 xs ys = grid_candidates g2 xs ys.
Proof.
  intro H. unfold grid_candidates.
  apply flat_map_ext. intro x. apply flat_map_ext. intro y. now rewrite H.
Qed.

Lemma attempt_points_ext (G1 G2 : Shapely) (g1 : geom (Shapely := G1))
  (g2 : geom (Shapely := G2)) (step : float) (i : nat) :
  bounds g1 = bounds g2 ->
  (forall p, contains g1 p = contains g2 p) ->
  attempt_points g1 step i = attempt_points g2 step i.
Proof.
  intros Hb Hc. unfold attempt_points. rewrite Hb.
  destruct (bounds g2) as [[[min_x min_y] max_x] max_y]. unfold sample_grid.
  destruct (np.arange _ _ _ _); cbn [bind]; try reflexivity.
  destruct (np.arange _ _ _ _); cbn [bind]; try reflexivity.
  now rewrite (grid_candidates_ext G1 G2 g1 g2).
Qed.

(** X5. In traditional mode with [max_points >= 1] over an active region,
    attempt [i] samples the grid at the step multiplied [i] times by the
    binary64 value of 1.2.  The attempts run while they return more than
    [max_points] points, at most ten of them.  If the attempt reached
    raises (as [np.arange] does for a step of 0), the planner raises the
    same.  Otherwise that attempt is the one used: if it found nothing the
    path is the region's centroid; if its count fits the path is a
    permutation of its points; otherwise the path has exactly [max_points]
    points drawn from it without repetition.  In a room of 4 x 6 with step
    1 the first two attempts find 15 points each and the third finds 8. *)
Theorem traditional_adaptive_sampling `{N : NumPy} `{G : Shapely} (rng : random.source)
  (scan_polygon : geom) :
  (forall step max_points,
     (1 <= max_points)%Z ->
     exists n,
       (n < 10)%nat /\
       (forall i, (i < n)%nat ->
          exists pts, attempt_points scan_polygon step i = Returns pts /\
                      (max_points < Z.of_nat (length pts))%Z) /\
       ((exists pts path,
           attempt_points scan_polygon step n = Returns pts /\
           ((Z.of_nat (length pts) <= max_points)%Z \/ n = 9%nat) /\
           traditional_scan_over rng scan_polygon step max_points = Returns path /\
           (pts = [] -> path = [centroid scan_polygon]) /\
           (pts <> [] -> (Z.of_nat (length pts) <= max_points)%Z -> Permutation pts path) /\
           ((max_points < Z.of_nat (length pts))%Z ->
            length path = Z.to_nat max_points /\
            exists rest, Permutation pts (path ++ rest)))
        \/
        (exists e,
           attempt_points scan_polygon step n = Raises e /\
           arange_error e /\
           traditional_scan_over rng scan_polygon step max_points = Raises e))) /\
  (bounds scan_polygon = (0, 0, 4, 6) ->
   (forall p, contains scan_polygon p = Rectangles.rect_contains (0, 0, 4, 6) p) ->
   exists pts0 pts1 pts2,
     attempt_points scan_polygon 1 0 = Returns pts0 /\ length pts0 = 15%nat /\
     attempt_points scan_polygon 1 1 = Returns pts1 /\ length pts1 = 15%nat /\
     attempt_points scan_polygon 1 2 = Returns pts2 /\ length pts2 = 8%nat).
Proof.
  split.
  - intros step max_points. apply traditional_scan_over_cases.
  - intros Hb Hc.
    assert (E : forall i, attempt_points scan_polygon 1 i
                          = attempt_points (H := Rectangles.shapely) room_region 1 i).
    { intro i. apply attempt_points_ext; [exact Hb|].
      intro p. rewrite Hc. cbn. now rewrite orb_false_r. }
    rewrite !E. do 3 eexists.
    repeat split; try (vm_compute; reflexivity).
Qed.

Lemma traditional_adaptive_sampling_witness :
  exists n,
    (n < 10)%nat /\
    (forall i, (i < n)%nat ->
       exists pts,
         attempt_points (H := Rectangles.shapely) room_region 1 i = Returns pts /\
         (12 < Z.of_nat (length pts))%Z) /\
    ((exists pts path,
        attempt_points (H := Rectangles.shapely) room_region 1 n = Returns pts /\
        ((Z.of_nat (length pts) <= 12)%Z \/ n = 9%nat) /\
        traditional_scan_over (H := Plain.numpy) (H0 := Rectangles.shapely) no_choice
          room_region 1 12 = Returns path /\
        (pts = [] -> path = [centroid (Shapely := Rectangles.shapely) room_region]) /\
        (pts <> [] -> (Z.of_nat (length pts) <= 12)%Z -> Permutation pts path) /\
        ((12 < Z.of_nat (length pts))%Z ->
         length path = Z.to_nat 12 /\
         exists rest, Permutation pts (path ++ rest)))
     \/
     (exists e,
        attempt_points (H := Rectangles.shapely) room_region 1 n = Raises e /\
        arange_error e /\
        traditional_scan_over (H := Plain.numpy) (H0 := Rectangles.shapely) no_choice
          room_region 1 12 = Raises e)).
Proof.
  destruct (traditional_adaptive_sampling (N := Plain.numpy) (G := Rectangles.shapely)
              no_choice room_region) as [H _].
  apply (H 1 12%Z). lia.
Defined.

(** ** The planners end to end *)

Section Plans.

Context `{N : NumPy} `{G : Shapely}.

(** X3. The grid planner never returns an empty path: what it returns is
    the single centroid of the house polygon, or the single centroid of the
    active region, or consists only of points that pass the containment
    test of the active region.  It raises only what [Polygon(...)] raises on
    the boundary or what [np.arange] raises ([ZeroDivisionError],
    [ValueError], [OverflowError]); with a region to sweep, a step of 0
    raises [ZeroDivisionError].  Its loops end. *)
Theorem grid_plan_is_nonempty_and_contained (self : HeliosSceneGenerator)
  (boundary_points : list point) (step z_height boundary_distance : float) :
  match _generate_grid_scan_path self boundary_points step z_height boundary_distance with
  | Returns path =>
      path <> [] /\
      exists house_polygon,
        Polygon (Py.but_last boundary_points) = Some house_polygon /\
        (path = [centroid house_polygon] \/
         exists scan_polygon,
           scan_region house_polygon boundary_distance
           = Returns (ScanPolygon scan_polygon) /\
           (path = [centroid scan_polygon] \/
            Forall (fun p => contains scan_polygon p = true) path))
  | Raises e =>
      (e = LibraryError /\ Polygon (Py.but_last boundary_points) = None) \/
      arange_error e
  | OutOfFuel => False
  end /\
  (Polygon (Py.but_last boundary_points) = None ->
   _generate_grid_scan_path self boundary_points step z_height boundary_distance
   = Raises LibraryError) /\
  (forall house_polygon scan_polygon,
     Polygon (Py.but_last boundary_points) = Some house_polygon ->
     scan_region house_polygon boundary_distance = Returns (ScanPolygon scan_polygon) ->
     (step =? 0) = true ->
     _generate_grid_scan_path self boundary_points step z_height boundary_distance
     = Raises ZeroDivisionError).
Proof.
  unfold _generate_grid_scan_path. split; [|split].
  - destruct (Polygon (Py.but_last boundary_points)) as [house|];
      cbn [library_call bind]; [|left; now split].
    destruct (scan_region_cases house boundary_distance) as [E | (g & E)];
      rewrite E; cbn [bind].
    + split; [discriminate|]. exists house. split; [reflexivity|]. now left.
    + pose proof (grid_scan_over_outcome self g step) as Ho.
      destruct (grid_scan_over self g step) as [path|e|];
        [|now right|exact Ho].
      destruct Ho as [Hne Hc]. split; [exact Hne|]. exists house.
      split; [reflexivity|]. right. exists g. now split.
  - intros ->. reflexivity.
  - intros house g Hp Hr Hstep. rewrite Hp. cbn [library_call bind].
    rewrite Hr. cbn [bind]. now apply grid_scan_over_zero_step.
Qed.

(** X4. In traditional mode with [max_points >= 1] the planner returns at
    least one and at most [max_points] stands: a single centroid, or points
    that all pass the containment test of the active region.  It raises
    only what [Polygon(...)] raises on the boundary or what [np.arange]
    raises; with a region to sample, a step of 0 raises
    [ZeroDivisionError].  Its loops end. *)
Theorem traditional_plan_within_budget (rng : random.source)
  (boundary_points : list point) (step z_height : float) (max_points : Z)
  (boundary_distance : float) :
  (1 <= max_points)%Z ->
  match _generate_traditional_scan_path rng boundary_points step z_height max_points
          boundary_distance with
  | Returns path =>
      (1 <= length path)%nat /\ (Z.of_nat (length path) <= max_points)%Z /\
      exists house_polygon,
        Polygon (Py.but_last boundary_points) = Some house_polygon /\
        (path = [centroid house_polygon] \/
         exists scan_polygon,
           scan_region house_polygon boundary_distance
           = Returns (ScanPolygon scan_polygon) /\
           (path = [centroid scan_polygon] \/
            Forall (fun p => contains scan_polygon p = true) path))
  | Raises e =>
      (e = LibraryError /\ Polygon (Py.but_last boundary_points) = None) \/
      arange_error e
  | OutOfFuel => False
  end /\
  (forall house_polygon scan_polygon,
     Polygon (Py.but_last boundary_points) = Some house_polygon ->
     scan_region house_polygon boundary_distance = Returns (ScanPolygon scan_polygon) ->
     (step =? 0) = true ->
     _generate_traditional_scan_path rng boundary_points step z_height max_points
       boundary_distance
     = Raises ZeroDivisionError).
Proof.
  intro Hmax. unfold _generate_traditional_scan_path. split.
  - destruct (Polygon (Py.but_last boundary_points)) as [house|];
      cbn [library_call bind]; [|left; now split].
    destruct (scan_region_cases house boundary_distance) as [E | (g & E)];
      rewrite E; cbn [bind].
    + cbn [length]. split; [lia|]. split; [lia|].
      exists house. split; [reflexivity|]. now left.
    + pose proof (traditional_scan_over_outcome rng g step max_points Hmax) as Ho.
      destruct (traditional_scan_over rng g step max_points) as [path|e|];
        [|now right|exact Ho].
      destruct Ho as (H1 & H2 & Hc). split; [exact H1|]. split; [exact H2|].
      exists house. split; [reflexivity|]. right. exists g. now split.
  - intros house g Hp Hr Hstep. rewrite Hp. cbn [library_call bind].
    rewrite Hr. cbn [bind]. now apply traditional_scan_over_zero_step.
Qed.

End Plans.

Lemma grid_plan_is_nonempty_and_contained_witness :
  _generate_grid_scan_path (H := Plain.numpy) (H0 := Rectangles.shapely) horizontal_grid
    square_footprint 0 1.5 1 = Raises ZeroDivisionError.
Proof.
  destruct (grid_plan_is_nonempty_and_contained (N := Plain.numpy)
              (G := Rectangles.shapely) horizontal_grid square_footprint 0 1.5 1)
    as (_ & _ & Hzero).
  apply (Hzero [(0, 0, 10, 10)] [shrunk_square]); reflexivity.
Defined.

Lemma traditional_plan_within_budget_witness :
  match _generate_traditional_scan_path (H := Plain.numpy) (H0 := Rectangles.shapely)
          no_choice room_footprint 1 1.5 12 0 with
  | Returns path =>
      (1 <= length path)%nat /\ (Z.of_nat (length path) <= 12)%Z /\
      exists house_polygon,
        Polygon (Shapely := Rectangles.shapely) (Py.but_last room_footprint)
        = Some house_polygon /\
        (path = [centroid house_polygon] \/
         exists scan_polygon,
           scan_region house_polygon 0 = Returns (ScanPolygon scan_polygon) /\
           (path = [centroid scan_polygon] \/
            Forall (fun p => contains scan_polygon p = true) path))
  | Raises e =>
      (e = LibraryError /\
       Polygon (Shapely := Rectangles.shapely) (Py.but_last room_footprint) = None) \/
      arange_error e
  | OutOfFuel => False
  end.
Proof.
  apply (traditional_plan_within_budget (N := Plain.numpy) (G := Rectangles.shapely)
           no_choice room_footprint 1 1.5 12%Z 0).
  lia.
Defined.

(** ** Floor-plan extraction *)

Lemma SFcompare_Lt_swap (a b : spec_float) :
  SFcompare a b = Some Lt -> SFcompare b a = Some Gt.
Proof.
  destruct a as [sa|sa| |sa ma ea], b as [sb|sb| |sb mb eb];
    cbn [SFcompare]; try discriminate;
    try (destruct sa; (discriminate || reflexivity));
    try (destruct sb; (discriminate || reflexivity));
    try (destruct sa, sb; (discriminate || reflexivity)).
  change (Pos.compare_cont Eq ma mb) with (Pos.compare ma mb).
  change (Pos.compare_cont Eq mb ma) with (Pos.compare mb ma).
  rewrite (Z.compare_antisym ea eb), (Pos.compare_antisym ma mb).
  destruct sa, sb; try discriminate; try reflexivity;
    destruct (ea ?= eb)%Z; cbn [CompOpp]; try discriminate; try reflexivity;
    destruct (ma ?= mb)%positive; cbn [CompOpp]; try discriminate; reflexivity.
Qed.

Lemma SFcompare_Lt_refl_l (a b : spec_float) :
  SFcompare a b = Some Lt -> SFcompare a a = Some Eq.
Proof.
  destruct a as [sa|sa| |sa ma ea]; cbn [SFcompare].
  - reflexivity.
  - destruct sa; reflexivity.
  - discriminate.
  - intros _. rewrite Z.compare_refl.
    change (Pos.compare_cont Eq ma ma) with (Pos.compare ma ma). rewrite Pos.compare_refl.
    destruct sa; reflexivity.
Qed.

Lemma ltb_neq (a b : float) :
  (a <? b) = true ->
  (a =? b) = false /\ (b =? a) = false /\ (a =? a) = true /\ (b =? b) = true.
Proof.
  rewrite ltb_spec, !eqb_spec. unfold SFltb, SFeqb. intro H.
  destruct (SFcompare (Prim2SF a) (Prim2SF b)) as [[| |]|] eqn:E; try discriminate.
  rewrite (SFcompare_Lt_swap _ _ E), (SFcompare_Lt_refl_l _ _ E).
  repeat split.
  apply SFcompare_Lt_swap in E.
  destruct (Prim2SF b) as [sb|sb| |sb mb eb]; cbn [SFcompare].
  - reflexivity.
  - destruct sb; reflexivity.
  - destruct (Prim2SF a); discriminate.
  - rewrite Z.compare_refl.
    change (Pos.compare_cont Eq mb mb) with (Pos.compare mb mb). rewrite Pos.compare_refl.
    destruct sb; reflexivity.
Qed.

Lemma distinct_points_rectangle (min_x min_y max_x max_y : float) :
  (min_x <? max_x) = true -> (min_y <? max_y) = true ->
  distinct_points [(min_x, min_y); (max_x, min_y); (max_x, max_y); (min_x, max_y);
                   (min_x, min_y)] = 4%nat.
Proof.
  intros Hx Hy.
  destruct (ltb_neq _ _ Hx) as (Ex & Ex' & Rx & Rx').
  destruct (ltb_neq _ _ Hy) as (Ey & Ey' & Ry & Ry').
  unfold distinct_points, existsb, point_eqb. cbn [fst snd].
  rewrite ?Ex, ?Ey, ?Ex', ?Ey', ?Rx, ?Ry, ?Rx', ?Ry'. cbn [andb orb].
  rewrite ?Ex, ?Ey, ?Ex', ?Ey', ?Rx, ?Ry, ?Rx', ?Ry'. cbn [andb orb]. reflexivity.
Qed.

Lemma distinct_points_all (l : list point) :
  ForallOrdPairs (fun p q => point_eqb p q = false) l ->
  distinct_points l = length l.
Proof.
  induction 1 as [|p l Hp _ IH]; cbn [distinct_points length]; [reflexivity|].
  replace (existsb (point_eqb p) l) with false; [now rewrite IH|].
  symmetry. apply not_true_iff_false. intro E. apply existsb_exists in E.
  destruct E as (q & Hq & E). rewrite Forall_forall in Hp. now rewrite (Hp q Hq) in E.
Qed.

Lemma distinct_points_cons (p : point) (l : list point) :
  (distinct_points l <= distinct_points (p :: l))%nat.
Proof. cbn [distinct_points]. destruct (existsb (point_eqb p) l); lia. Qed.

(** A closed ring whose corners differ pairwise has as many distinct
    points as corners. *)
Lemma distinct_points_closed (first : point) (middle : list point) :
  pairwise_distinct (first :: middle) ->
  (length (first :: middle) <= distinct_points (first :: middle ++ [first]))%nat.
Proof.
  intro H. etransitivity; [|apply distinct_points_cons].
  rewrite distinct_points_all.
  - rewrite length_app. cbn [length]. lia.
  - unfold pairwise_distinct in H. inversion H as [|p l Hf Hm]; subst.
    clear H. induction Hm as [|q l Hq Hm IH].
    + cbn [app]. constructor; [constructor | constructor].
    + cbn [app]. constructor.
      * apply Forall_app. split.
        -- eapply Forall_impl; [|exact Hq]. now intros r [Hr _].
        -- constructor; [|constructor]. inversion Hf as [|? ? [_ Hfq] _]; subst.
           exact Hfq.
      * apply IH. now inversion Hf.
Qed.

Lemma float_getitem_valid {A : Type} (a : list A) (face : list Z) :
  Forall (valid_index (length a)) face ->
  Py.comprehension (np.getitem a) face
  = Returns (flat_map (fun i => match np.getitem a i with
                                | Returns v => [v]
                                | _ => []
                                end) face).
Proof.
  induction 1 as [|i face Hi _ IH]; [reflexivity|].
  cbn [Py.comprehension flat_map].
  destruct (np_getitem_valid a i Hi) as (v & E).
  rewrite E. cbn [bind]. rewrite IH. reflexivity.
Qed.

Lemma ground_vertices_spec `{N : NumPy} (vertices : list vertex)
  (ground_height threshold : float) (faces : list (list Z)) :
  Forall (Forall (valid_index (length vertices))) faces ->
  forall ground_vertices,
    collect_ground_vertices vertices ground_height threshold faces ground_vertices
    = Returns (ground_vertices ++
               flat_map (face_vertices vertices)
                 (filter (face_near_ground vertices ground_height threshold) faces)).
Proof.
  induction 1 as [|face faces Hf _ IH]; intro acc.
  - simpl. now rewrite app_nil_r.
  - cbn [collect_ground_vertices filter].
    rewrite (float_getitem_valid _ _ Hf). cbn [bind].
    fold (face_vertices vertices face).
    change (near_ground (mean (map vz (face_vertices vertices face))) ground_height
              threshold)
      with (face_near_ground vertices ground_height threshold face).
    destruct (face_near_ground vertices ground_height threshold face).
    + rewrite IH. cbn [flat_map]. now rewrite app_assoc.
    + apply IH.
Qed.

Lemma float_min_key_spec {A : Type} (key : A -> float) (l : list A) (m : A) :
  Py.min_key ltb key l = Returns m ->
  In m l /\ Forall (fun x => (key x <? key m) = false) l.
Proof.
  unfold Py.min_key. apply (min_minimal (fun a b => key a <? key b)).
  - intro x. apply ltb_irrefl.
  - intros x y z. apply ltb_trans.
Qed.

Lemma float_max_key_spec {A : Type} (key : A -> float) (l : list A) (m : A) :
  Py.max_key ltb key l = Returns m ->
  In m l /\ Forall (fun x => (key m <? key x) = false) l.
Proof.
  unfold Py.max_key, Py.max. apply (min_minimal (fun a b => key b <? key a)).
  - intro x. apply ltb_irrefl.
  - intros x y z H1 H2. exact (ltb_trans _ _ _ H2 H1).
Qed.

(** Lines 1389-1391 on a non-empty list: the four corners, closed, of the
    smallest axis-parallel rectangle around the points. *)
Lemma bounding_rectangle_tight (xy_coords : list point) :
  xy_coords <> [] ->
  exists min_x min_y max_x max_y,
    bounding_rectangle xy_coords
      = Returns [(min_x, min_y); (max_x, min_y); (max_x, max_y); (min_x, max_y);
                 (min_x, min_y)] /\
    tight_rectangle xy_coords min_x min_y max_x max_y.
Proof.
  intro Hne. unfold bounding_rectangle.
  destruct (min_total (fun a b => fst a <? fst b) xy_coords Hne) as (pa & Ea).
  destruct (min_total (fun a b => snd a <? snd b) xy_coords Hne) as (pb & Eb).
  destruct (max_total (fun a b => fst a <? fst b) xy_coords Hne) as (pc & Ec).
  destruct (max_total (fun a b => snd a <? snd b) xy_coords Hne) as (pd & Ed).
  change (Py.min_key ltb fst xy_coords = Returns pa) in Ea.
  change (Py.min_key ltb snd xy_coords = Returns pb) in Eb.
  change (Py.max_key ltb fst xy_coords = Returns pc) in Ec.
  change (Py.max_key ltb snd xy_coords = Returns pd) in Ed.
  rewrite Ea, Eb, Ec, Ed. cbn [bind].
  destruct (float_min_key_spec _ _ _ Ea) as [Ia Ha].
  destruct (float_min_key_spec _ _ _ Eb) as [Ib Hb].
  destruct (float_max_key_spec _ _ _ Ec) as [Ic Hc].
  destruct (float_max_key_spec _ _ _ Ed) as [Id Hd].
  exists (fst pa), (snd pb), (fst pc), (snd pd). split; [reflexivity|].
  unfold tight_rectangle.
  split; [now apply in_map|]. split; [now apply in_map|].
  split; [now apply in_map|]. split; [now apply in_map|].
  rewrite Forall_forall in *. intros p Hp. repeat split; auto.
Qed.

Section FloorPlan.

Context `{N : NumPy} `{S : SciPy}.

Lemma hull_boundary_cases (xy_coords : list point) :
  (exists first middle,
     hull_boundary xy_coords = Returns (first :: middle ++ [first]) /\
     exists hull,
       ConvexHull_vertices xy_coords = Some hull /\
       Forall2 (fun i p => nth_error xy_coords i = Some p) hull (first :: middle)) \/
  ((exists e, hull_boundary xy_coords = Raises e) /\
   forall corners hull,
     corners <> [] -> ConvexHull_vertices xy_coords = Some hull ->
     ~ Forall2 (fun i p => nth_error xy_coords i = Some p) hull corners).
Proof.
  unfold hull_boundary.
  destruct (ConvexHull_vertices xy_coords) as [hull|]; cbn [library_call bind].
  2: { right. split; [eauto|]. intros; discriminate. }
  assert (Hc : forall hull : list nat,
            (exists pts, Py.comprehension (Py.getitem xy_coords) hull = Returns pts /\
                         Forall2 (fun i p => nth_error xy_coords i = Some p) hull pts) \/
            ((exists e, Py.comprehension (Py.getitem xy_coords) hull = Raises e) /\
             forall pts, ~ Forall2 (fun i p => nth_error xy_coords i = Some p) hull pts)).
  { clear hull. induction hull as [|i hull IH]; cbn [Py.comprehension].
    - left. exists []. split; [reflexivity | constructor].
    - unfold Py.getitem at 1 3. destruct (nth_error xy_coords i) as [p|] eqn:E; cbn [bind].
      + destruct IH as [(pts & -> & F) | ((e & ->) & Hn)]; cbn [bind].
        * left. exists (p :: pts). split; [reflexivity | now constructor].
        * right. split; [eauto|]. intros pts F. inversion F; subst. now apply (Hn l').
      + right. split; [eauto|]. intros pts F. inversion F; subst. congruence. }
  destruct (Hc hull) as [(pts & -> & F) | ((e & ->) & Hn)]; cbn [bind].
  - destruct pts as [|first middle]; cbn [Py.getitem nth_error bind].
    + right. split; [eauto|]. intros corners hull' Hne [= <-] F'.
      inversion F; subst. inversion F'; subst. congruence.
    + left. exists first, middle. split; [reflexivity|]. exists hull. now split.
  - right. split; [eauto|]. intros corners hull' _ [= <-]. apply Hn.
Qed.

Lemma extract_floor_plan_unfolded (vertices : list vertex) (faces : list (list Z))
  (height_threshold : float) :
  vertices <> [] ->
  Forall (Forall (valid_index (length vertices))) faces ->
  extract_floor_plan vertices faces height_threshold =
  let xy_coords := ground_points vertices faces height_threshold in
  if HAS_SCIPY && (3 <=? length xy_coords)%nat
  then try_except (hull_boundary xy_coords) (bounding_rectangle xy_coords)
  else bounding_rectangle xy_coords.
Proof.
  intros Hne Hfaces. unfold extract_floor_plan, ground_points.
  destruct vertices as [|v vs]; [congruence|]. cbn [bind].
  rewrite (ground_vertices_spec _ _ _ _ Hfaces). reflexivity.
Qed.

Lemma ground_points_nonempty (vertices : list vertex) (faces : list (list Z))
  (height_threshold : float) :
  vertices <> [] -> ground_points vertices faces height_threshold <> [].
Proof.
  intro Hne. unfold ground_points, ground_xy.
  destruct (flat_map _ _); [|discriminate].
  destruct vertices; [congruence | discriminate].
Qed.

(** C8 (amended). For every mesh with at least one vertex whose faces use
    indices numpy accepts, and every threshold, [extract_floor_plan]
    returns normally a closed polygon: its first and last points are the
    same.  The ground vertices are the vertices of the faces for which
    [abs(np.mean(heights) - np.percentile(all heights, 5)) < threshold]
    holds as computed in binary64, or all vertices when no face
    qualifies.  When SciPy is present, there are at least 3 projected
    ground points and [ConvexHull] reports at least one index, all of them
    referring to a point, the polygon is the reported corners closed by the
    first one, and it has at least 3 distinct points whenever the hull has
    at least 3 corners at pairwise different points.  In every other case
    the polygon is the smallest axis-parallel rectangle around the
    projected ground points, each side through one of them, which has four
    distinct corners when its sides have positive length. *)
Theorem extract_floor_plan_closed (vertices : list vertex) (faces : list (list Z))
  (height_threshold : float) :
  vertices <> [] ->
  Forall (Forall (valid_index (length vertices))) faces ->
  let ground_height := percentile (map vz vertices) 5 in
  let ground_vertices :=
    flat_map (face_vertices vertices)
      (filter (face_near_ground vertices ground_height height_threshold) faces) in
  let xy_coords :=
    map (fun v => (vx v, vy v))
      (match ground_vertices with [] => vertices | _ :: _ => ground_vertices end) in
  exists polygon first middle,
    extract_floor_plan vertices faces height_threshold = Returns polygon /\
    polygon = first :: middle ++ [first] /\
    ((hull_corners xy_coords (first :: middle) /\
      ((3 <= length (first :: middle))%nat -> pairwise_distinct (first :: middle) ->
       (3 <= distinct_points polygon)%nat))
     \/
     ((forall corners, ~ hull_corners xy_coords corners) /\
      exists min_x min_y max_x max_y,
        polygon = [(min_x, min_y); (max_x, min_y); (max_x, max_y); (min_x, max_y);
                   (min_x, min_y)] /\
        tight_rectangle xy_coords min_x min_y max_x max_y /\
        ((min_x <? max_x) = true -> (min_y <? max_y) = true ->
         distinct_points polygon = 4%nat))).
Proof.
  intros Hne Hfaces.
  pose proof (extract_floor_plan_unfolded vertices faces height_threshold Hne Hfaces)
    as Hext.
  pose proof (ground_points_nonempty vertices faces height_threshold Hne) as Hxy.
  unfold ground_points, ground_xy in Hext, Hxy. cbv zeta in Hext |- *.
  set (xy_coords := map (fun v => (vx v, vy v)) _) in *.
  destruct (bounding_rectangle_tight xy_coords Hxy)
    as (min_x & min_y & max_x & max_y & Er & Ht).
  assert (Hrect : extract_floor_plan vertices faces height_threshold
                  = bounding_rectangle xy_coords ->
                  (forall corners, ~ hull_corners xy_coords corners) ->
    exists polygon first middle,
    extract_floor_plan vertices faces height_threshold = Returns polygon /\
    polygon = first :: middle ++ [first] /\
    ((hull_corners xy_coords (first :: middle) /\
      ((3 <= length (first :: middle))%nat -> pairwise_distinct (first :: middle) ->
       (3 <= distinct_points polygon)%nat))
     \/
     ((forall corners, ~ hull_corners xy_coords corners) /\
      exists min_x min_y max_x max_y,
        polygon = [(min_x, min_y); (max_x, min_y); (max_x, max_y); (min_x, max_y);
                   (min_x, min_y)] /\
        tight_rectangle xy_coords min_x min_y max_x max_y /\
        ((min_x <? max_x) = true -> (min_y <? max_y) = true ->
         distinct_points polygon = 4%nat)))).
  { intros E Hno. eexists. exists (min_x, min_y), [(max_x, min_y); (max_x, max_y); (min_x, max_y)].
    split; [rewrite E; exact Er|]. split; [reflexivity|].
    right. split; [exact Hno|]. exists min_x, min_y, max_x, max_y.
    split; [reflexivity|]. split; [exact Ht|]. apply distinct_points_rectangle. }
  destruct HAS_SCIPY eqn:Hs; cbn [andb] in Hext.
  2: { apply Hrect; [exact Hext|]. intros corners (Hs' & _). congruence. }
  match type of Hext with
  | context [if ?c then _ else _] => destruct c eqn:Hl
  end.
  2: { apply Hrect; [exact Hext|]. intros corners (_ & Hl' & _).
       apply Nat.leb_gt in Hl.
       exact (Nat.lt_irrefl _ (Nat.le_lt_trans _ _ _ Hl' Hl)). }
  apply Nat.leb_le in Hl.
  destruct (hull_boundary_cases xy_coords)
    as [(first & middle & Eh & hull & Ec & F) | ((e & Eh) & Hno)];
    rewrite Eh in Hext; cbn [try_except] in Hext.
  - exists (first :: middle ++ [first]), first, middle.
    split; [exact Hext|]. split; [reflexivity|]. left. split.
    + split; [exact Hs|]. split; [exact Hl|]. split; [discriminate|].
      exists hull. now split.
    + intros H3 Hd. etransitivity; [exact H3|]. now apply distinct_points_closed.
  - apply Hrect; [exact Hext|].
    intros corners (_ & _ & Hc & hull & Ec & F). exact (Hno corners hull Hc Ec F).
Qed.

End FloorPlan.

(** Counterexample to C8 as stated: a mesh with the single vertex (0,0,0)
    yields the polygon that repeats (0,0) five times, which has one
    distinct point. *)
Lemma single_vertex_floor_plan :
  (1 <= length (fst single_vertex_mesh))%nat /\
  extract_floor_plan (H := Plain.numpy) (H0 := scipy_rejecting) (fst single_vertex_mesh)
    (snd single_vertex_mesh) 0.1
    = Returns [(0, 0); (0, 0); (0, 0); (0, 0); (0, 0)] /\
  distinct_points [(0, 0); (0, 0); (0, 0); (0, 0); (0, 0)] = 1%nat.
Proof.
  split; [simpl; lia|]. split; vm_compute; reflexivity.
Qed.

Lemma extract_floor_plan_closed_witness :
  exists polygon first middle,
    extract_floor_plan (H := Plain.numpy) (H0 := scipy_unit_floor) (fst unit_floor_mesh)
      (snd unit_floor_mesh) 0.1 = Returns polygon /\
    polygon = first :: middle ++ [first] /\
    first :: middle = [(0, 0); (1, 0); (1, 1); (0, 1)] /\
    (3 <= distinct_points polygon)%nat.
Proof.
  destruct (extract_floor_plan_closed (N := Plain.numpy) (S := scipy_unit_floor)
              (fst unit_floor_mesh) (snd unit_floor_mesh) 0.1)
    as (polygon & first & middle & E & Ep & Hcases).
  - discriminate.
  - repeat constructor; simpl; lia.
  - exists polygon, first, middle. split; [exact E|]. split; [exact Ep|].
    assert (Ev : extract_floor_plan (H := Plain.numpy) (H0 := scipy_unit_floor)
                   (fst unit_floor_mesh) (snd unit_floor_mesh) 0.1
                 = Returns [(0, 0); (1, 0); (1, 1); (0, 1); (0, 0)])
      by (vm_compute; reflexivity).
    rewrite Ev in E. injection E as <-.
    destruct middle as [|m1 [|m2 [|m3 [|m4 middle]]]]; try discriminate.
    2: { cbn in Ep. injection Ep as _ _ _ _ Ep. destruct middle; discriminate. }
    cbn in Ep. injection Ep as <- <- <- <-. split; [reflexivity|].
    vm_compute. lia.
Defined.

(** ** The greedy order *)

Lemma SFcompare_Eq_r (d a b : spec_float) :
  SFcompare a b = Some Eq -> SFcompare d a = SFcompare d b.
Proof.
  destruct a as [sa|sa| |sa ma ea], b as [sb|sb| |sb mb eb];
    cbn [SFcompare]; try discriminate;
    try (destruct sa; discriminate); try (destruct sb; discriminate).
  - intros _. destruct d as [sd|sd| |sd md ed]; reflexivity.
  - destruct sa, sb; try discriminate; reflexivity.
  - change (Pos.compare_cont Eq ma mb) with (Pos.compare ma mb).
    destruct sa, sb; try discriminate;
      destruct (Z.compare_spec ea eb); try discriminate; subst;
      destruct (Pos.compare_spec ma mb); cbn [CompOpp]; try discriminate; subst;
      reflexivity.
Qed.

Lemma ltb_eqb_r (d a b : float) :
  (a =? b) = true -> (d <? a) = (d <? b).
Proof.
  rewrite eqb_spec, !ltb_spec. unfold SFeqb, SFltb. intro H.
  destruct (SFcompare (Prim2SF a) (Prim2SF b)) as [[| |]|] eqn:E; try discriminate.
  now rewrite (SFcompare_Eq_r _ _ _ E).
Qed.

Lemma ltb_nan_r (d a : float) : is_nan a = true -> (d <? a) = false.
Proof.
  unfold is_nan. rewrite eqb_spec, ltb_spec. unfold SFeqb, SFltb.
  destruct (Prim2SF a) as [sa|sa| |sa ma ea]; cbn [SFcompare].
  - discriminate.
  - destruct sa; discriminate.
  - intros _. destruct (Prim2SF d); reflexivity.
  - rewrite Z.compare_refl.
    change (Pos.compare_cont Eq ma ma) with (Pos.compare ma ma). rewrite Pos.compare_refl.
    destruct sa; discriminate.
Qed.

Lemma index_eq_ltb (d a m : float) :
  index_eq a m = true -> (d <? m) = false -> (d <? a) = false.
Proof.
  unfold index_eq. intros H Hm. apply orb_true_iff in H. destruct H as [H | H].
  - now rewrite (ltb_eqb_r d a m H).
  - apply andb_true_iff in H. destruct H as [H _]. now apply ltb_nan_r.
Qed.

Section GreedyOrder.

Context `{N : NumPy}.

Lemma nearest_neighbor_loop_is_greedy :
  forall fuel unvisited path current,
    (length unvisited <= fuel)%nat ->
    exists chain,
      nearest_neighbor_loop fuel unvisited (path ++ [current])
        = Returns ((path ++ [current]) ++ chain) /\
      greedy_chain norm_distance current chain /\ Permutation unvisited chain.
Proof.
  induction fuel as [|fuel IH]; intros unvisited path current Hlen.
  - destruct unvisited; simpl in Hlen; [|lia].
    exists []. simpl. rewrite app_nil_r. repeat split; constructor.
  - destruct unvisited as [|u us].
    + exists []. simpl. rewrite app_nil_r. repeat split; constructor.
    + cbn [nearest_neighbor_loop]. rewrite last_item_app. cbn [bind].
      match goal with |- context [Py.min_key _ ?k _] => set (key := k) end.
      destruct (min_total (fun a b => ltb (key a) (key b)) (seq 0 (length (u :: us))))
        as (i & Ei); [discriminate|].
      fold (Py.min_key ltb key (seq 0 (length (u :: us)))) in Ei.
      rewrite Ei. cbn [bind].
      destruct (float_min_key_spec _ _ _ Ei) as [Hi Hmin]. apply in_seq in Hi.
      destruct (pop_total (u :: us) i) as (c & rest & Ep); [lia|].
      rewrite Ep. cbn [bind].
      destruct (pop_spec _ _ _ _ Ep) as [P L].
      pose proof (pop_nth _ _ _ _ Ep) as Hc.
      destruct (IH rest (path ++ [current]) c) as (chain & Eo & Hg & Pc).
      { simpl in Hlen, L. lia. }
      exists (c :: chain). split; [|split].
      * rewrite Eo. now rewrite <- !app_assoc.
      * split; [|exact Hg].
        apply Forall_forall. intros x Hx.
        assert (Hxu : In x (u :: us)).
        { eapply Permutation_in; [apply Permutation_sym, P|].
          destruct Hx as [<-|Hx]; [now left | right].
          eapply Permutation_in; [apply Permutation_sym, Pc | exact Hx]. }
        apply In_nth_error in Hxu. destruct Hxu as (j & Hj).
        assert (Hjl : (j < length (u :: us))%nat) by (apply nth_error_Some; congruence).
        rewrite Forall_forall in Hmin.
        specialize (Hmin j). unfold key in Hmin.
        rewrite (nth_error_nth _ _ current Hc), (nth_error_nth _ _ current Hj) in Hmin.
        apply Hmin. apply in_seq. lia.
      * rewrite P. now apply perm_skip.
Qed.

Lemma grid_nearest_loop_is_greedy :
  forall fuel current unvisited scan_path,
    (length unvisited <= fuel)%nat ->
    exists chain,
      grid_nearest_loop fuel current unvisited scan_path = Returns (scan_path ++ chain) /\
      greedy_chain sqrt_distance current chain /\ Permutation unvisited chain.
Proof.
  induction fuel as [|fuel IH]; intros current unvisited scan_path Hlen.
  - destruct unvisited; simpl in Hlen; [|lia].
    exists []. simpl. rewrite app_nil_r. repeat split; constructor.
  - destruct unvisited as [|u us].
    + exists []. simpl. rewrite app_nil_r. repeat split; constructor.
    + cbn [grid_nearest_loop].
      match goal with
      | |- context [Py.min _ ?l] => set (distances := l)
      end.
      assert (Edist : distances = map (sqrt_distance current) (u :: us)) by reflexivity.
      destruct (min_total ltb distances) as (m & Em); [discriminate|].
      rewrite Em. cbn [bind].
      destruct (float_min_spec _ _ Em) as [Hm Hmin].
      destruct (index_total index_eq distances m index_eq_refl Hm) as (i & Ei & Li).
      rewrite Ei. cbn [bind]. rewrite Edist, length_map in Li.
      destruct (index_spec _ _ _ _ Ei) as [(d & Hd & Hdm) _].
      destruct (pop_total (u :: us) i Li) as (c & rest & Ep).
      rewrite Ep. cbn [bind].
      destruct (pop_spec _ _ _ _ Ep) as [P L].
      pose proof (pop_nth _ _ _ _ Ep) as Hc.
      assert (Hd' : nth_error distances i = Some (sqrt_distance current c))
        by (rewrite Edist; apply map_nth_error, Hc).
      assert (Ed : Some d = Some (sqrt_distance current c)) by (rewrite <- Hd; exact Hd').
      injection Ed as ->. clear Hd Hd'.
      destruct (IH c rest (scan_path ++ [c])) as (chain & Eo & Hg & Pc).
      { simpl in Hlen, L. lia. }
      exists (c :: chain). split; [|split].
      * rewrite Eo. now rewrite <- app_assoc.
      * split; [|exact Hg].
        apply Forall_forall. intros x Hx.
        assert (Hxu : In x (u :: us)).
        { eapply Permutation_in; [apply Permutation_sym, P|].
          destruct Hx as [<-|Hx]; [now left | right].
          eapply Permutation_in; [apply Permutation_sym, Pc | exact Hx]. }
        apply (index_eq_ltb _ _ m Hdm).
        rewrite Forall_forall in Hmin. apply Hmin. rewrite Edist. now apply in_map.
      * rewrite P. now apply perm_skip.
Qed.


End GreedyOrder.

(** With the plain roundings the stand at distance [sqrt(1 + 2^-52)] is
    visited before the nearer one at distance 1: both roots are computed as
    1 and it is listed first. *)
Lemma near_tie_keeps_list_order :
  nearest_neighbor_path (H := Plain.numpy) near_tie = Returns near_tie /\
  connect_grid_points (H := Plain.numpy) near_tie = Returns near_tie.
Proof. split; vm_compute; reflexivity. Qed.

End Binary64Facts.
